(** * Static-site builder: resource resolution and build orchestration

    A shallow embedding of [builder/resources.py] and [builder/build.py].

    Conventions of the embedding.
    - Python [str] is [string]; one character is one [ascii].
    - [pathlib.Path] is the POSIX flavour ([PurePosixPath] semantics for the
      pure operations), represented by its root and its list of components.
    - Code that can raise returns [result]; [Raise e] is an uncaught exception.
    - The file system, the module [util] ([sluggify], [is_wide],
      [get_slug_and_optional_date]), the [Document] and [Asset] collaborators
      and the template engine are not part of the two embedded files; they
      enter as type-class parameters or as explicitly marked models. *)

From Stdlib Require Import String Ascii List ZArith Lia Bool OrderedTypeEx.
From stdpp Require Import base gmap strings list fin_maps.

#[local] Set Warnings "-register-all".

Local Open Scope string_scope.
Local Open Scope list_scope.

(** ** Exceptions *)

Inductive exn : Type :=
| ValueError          (* urlsplit, Path.relative_to *)
| StopIteration       (* next() without default on an exhausted iterator *)
| OSError             (* os.link, shutil: any OS-level failure *)
| FileExistsError     (* subclass of OSError *)
| FileNotFoundError   (* subclass of OSError *)
| NotADirectoryError  (* subclass of OSError *)
| AttributeError.     (* attribute access on an object of the wrong class *)

Inductive result (A : Type) : Type :=
| Ok (a : A)
| Raise (e : exn).
Arguments Ok {A} a.
Arguments Raise {A} e.

Global Instance result_ret : MRet result := fun A a => Ok a.

Global Instance result_bind : MBind result := fun A B k m =>
  match m with
  | Ok a => k a
  | Raise e => Raise e
  end.

(** [except OSError:] catches [OSError] and all its subclasses. *)
Definition is_OSError (e : exn) : bool :=
  match e with
  | OSError | FileExistsError | FileNotFoundError | NotADirectoryError => true
  | ValueError | StopIteration | AttributeError => false
  end.

Global Instance exn_eq_dec : EqDecision exn.
Proof. solve_decision. Defined.

(** ** Python string primitives *)

Module Str.

(** [s.find(c)]: index of the first occurrence. *)
Fixpoint find (c : ascii) (s : string) : option nat :=
  match s with
  | EmptyString => None
  | String a s' =>
      if Ascii.eqb a c then Some 0
      else match find c s' with
           | Some i => Some (S i)
           | None => None
           end
  end.

(** [s.rfind(c)]: index of the last occurrence. *)
Fixpoint rfind (c : ascii) (s : string) : option nat :=
  match s with
  | EmptyString => None
  | String a s' =>
      match rfind c s' with
      | Some i => Some (S i)
      | None => if Ascii.eqb a c then Some 0 else None
      end
  end.

(** [s[:i]] and [s[i:]]. *)
Fixpoint take (i : nat) (s : string) : string :=
  match i, s with
  | S i', String a s' => String a (take i' s')
  | _, _ => EmptyString
  end.

Fixpoint drop (i : nat) (s : string) : string :=
  match i, s with
  | S i', String _ s' => drop i' s'
  | _, _ => s
  end.

Definition startswith (s p : string) : bool := String.prefix p s.

Fixpoint rev_acc (s acc : string) : string :=
  match s with
  | EmptyString => acc
  | String a s' => rev_acc s' (String a acc)
  end.

Definition endswith (s p : string) : bool :=
  String.prefix (rev_acc p "") (rev_acc s "").

(** [s.split(sep)] for a one-character separator. *)
Fixpoint split (sep : ascii) (s : string) : list string :=
  match s with
  | EmptyString => [EmptyString]
  | String a s' =>
      if Ascii.eqb a sep then EmptyString :: split sep s'
      else match split sep s' with
           | [] => [String a EmptyString]
           | w :: ws => String a w :: ws
           end
  end.

(** [s.lstrip(chars)] with the character set given as a predicate. *)
Fixpoint lstrip (p : ascii -> bool) (s : string) : string :=
  match s with
  | EmptyString => EmptyString
  | String a s' => if p a then lstrip p s' else s
  end.

(** [s.replace(c, "")]. *)
Fixpoint remove (p : ascii -> bool) (s : string) : string :=
  match s with
  | EmptyString => EmptyString
  | String a s' => if p a then remove p s' else String a (remove p s')
  end.

Definition contains (c : ascii) (s : string) : bool :=
  match find c s with Some _ => true | None => false end.

(** [sep.join(parts)]. *)
Definition join (sep : string) (parts : list string) : string :=
  String.concat sep parts.

Definition is_empty (s : string) : bool :=
  match s with EmptyString => true | _ => false end.

(** [s.strip(chars)] *)
Definition strip (p : ascii -> bool) (s : string) : string :=
  rev_acc (lstrip p (rev_acc (lstrip p s) "")) "".

(** [all(p(c) for c in s)] *)
Fixpoint all (p : ascii -> bool) (s : string) : bool :=
  match s with
  | EmptyString => true
  | String a s' => p a && all p s'
  end.

(** Index of the first character satisfying [p]. *)
Fixpoint find_if (p : ascii -> bool) (s : string) : option nat :=
  match s with
  | EmptyString => None
  | String a s' =>
      if p a then Some 0
      else match find_if p s' with
           | Some i => Some (S i)
           | None => None
           end
  end.

Definition in_range (lo hi : nat) (a : ascii) : bool :=
  Nat.leb lo (nat_of_ascii a) && Nat.leb (nat_of_ascii a) hi.

Definition isascii (a : ascii) : bool := Nat.ltb (nat_of_ascii a) 128.

(** [c.isascii() and c.isalpha()] *)
Definition is_ascii_alpha (a : ascii) : bool :=
  in_range 65 90 a || in_range 97 122 a.

Definition is_digit (a : ascii) : bool := in_range 48 57 a.

(** [s.lower()], on the ASCII letters *)
Fixpoint lower (s : string) : string :=
  match s with
  | EmptyString => EmptyString
  | String a s' =>
      String (if in_range 65 90 a then ascii_of_nat (nat_of_ascii a + 32) else a)
             (lower s')
  end.

(** [s.split(c, 1)] when [c] occurs in [s] *)
Definition split_once (c : ascii) (s : string) : string * string :=
  match find c s with
  | Some i => (take i s, drop (S i) s)
  | None => (s, "")
  end.

End Str.

(** ** [pathlib] paths, POSIX flavour *)

Inductive Root : Type :=
| NoRoot   (* relative path *)
| Slash    (* one leading slash, or three and more *)
| Slash2.  (* exactly two leading slashes *)

Global Instance Root_eq_dec : EqDecision Root.
Proof. solve_decision. Defined.

Record Path : Type := mkPath { root : Root; segs : list string }.

Global Instance Path_eq_dec : EqDecision Path.
Proof. solve_decision. Defined.

Definition root_str (r : Root) : string :=
  match r with NoRoot => "" | Slash => "/" | Slash2 => "//" end.

Module P.

(** [_PosixFlavour.splitroot]. *)
Definition splitroot (part : string) : Root * string :=
  match part with
  | String "/" _ =>
      let stripped := Str.lstrip (Ascii.eqb "/") part in
      if Nat.eqb (String.length part - String.length stripped) 2
      then (Slash2, stripped) else (Slash, stripped)
  | _ => (NoRoot, part)
  end.

Definition keep_seg (x : string) : bool :=
  negb (Str.is_empty x) && negb (String.eqb x ".").

(** [Path(s)]: [parse_parts] on one argument. *)
Definition of_string (s : string) : Path :=
  let '(r, rel) := splitroot s in
  mkPath r (List.filter keep_seg (Str.split "/" rel)).

(** [p.parts] as pathlib keeps them ([_parts]): the root is the first part. *)
Definition parts (p : Path) : list string :=
  match root p with
  | NoRoot => segs p
  | r => root_str r :: segs p
  end.

(** [str(p)]. *)
Definition to_string (p : Path) : string :=
  match root p, segs p with
  | NoRoot, [] => "."
  | r, l => root_str r +:+ Str.join "/" l
  end.

(** [a / b] for a path [b] ([join_parsed_parts] without drives). *)
Definition join (a b : Path) : Path :=
  match root b with
  | NoRoot => mkPath (root a) (segs a ++ segs b)
  | _ => b
  end.

(** [a / s] for a string [s]. *)
Definition joins (a : Path) (s : string) : Path := join a (of_string s).

(** [_make_child_relpath(name)]: used by [iterdir] and [glob]. *)
Definition child (a : Path) (name : string) : Path :=
  mkPath (root a) (segs a ++ [name]).

Definition is_absolute (p : Path) : bool :=
  match root p with NoRoot => false | _ => true end.

Definition name (p : Path) : string := List.last (segs p) "".

Definition parent (p : Path) : Path := mkPath (root p) (List.removelast (segs p)).

(** The test [0 < i < len(name) - 1] shared by [suffix] and [stem]. *)
Definition suffix_index (nm : string) : option nat :=
  match Str.rfind "." nm with
  | Some i => if Nat.ltb 0 i && Nat.ltb i (String.length nm - 1) then Some i else None
  | None => None
  end.

Definition suffix (p : Path) : string :=
  match suffix_index (name p) with
  | Some i => Str.drop i (name p)
  | None => ""
  end.

Definition stem (p : Path) : string :=
  match suffix_index (name p) with
  | Some i => Str.take i (name p)
  | None => name p
  end.

(** [abs_parts] of [relative_to]: drive and root count as separate parts. *)
Definition abs_parts (p : Path) : list string :=
  match root p with
  | NoRoot => segs p
  | r => "" :: root_str r :: segs p
  end.

Definition list_eqb (a b : list string) : bool := bool_decide (a = b).

(** [self.relative_to(other)]. *)
Definition relative_to (self other : Path) : result Path :=
  let a := abs_parts self in
  let t := abs_parts other in
  let n := List.length t in
  let bad :=
    if Nat.eqb n 0 then is_absolute self
    else negb (list_eqb (List.firstn n a) t) in
  if bad then Raise ValueError
  else Ok (mkPath (if Nat.eqb n 1 then root self else NoRoot) (List.skipn n a)).

(** Python list comparison [a < b] on lists of strings. *)
Fixpoint parts_ltb (a b : list string) : bool :=
  match a, b with
  | [], [] => false
  | [], _ :: _ => true
  | _ :: _, [] => false
  | x :: a', y :: b' =>
      if String.eqb x y then parts_ltb a' b' else String.ltb x y
  end.

(** [p < q] ([_cparts] comparison; case folding is the identity on POSIX). *)
Definition ltb (p q : Path) : bool := parts_ltb (parts p) (parts q).

End P.

(** ** Python builtins used by the resolver *)

(** [next(it, default)]; without a default an exhausted iterator raises. *)
Definition py_next {A} (it : list A) (default : option A) : result A :=
  match it, default with
  | x :: _, _ => Ok x
  | [], Some d => Ok d
  | [], None => Raise StopIteration
  end.

(** The loop of [min]: the running minimum is replaced by a strictly
    smaller item only, so the first minimal item wins. *)
Definition min_loop {A} (lt : A -> A -> bool) (l : list A) (m : A) : A :=
  fold_left (fun m x => if lt x m then x else m) l m.

(** [min(it, default=...)]; without a default an empty iterable raises. *)
Definition py_min {A} (lt : A -> A -> bool) (it : list A) (default : option A) : result A :=
  match it, default with
  | x :: l, _ => Ok (min_loop lt l x)
  | [], Some d => Ok d
  | [], None => Raise ValueError
  end.

(** [a < b] on the values the resolver compares: candidates, never [None]. *)
Definition option_ltb (a b : option Path) : bool :=
  match a, b with
  | Some a, Some b => P.ltb a b
  | _, _ => false
  end.

(** Python [set]: each element once, in an order the language leaves open. *)
Class SetOrder := {
  set_iter : list Path -> list Path;
  set_iter_perm : forall l, set_iter l ≡ₚ remove_dups l
}.

(** One admissible order: first occurrence. *)
Definition first_occurrence_order : SetOrder :=
  {| set_iter := remove_dups; set_iter_perm := fun l => reflexivity _ |}.

(** Another one: reverse of first occurrence. *)
Definition reversed_order : SetOrder :=
  {| set_iter := fun l => rev (remove_dups l);
     set_iter_perm := fun l => Permutation_sym (Permutation_rev (remove_dups l)) |}.

(** ** Directory listings *)

Inductive EntryKind : Type := RegularFile | Directory | SymbolicLink.

Record DirEntry : Type := mkEntry { entry_name : string; entry_kind : EntryKind }.

(** ** Resources ([resources.py]) *)

Inductive Kind : Type := Piece | Project.

Global Instance Kind_eq_dec : EqDecision Kind.
Proof. solve_decision. Defined.

(** The class constant [DIRECTORY]. *)
Definition DIRECTORY (k : Kind) : Path :=
  match k with
  | Piece => P.of_string "pieces"
  | Project => P.of_string "projects"
  end.

(** Values that reach the init-only argument [description_path] and the field
    [_description_path].  The class attribute [description_path] is rebound to
    the [cached_property] further down the class body, so that object is the
    default of the init-only argument. *)
Inductive DescArg : Type :=
| DNone
| DPath (p : Path)
| DCachedProperty.

Record Resource : Type := mkResource {
  cls : Kind;
  path : Path;
  slug : string;
  _description_path : DescArg
}.

(** Where a description document comes from. *)
Inductive DocSource : Type :=
| LoadFile (p : Path)                 (* Document.load_file(p) *)
| FromString (md : string) (slug : string). (* Document.from_string(md, slug=slug) *)

Definition newline : string := String (ascii_of_nat 10) EmptyString.

(** The functions imported from [util.py], which is not among the embedded
    files. *)
Class Util := {
  sluggify : string -> string;
  get_slug_and_optional_date : string -> string * option string;
  is_wide : Path -> bool
}.

(** [os.scandir]: the entries of a directory in the order the OS gives
    them, or the error for a path that is not a readable directory. *)
Class DirView := {
  scandir : Path -> result (list DirEntry)
}.

Section Resources.

Context `{Util} `{DirView} `{SetOrder}.

(** [Resource.__post_init__] after the generated [__init__] has stored the
    fields. *)
Definition post_init (k : Kind) (path : Path) (slug : option string)
    (_dp : DescArg) (description_path : DescArg) : Resource :=
  let slug :=
    match slug with
    | None => sluggify (P.stem path)
    | Some s => if Str.is_empty s then sluggify (P.stem path) else s
    end in
  let _dp :=
    match description_path with
    | DNone => _dp
    | d => d
    end in
  mkResource k path slug _dp.

(** [cls(path)] *)
Definition new (k : Kind) (path : Path) : Resource :=
  post_init k path None DNone DCachedProperty.

(** [cls(path, description_path=p)] *)
Definition new_with_description (k : Kind) (path p : Path) : Resource :=
  post_init k path None DNone (DPath p).

Definition is_document_suffix (s : string) : bool :=
  String.eqb s ".md" || String.eqb s ".html".

(** [Resource.from_path] *)
Definition from_path (k : Kind) (path : Path) : Resource :=
  if is_document_suffix (P.suffix path)
  then new_with_description k (P.parent path) path
  else new k path.

(** [Path.iterdir] *)
Definition iterdir (p : Path) : result (list Path) :=
  l ← scandir p; Ok (map (fun e => P.child p (entry_name e)) l).

(** [Path.glob('*.md')]: nothing for a path that is not a directory. *)
Definition glob_md (p : Path) : list Path :=
  match scandir p with
  | Ok l => map (P.child p)
              (List.filter (fun n => Str.endswith n ".md") (map entry_name l))
  | Raise _ => []
  end.

Definition is_asset_suffix (s : string) : bool :=
  negb (String.eqb s ".md" || String.eqb s ".html" || String.eqb s "").

(** [Resource.asset_paths] *)
Definition asset_paths (r : Resource) : result (list Path) :=
  l ← iterdir (path r);
  Ok (List.filter (fun p => is_asset_suffix (P.suffix p)) l).

Definition mem (p : Path) (l : list Path) : bool := bool_decide (p ∈ l).

(** [set(self.path.glob('*.md'))], in the order the set is iterated. *)
Definition candidates (r : Resource) : list Path := set_iter (glob_md (path r)).

(** The test of the generator expression in [description_path]. *)
Definition matches_slug (r : Resource) (p : Path) : bool :=
  String.eqb (fst (get_slug_and_optional_date (P.stem p))) (slug r).

(** [Resource.description_path] (the cached property) *)
Definition description_path (r : Resource) : result (option Path) :=
  let candidates := candidates r in
  if Nat.leb (List.length candidates) 1 then
    py_next (map Some candidates) (Some None)
  else
    let p := P.joins (path r) "index.md" in
    if mem p candidates then Ok (Some p) else
    let p := P.joins (path r) (slug r +:+ ".md") in
    if mem p candidates then Ok (Some p) else
    p ← py_next
          (map Some
             (List.filter
                (fun p => String.eqb (fst (get_slug_and_optional_date (P.stem p))) (slug r))
                candidates))
          (Some None);
    match p with
    | Some p => Ok (Some p)
    | None => py_min (fun a b => match a, b with
                                 | Some a, Some b => P.ltb a b
                                 | _, _ => false
                                 end)
                (map Some candidates) (Some None)
    end.

(** The markdown text built by [Resource._generate_description]. *)
Definition generate_description_md (r : Resource) : result string :=
  assets ← asset_paths r;
  headline_img ←
    match assets with
    | [] => Ok ""
    | first :: _ =>
        headline ← py_next
          (List.filter (fun p => String.eqb (sluggify (P.stem p)) (slug r)) assets)
          (Some first);
        let alt := P.stem headline in
        relative_path ← P.relative_to headline (path r);
        let classes := if is_wide headline then ".wide .headline" else ".headline" in
        Ok ("![" +:+ alt +:+ "](" +:+ P.to_string relative_path +:+ "){"
              +:+ classes +:+ "}")
    end;
  Ok (headline_img +:+ newline +:+ "# " +:+ slug r).

(** [Resource.description], up to the parser: which source is parsed. *)
Definition description_source (r : Resource) : result DocSource :=
  dp ← description_path r;
  match dp with
  | None => md ← generate_description_md r; Ok (FromString md (slug r))
  | Some p => Ok (LoadFile p)
  end.

End Resources.

(** ** URLs: [urllib.parse.urlsplit] and [is_relative_url] *)

Record SplitResult : Type := mkSplit {
  url_scheme : string;
  url_netloc : string;
  url_path : string;
  url_query : string;
  url_fragment : string
}.

(** The two validations of a network location that [urlsplit] delegates:
    [_check_bracketed_netloc] (module [ipaddress]) and the NFKC test of
    [_checknetloc] (module [unicodedata]); [true] means accepted. *)
Class NetlocChecks := {
  bracketed_netloc_ok : string -> bool;
  nfkc_netloc_ok : string -> bool
}.

Definition is_c0_control_or_space (a : ascii) : bool := Nat.leb (nat_of_ascii a) 32.

(** Tab, carriage return, line feed. *)
Definition is_unsafe_url_byte (a : ascii) : bool :=
  Nat.eqb (nat_of_ascii a) 9 || Nat.eqb (nat_of_ascii a) 13 || Nat.eqb (nat_of_ascii a) 10.

Definition is_scheme_char (a : ascii) : bool :=
  Str.is_ascii_alpha a || Str.is_digit a
  || Ascii.eqb a "+" || Ascii.eqb a "-" || Ascii.eqb a ".".

Definition is_netloc_delim (a : ascii) : bool :=
  Ascii.eqb a "/" || Ascii.eqb a "?" || Ascii.eqb a "#".

(** [_splitnetloc(url, 2)] *)
Definition splitnetloc2 (url : string) : string * string :=
  let tail := Str.drop 2 url in
  match Str.find_if is_netloc_delim tail with
  | Some j => (Str.take j tail, Str.drop j tail)
  | None => (tail, "")
  end.

(** [_checknetloc] *)
Definition checknetloc `{NetlocChecks} (netloc : string) : bool :=
  if Str.is_empty netloc || Str.all Str.isascii netloc then true
  else nfkc_netloc_ok netloc.

Definition first_is_ascii_alpha (s : string) : bool :=
  match s with
  | String a _ => Str.is_ascii_alpha a
  | EmptyString => false
  end.

(** [urllib.parse.urlsplit(url, scheme=scheme)] *)
Definition urlsplit `{NetlocChecks} (url scheme : string) : result SplitResult :=
  let url := Str.lstrip is_c0_control_or_space url in
  let scheme := Str.strip is_c0_control_or_space scheme in
  let url := Str.remove is_unsafe_url_byte url in
  let scheme := Str.remove is_unsafe_url_byte scheme in
  let '(scheme, url) :=
    match Str.find ":" url with
    | Some (S i) =>
        if first_is_ascii_alpha url && Str.all is_scheme_char (Str.take (S i) url)
        then (Str.lower (Str.take (S i) url), Str.drop (S (S i)) url)
        else (scheme, url)
    | _ => (scheme, url)
    end in
  '(netloc, url) ←
    (if Str.startswith url "//" then
       let '(netloc, rest) := splitnetloc2 url in
       let opens := Str.contains "[" netloc in
       let closes := Str.contains "]" netloc in
       if (opens && negb closes) || (closes && negb opens) then Raise ValueError
       else if opens && closes && negb (bracketed_netloc_ok netloc) then Raise ValueError
       else Ok (netloc, rest)
     else Ok ("", url));
  let '(url, fragment) :=
    if Str.contains "#" url then Str.split_once "#" url else (url, "") in
  let '(url, query) :=
    if Str.contains "?" url then Str.split_once "?" url else (url, "") in
  if checknetloc netloc then Ok (mkSplit scheme netloc url query fragment)
  else Raise ValueError.

(** [is_relative_url] *)
Definition is_relative_url `{NetlocChecks} (url : string) : result bool :=
  u ← urlsplit url "file";
  Ok (String.eqb (url_scheme u) "file" && negb (Str.startswith (url_path u) "/")).

(** The closure [fn] of [Resource.description_with_absolute_urls]. *)
Definition absolutize_url `{NetlocChecks} (r : Resource) (url : string) : result string :=
  rel ← is_relative_url url;
  if negb rel then Ok url
  else Ok (Str.join "/" ("" :: P.parts (DIRECTORY (cls r)) ++ [slug r; url])).

(** [/{collectionKind}/{slug}/{url}] *)
Definition absolute_form (r : Resource) (url : string) : string :=
  "/" +:+ P.to_string (DIRECTORY (cls r)) +:+ "/" +:+ slug r +:+ "/" +:+ url.

(** In the words of the spec, for one URL: the absolutizer yields the
    absolute form when the URL is relative and the URL itself otherwise. *)
Definition rewritten_or_unchanged `{NetlocChecks} (r : Resource) (url : string) : Prop :=
  exists out, absolutize_url r url = Ok out /\ (out = absolute_form r url \/ out = url).

(** ** Documents, assets, templates, configuration *)


(** Modelled from the spec: the parsed content of a [Document]
    ([document.py] is not among the embedded files): a title, a renderable
    body, and the URL references embedded in the body, in document order. *)
Record DocContent : Type := mkDoc {
  doc_title : string;
  doc_body : string;
  doc_urls : list string
}.

(** Modelled from the spec: the operations of the [Document] collaborator
    that do not touch object identity: [Document.load_file],
    [Document.from_string], [inner_html] and the [path] of every reference
    yielded by [iter_dependencies]. *)
Class DocumentLib := {
  load_file : Path -> result DocContent;
  from_string : string -> string -> result DocContent;
  inner_html : DocContent -> string;
  iter_dependencies : DocContent -> list string
}.

(** [Asset(p)]: an asset is made from its source path. *)
Record Asset : Type := mkAsset { asset_source : Path }.

(** The template [resource_page.html] rendered with [title] and [content]. *)
Class Templates := {
  render_resource_page : string -> string -> string
}.

(** [config.CONFIG] *)
Class Config := {
  output_dir : Path;
  input_dir : Path
}.

(** ** Objects and effects *)

Definition loc := nat.

(** Modelled from the spec: a [Document] instance is a mutable object that
    holds its title and a reference to its element tree, itself a mutable
    object holding the body and the URL references; a shallow copy of a
    document shares the tree, a deep copy does not. *)
Inductive obj : Type :=
| ODocument (title : string) (tree : loc)
| OTree (body : string) (urls : list string).

Inductive Event : Type :=
| LogDebug (msg : string)
| LogInfo (msg : string)
| LogWarning (msg : string)
| Mkdir (p : Path)                    (* p.mkdir(exist_ok=True, parents=True) *)
| WriteText (p : Path) (text : string) (* p.write_text(text) *)
| AssetTo (a : Asset) (dst : Path).   (* a.to(dst) *)

(** The state seen by one [Resource] instance: the object heap, the two
    entries that [functools.cached_property] puts into the instance's
    [__dict__] for the document properties, and the effects performed so
    far, oldest first.  ([asset_paths] and [description_path] are cached too;
    their values are immutable and the directory view is fixed, so that
    caching cannot be observed and is not represented.) *)
Record State : Type := mkState {
  heap : gmap loc obj;
  description_cache : option loc;
  description_with_absolute_urls_cache : option loc;
  events : list Event
}.

Definition M (A : Type) : Type := State -> result (A * State).

Global Instance M_ret : MRet M := fun A a st => Ok (a, st).

Global Instance M_bind : MBind M := fun A B k m st =>
  match m st with
  | Ok (a, st') => k a st'
  | Raise e => Raise e
  end.

Definition lift {A} (r : result A) : M A := fun st =>
  match r with
  | Ok a => Ok (a, st)
  | Raise e => Raise e
  end.

Definition raise {A} (e : exn) : M A := fun _ => Raise e.

Definition emit (ev : Event) : M unit := fun st =>
  Ok (tt, mkState (heap st) (description_cache st)
            (description_with_absolute_urls_cache st) (events st ++ [ev])).

(** Object creation: the new object gets an unused location. *)
Definition alloc (o : obj) : M loc := fun st =>
  let l := fresh (dom (heap st)) in
  Ok (l, mkState (<[l := o]> (heap st)) (description_cache st)
           (description_with_absolute_urls_cache st) (events st)).

Definition read (l : loc) : M obj := fun st =>
  match heap st !! l with
  | Some o => Ok (o, st)
  | None => Raise AttributeError
  end.

(** In-place mutation of the object at [l]. *)
Definition write (l : loc) (o : obj) : M unit := fun st =>
  Ok (tt, mkState (<[l := o]> (heap st)) (description_cache st)
            (description_with_absolute_urls_cache st) (events st)).

(** A freshly parsed document: a tree object and a document object. *)
Definition new_document (d : DocContent) : M loc :=
  t ← alloc (OTree (doc_body d) (doc_urls d));
  alloc (ODocument (doc_title d) t).

(** What a document object currently holds. *)
Definition get_document (l : loc) : M DocContent :=
  o ← read l;
  match o with
  | ODocument title t =>
      ot ← read t;
      match ot with
      | OTree body urls => mret (mkDoc title body urls)
      | ODocument _ _ => raise AttributeError
      end
  | OTree _ _ => raise AttributeError
  end.

(** [copy.deepcopy(x)]: every object reachable from [x] is duplicated. *)
Definition deepcopy (l : loc) : M loc :=
  o ← read l;
  match o with
  | ODocument title t =>
      ot ← read t;
      match ot with
      | OTree body urls =>
          t' ← alloc (OTree body urls);
          alloc (ODocument title t')
      | ODocument _ _ => raise AttributeError
      end
  | OTree body urls => alloc (OTree body urls)
  end.

(** [copy.copy(x)], for contrast: only the outer object is duplicated. *)
Definition shallowcopy (l : loc) : M loc :=
  o ← read l; alloc o.

Fixpoint map_result {A B} (f : A -> result B) (l : list A) : result (list B) :=
  match l with
  | [] => Ok []
  | x :: l' => y ← f x; ys ← map_result f l'; Ok (y :: ys)
  end.

(** Modelled from the spec: [doc.rewrite_urls(fn)] replaces every URL
    reference of the document by [fn] of it, mutating the document's tree in
    place. *)
Definition rewrite_urls (l : loc) (fn : string -> result string) : M unit :=
  o ← read l;
  match o with
  | ODocument _ t =>
      ot ← read t;
      match ot with
      | OTree body urls =>
          urls' ← lift (map_result fn urls);
          write t (OTree body urls')
      | ODocument _ _ => raise AttributeError
      end
  | OTree _ _ => raise AttributeError
  end.

Definition set_description_cache (l : loc) : M unit := fun st =>
  Ok (tt, mkState (heap st) (Some l) (description_with_absolute_urls_cache st) (events st)).

Definition set_description_with_absolute_urls_cache (l : loc) : M unit := fun st =>
  Ok (tt, mkState (heap st) (description_cache st) (Some l) (events st)).

Definition add_events (evs : list Event) (st : State) : State :=
  mkState (heap st) (description_cache st) (description_with_absolute_urls_cache st)
          (events st ++ evs).

Section Building.

Context `{Util} `{DirView} `{SetOrder} `{NetlocChecks} `{DocumentLib} `{Templates} `{Config}.

(** The content that [Resource.description] parses on first access. *)
Definition description_content (r : Resource) : result DocContent :=
  dp ← description_path r;
  match dp with
  | None => md ← generate_description_md r; from_string md (slug r)
  | Some p => load_file p
  end.

(** What [Resource.description] logs on first access. *)
Definition description_events (r : Resource) : list Event :=
  match description_path r with
  | Ok None => [LogDebug ("generating default description for "
                           +:+ P.to_string (DIRECTORY (cls r)) +:+ "/" +:+ slug r)]
  | _ => []
  end.

(** [Resource._generate_description] *)
Definition _generate_description (r : Resource) : M loc :=
  md ← lift (generate_description_md r);
  d ← lift (from_string md (slug r));
  new_document d.

(** [Resource.description] (cached property) *)
Definition description (r : Resource) : M loc := fun st =>
  match description_cache st with
  | Some l => Ok (l, st)
  | None =>
      (dp ← lift (description_path r);
       l ← match dp with
           | None =>
               _ ← emit (LogDebug ("generating default description for "
                                     +:+ P.to_string (DIRECTORY (cls r)) +:+ "/" +:+ slug r));
               _generate_description r
           | Some p => d ← lift (load_file p); new_document d
           end;
       _ ← set_description_cache l;
       mret l) st
  end.

(** [Resource.description_with_absolute_urls] (cached property) *)
Definition description_with_absolute_urls (r : Resource) : M loc := fun st =>
  match description_with_absolute_urls_cache st with
  | Some l => Ok (l, st)
  | None =>
      (d ← description r;
       doc ← deepcopy d;
       _ ← rewrite_urls doc (absolutize_url r);
       _ ← set_description_with_absolute_urls_cache doc;
       mret doc) st
  end.

(** The dictionary [{p.stem: Asset(p) for p in resource.asset_paths}]: a
    later path replaces an earlier one with the same stem. *)
Definition asset_index (paths : list Path) : gmap string Asset :=
  fold_left (fun m p => <[P.stem p := mkAsset p]> m) paths ∅.

(** The destination computed for one dependency in [build_resource]. *)
Definition dependency_destination (page_dir : Path) (dependency_path : string) : Path :=
  let p := P.of_string dependency_path in
  if negb (P.is_absolute p) then P.join page_dir p else p.

(** The body of the loop over [description.iter_dependencies()]. *)
Definition reconcile_dependency (assets : gmap string Asset) (page_dir : Path)
    (dependency_path : string) : M unit :=
  let p := dependency_destination page_dir dependency_path in
  match assets !! P.stem p with
  | Some a => emit (AssetTo a p)
  | None => emit (LogWarning ("Missing asset " +:+ P.to_string p))
  end.

Fixpoint for_each {A} (body : A -> M unit) (l : list A) : M unit :=
  match l with
  | [] => mret tt
  | x :: l' => _ ← body x; for_each body l'
  end.

(** What reconciling one dependency is expected to do, in the words of the
    spec: materialize the asset found under the destination's stem to the
    destination, or warn when there is none. *)
Definition reconciled (assets : gmap string Asset) (page_dir : Path)
    (dependency_path : string) (ev : Event) : Prop :=
  let p := P.of_string dependency_path in
  let dst := if P.is_absolute p then p else P.join page_dir p in
  match assets !! P.stem dst with
  | Some a => ev = AssetTo a dst
  | None => ev = LogWarning ("Missing asset " +:+ P.to_string dst)
  end.

Definition is_AssetTo (ev : Event) : bool :=
  match ev with
  | AssetTo _ _ => true
  | _ => false
  end.

Definition page_dir_of (r : Resource) : Path :=
  P.joins (P.join output_dir (DIRECTORY (cls r))) (slug r).

(** [build_resource] *)
Definition build_resource (r : Resource) : M Path :=
  let page_dir := page_dir_of r in
  let page_file := P.joins page_dir "index.html" in
  d ← description r;
  doc ← get_document d;
  let page := render_resource_page (doc_title doc) (inner_html doc) in
  _ ← emit (LogInfo (slug r +:+ " -> " +:+ P.to_string page_file));
  _ ← emit (Mkdir page_dir);
  _ ← emit (WriteText page_file page);
  paths ← lift (asset_paths r);
  let assets := asset_index paths in
  _ ← for_each (reconcile_dependency assets page_dir) (iter_dependencies doc);
  mret page_file.



End Building.

Definition initial_state : State := mkState ∅ None None [].

(** *** Well-formed states *)

(** The object at [d] is a document with tree [t] and content [c]. *)
Definition holds_document (h : gmap loc obj) (d t : loc) (c : DocContent) : Prop :=
  h !! d = Some (ODocument (doc_title c) t) /\
  h !! t = Some (OTree (doc_body c) (doc_urls c)).

(** Two documents that share no object. *)
Definition separate (h : gmap loc obj) (d a : loc) : Prop :=
  exists td ta cd ca,
    holds_document h d td cd /\ holds_document h a ta ca /\
    d <> a /\ td <> ta /\ d <> ta /\ td <> a.

(** What holds of the states that the two document properties produce,
    starting from a new instance: a cached description is a document, and a
    cached absolutized description is a document separate from it. *)
Definition state_ok (st : State) : Prop :=
  (forall d, description_cache st = Some d ->
             exists t c, holds_document (heap st) d t c) /\
  (forall a, description_with_absolute_urls_cache st = Some a ->
             exists d, description_cache st = Some d /\ separate (heap st) d a).

Definition set_heap (h : gmap loc obj) (st : State) : State :=
  mkState h (description_cache st) (description_with_absolute_urls_cache st) (events st).

(** ** A file system for [sync_static_path]

    Regular files are names for inodes (so that hard links and
    [samefile] mean something), directories hold their entries, symbolic
    links hold their target.  A path is looked up by its [parts]; the top
    node is the name space in which ["/"] and the names of the working
    directory live.  Limits of the model: a symbolic link is followed when it
    is the last component of a path, not when it stands in directory
    position, where the lookup fails as below something that is no
    directory; the parts [..] are not interpreted; a copied tree is read as
    it is when the copy starts; a symbolic link to a directory met inside a
    copied tree is reported as an error instead of being descended into.
    The statements about whole runs of [sync_static_path] are made for trees
    without symbolic links or for sources and destinations that are regular
    files and directories themselves. *)

Inductive Node : Type :=
| File (ino : nat)
| Dir (entries : list (string * Node))
| Symlink (target : list string).

(** A node without what lies below it. *)
Inductive NodeKind : Type :=
| KFile (ino : nat)
| KDir
| KSymlink (target : list string).

Global Instance NodeKind_eq_dec : EqDecision NodeKind.
Proof. solve_decision. Defined.

Definition kind_of (n : Node) : NodeKind :=
  match n with
  | File i => KFile i
  | Dir _ => KDir
  | Symlink t => KSymlink t
  end.

(** Content and metadata of an inode (what [copy2] transfers). *)
Record FileData : Type := mkData { data_bytes : string; data_stat : nat }.

Global Instance FileData_eq_dec : EqDecision FileData.
Proof. solve_decision. Defined.

(** Library calls that change the file system, and log records. *)
Inductive Op : Type :=
| OpLink (src dst : list string)                    (* os.link *)
| OpCopy2 (src dst : list string)                   (* shutil.copy2 *)
| OpCopytree (links : bool) (src dst : list string) (* shutil.copytree; [links]: copy_function=os.link *)
| OpRmtree (dst : list string)                      (* shutil.rmtree(ignore_errors=True) *)
| OpLogInfo (msg : string).

Global Instance Op_eq_dec : EqDecision Op.
Proof. solve_decision. Defined.

Record FileSystem : Type := mkFileSystem {
  fs_root : Node;
  fs_inodes : gmap nat FileData;
  fs_hardlinks : bool;   (* whether the OS lets [os.link] succeed between the two trees *)
  fs_ops : list Op       (* calls made so far, oldest first *)
}.

Module Tree.

Fixpoint assoc (k : string) (es : list (string * Node)) : option Node :=
  match es with
  | [] => None
  | (k', n) :: es' => if String.eqb k k' then Some n else assoc k es'
  end.

Fixpoint assoc_set (k : string) (n : Node) (es : list (string * Node)) : list (string * Node) :=
  match es with
  | [] => [(k, n)]
  | (k', n') :: es' =>
      if String.eqb k k' then (k, n) :: es' else (k', n') :: assoc_set k n es'
  end.

Fixpoint assoc_del (k : string) (es : list (string * Node)) : list (string * Node) :=
  match es with
  | [] => []
  | (k', n') :: es' =>
      if String.eqb k k' then assoc_del k es' else (k', n') :: assoc_del k es'
  end.

(** The node at a path, links not followed ([lstat]). *)
Fixpoint get (n : Node) (p : list string) : option Node :=
  match p with
  | [] => Some n
  | s :: p' =>
      match n with
      | Dir es =>
          match assoc s es with
          | Some c => get c p'
          | None => None
          end
      | _ => None
      end
  end.

(** Bind a path to a node; the parent must be a directory. *)
Fixpoint put (n : Node) (p : list string) (new : Node) : option Node :=
  match p with
  | [] => Some new
  | s :: p' =>
      match n with
      | Dir es =>
          match p', assoc s es with
          | [], _ => Some (Dir (assoc_set s new es))
          | _ :: _, Some c =>
              match put c p' new with
              | Some c' => Some (Dir (assoc_set s c' es))
              | None => None
              end
          | _ :: _, None => None
          end
      | _ => None
      end
  end.

(** Unbind a path and all below it. *)
Fixpoint del (n : Node) (p : list string) : Node :=
  match p with
  | [] => n
  | s :: p' =>
      match n with
      | Dir es =>
          match p', assoc s es with
          | [], _ => Dir (assoc_del s es)
          | _ :: _, Some c => Dir (assoc_set s (del c p') es)
          | _ :: _, None => n
          end
      | _ => n
      end
  end.

(** A chain of new, otherwise empty directories. *)
Fixpoint chain (p : list string) : Node :=
  match p with
  | [] => Dir []
  | s :: p' => Dir [(s, chain p')]
  end.

(** [os.makedirs(p, exist_ok=False)]: missing ancestors are created, the
    path itself must not exist. *)
Fixpoint makedirs (n : Node) (p : list string) : result Node :=
  match p with
  | [] => Raise FileExistsError
  | s :: p' =>
      match n with
      | Dir es =>
          match assoc s es with
          | Some c => c' ← makedirs c p'; Ok (Dir (assoc_set s c' es))
          | None => Ok (Dir (assoc_set s (chain p') es))
          end
      | _ => Raise NotADirectoryError
      end
  end.

(** Number of symbolic links the kernel follows before giving up (ELOOP). *)
Definition MAXSYMLINKS : nat := 40.

(** The first part of an absolute path. *)
Definition is_root_part (s : string) : bool := String.eqb s "/" || String.eqb s "//".

(** The path that the target [t] of the symbolic link at [link] names: an
    absolute target stands for itself, a relative one starts in the
    directory that holds the link. *)
Definition target_from (link t : list string) : list string :=
  match t with
  | s :: _ => if is_root_part s then t else removelast link ++ t
  | [] => removelast link
  end.

(** Where a path leads when its final links are followed; the end of the
    chain need not exist. *)
Fixpoint follow (fuel : nat) (rt : Node) (p : list string) : option (list string) :=
  match get rt p with
  | Some (Symlink t) =>
      match fuel with
      | O => None
      | S f => follow f rt (target_from p t)
      end
  | _ => Some p
  end.

(** The error of a lookup that fails: a component that is missing gives
    [FileNotFoundError], a component below something that is no directory
    gives [NotADirectoryError]. *)
Fixpoint lookup_error (n : Node) (p : list string) : exn :=
  match p with
  | [] => FileNotFoundError
  | s :: p' =>
      match n with
      | Dir es =>
          match assoc s es with
          | Some c => lookup_error c p'
          | None => FileNotFoundError
          end
      | _ => NotADirectoryError
      end
  end.

(** [os.stat]: the node a path leads to, with the path where it lives. *)
Definition stat (rt : Node) (p : list string) : option (list string * Node) :=
  match follow MAXSYMLINKS rt p with
  | Some q =>
      match get rt q with
      | Some n => Some (q, n)
      | None => None
      end
  | None => None
  end.

(** The error of [os.stat] on a path that leads nowhere: too many links
    ([ELOOP], an [OSError]), or the error of the lookup that fails. *)
Definition stat_error (rt : Node) (p : list string) : exn :=
  match follow MAXSYMLINKS rt p with
  | Some q => lookup_error rt q
  | None => OSError
  end.

Definition parent (p : list string) : list string := removelast p.

Definition is_dir (rt : Node) (p : list string) : bool :=
  match stat rt p with
  | Some (_, Dir _) => true
  | _ => false
  end.

(** The inode numbers that have a name somewhere below a node. *)
Fixpoint inodes_of (n : Node) : gset nat :=
  match n with
  | File i => {[i]}
  | Dir es => ⋃ (map (fun e => inodes_of e.2) es)
  | Symlink _ => ∅
  end.

(** An inode number for a new file: neither in the table nor in use by a
    name. *)
Definition fresh_inode (rt : Node) (inodes : gmap nat FileData) : nat :=
  fresh (dom inodes ∪ inodes_of rt).

(** A tree of regular files and directories only. *)
Fixpoint plain (n : Node) : bool :=
  match n with
  | File _ => true
  | Dir es => forallb (fun e => plain e.2) es
  | Symlink _ => false
  end.

(** Every file name below the node has its inode in the table. *)
Fixpoint all_live (inodes : gmap nat FileData) (n : Node) : bool :=
  match n with
  | File i => bool_decide (is_Some (inodes !! i))
  | Dir es => forallb (fun e => all_live inodes e.2) es
  | Symlink _ => true
  end.

End Tree.

(** *** Queries of [pathlib.Path] *)

Definition path_exists (fs : FileSystem) (p : Path) : bool :=
  match Tree.stat (fs_root fs) (P.parts p) with
  | Some _ => true
  | None => false
  end.

Definition path_is_file (fs : FileSystem) (p : Path) : bool :=
  match Tree.stat (fs_root fs) (P.parts p) with
  | Some (_, File _) => true
  | _ => false
  end.

Definition path_is_dir (fs : FileSystem) (p : Path) : bool :=
  Tree.is_dir (fs_root fs) (P.parts p).

Definition path_is_symlink (fs : FileSystem) (p : Path) : bool :=
  match Tree.get (fs_root fs) (P.parts p) with
  | Some (Symlink _) => true
  | _ => false
  end.

(** Identity of what two paths lead to ([os.path.samestat]). *)
Definition same_node (a b : list string * Node) : bool :=
  match a, b with
  | (_, File i), (_, File j) => Nat.eqb i j
  | (p, Dir _), (q, Dir _) => bool_decide (p = q)
  | _, _ => false
  end.

(** [a.samefile(b)] *)
Definition path_samefile (fs : FileSystem) (a b : Path) : result bool :=
  match Tree.stat (fs_root fs) (P.parts a), Tree.stat (fs_root fs) (P.parts b) with
  | Some x, Some y => Ok (same_node x y)
  | None, _ => Raise (Tree.stat_error (fs_root fs) (P.parts a))
  | Some _, None => Raise (Tree.stat_error (fs_root fs) (P.parts b))
  end.

(** *** Effects on the file system *)

(** A computation returns or raises, and leaves a file system either way. *)
Definition IO (A : Type) : Type := FileSystem -> result A * FileSystem.

Global Instance IO_ret : MRet IO := fun A a fs => (Ok a, fs).

Global Instance IO_bind : MBind IO := fun A B k m fs =>
  match m fs with
  | (Ok a, fs') => k a fs'
  | (Raise e, fs') => (Raise e, fs')
  end.

(** [try: body  except OSError: handler] *)
Definition try_except_OSError {A} (body handler : IO A) : IO A := fun fs =>
  match body fs with
  | (Raise e, fs') => if is_OSError e then handler fs' else (Raise e, fs')
  | r => r
  end.

Definition record (op : Op) : IO unit := fun fs =>
  (Ok tt, mkFileSystem (fs_root fs) (fs_inodes fs) (fs_hardlinks fs) (fs_ops fs ++ [op])).

Definition set_tree (rt : Node) (inodes : gmap nat FileData) (fs : FileSystem) : FileSystem :=
  mkFileSystem rt inodes (fs_hardlinks fs) (fs_ops fs).

(** [os.link(src, dst)]: a second name for the node at [src]; on Linux a
    symbolic link at [src] is linked itself, not followed. *)
Definition os_link_at (src dst : list string) : IO unit := fun fs =>
  let rt := fs_root fs in
  match Tree.get rt src with
  | None => (Raise (Tree.lookup_error rt src), fs)
  | Some (Dir _) => (Raise OSError, fs)
  | Some n =>
      let live := match n with
                  | File i => bool_decide (is_Some (fs_inodes fs !! i))
                  | _ => true
                  end in
      if negb live then (Raise FileNotFoundError, fs) else
      match Tree.get rt dst with
      | Some _ => (Raise FileExistsError, fs)
      | None =>
          if negb (Tree.is_dir rt (Tree.parent dst))
          then (Raise (Tree.lookup_error rt dst), fs)
          else if negb (fs_hardlinks fs) then (Raise OSError, fs)
          else match Tree.put rt dst n with
               | Some rt' => (Ok tt, set_tree rt' (fs_inodes fs) fs)
               | None => (Raise FileNotFoundError, fs)
               end
      end
  end.

Definition os_link (src dst : list string) : IO unit :=
  _ ← record (OpLink src dst); os_link_at src dst.

(** [shutil.copy2(src, dst)]: content and metadata of the file [src] leads
    to are written to the file [dst] leads to, which is created when
    missing; a directory [dst] stands for the entry of the same name in it. *)
Definition copy2_at (src dst : list string) : IO unit := fun fs =>
  let rt := fs_root fs in
  let dst := if Tree.is_dir rt dst then dst ++ [List.last src ""] else dst in
  match Tree.stat rt src with
  | None => (Raise (Tree.stat_error rt src), fs)
  | Some (_, Dir _) => (Raise OSError, fs)
  | Some (_, Symlink _) => (Raise OSError, fs)
  | Some (sp, File i) =>
      match fs_inodes fs !! i with
      | None => (Raise FileNotFoundError, fs)
      | Some d =>
          match Tree.follow Tree.MAXSYMLINKS rt dst with
          | None => (Raise OSError, fs)
          | Some q =>
              match Tree.get rt q with
              | Some (File j) =>
                  if Nat.eqb i j then (Raise OSError, fs)  (* SameFileError *)
                  else (Ok tt, set_tree rt (<[j := d]> (fs_inodes fs)) fs)
              | Some _ => (Raise OSError, fs)              (* IsADirectoryError *)
              | None =>
                  if negb (Tree.is_dir rt (Tree.parent q))
                  then (Raise (Tree.lookup_error rt q), fs)
                  else
                    let j := Tree.fresh_inode rt (fs_inodes fs) in
                    match Tree.put rt q (File j) with
                    | Some rt' => (Ok tt, set_tree rt' (<[j := d]> (fs_inodes fs)) fs)
                    | None => (Raise FileNotFoundError, fs)
                    end
              end
          end
      end
  end.

Definition copy2 (src dst : list string) : IO unit :=
  _ ← record (OpCopy2 src dst); copy2_at src dst.

(** [shutil.rmtree(dst, ignore_errors=True)]: a directory goes with all
    below it; anything else is an error, which is ignored. *)
Definition rmtree_at (dst : list string) : IO unit := fun fs =>
  match Tree.get (fs_root fs) dst with
  | Some (Dir _) => (Ok tt, set_tree (Tree.del (fs_root fs) dst) (fs_inodes fs) fs)
  | _ => (Ok tt, fs)
  end.

Definition rmtree (dst : list string) : IO unit :=
  _ ← record (OpRmtree dst); rmtree_at dst.

(** The copy of one tree entry: the new node when the entry could be
    copied, the inode table, and whether an error was recorded. *)
Definition CopyOut : Type := option Node * gmap nat FileData * bool.

Section CopyTree.

Variable rt : Node.      (* the file system when the copy starts *)
Variable links : bool.   (* copy_function=os.link *)
Variable hard : bool.    (* os.link can succeed *)

(** The copy function applied to a regular file with inode [i]. *)
Definition copy_file (i : nat) (keep : Node) (inodes : gmap nat FileData) : CopyOut :=
  match inodes !! i with
  | None => (None, inodes, true)
  | Some d =>
      if links then
        if hard then (Some keep, inodes, false) else (None, inodes, true)
      else
        let j := Tree.fresh_inode rt inodes in
        (Some (File j), <[j := d]> inodes, false)
  end.

(** The entries of a directory copied one after the other by [copy]; an
    entry that could not be copied is left out. *)
Definition copy_entries (copy : string -> Node -> gmap nat FileData -> CopyOut)
  : list (string * Node) -> gmap nat FileData ->
    list (string * Node) * gmap nat FileData * bool :=
  fix go es inodes :=
    match es with
    | [] => ([], inodes, false)
    | e :: es' =>
        let '(c', inodes1, err1) := copy e.1 e.2 inodes in
        let '(es'', inodes2, err2) := go es' inodes1 in
        (match c' with
         | Some c' => (e.1, c') :: es''
         | None => es''
         end, inodes2, err1 || err2)
    end.

(** The copy of the node [n] found at [here]; a symbolic link among the
    entries is followed from the directory that holds it. *)
Fixpoint copy_node (here : list string) (n : Node) (inodes : gmap nat FileData)
  {struct n} : CopyOut :=
  match n with
  | File i => copy_file i (File i) inodes
  | Dir es =>
      let '(es', inodes', err) :=
        copy_entries (fun k c => copy_node (here ++ [k]) c) es inodes in
      (Some (Dir es'), inodes', err)
  | Symlink t =>
      match Tree.stat rt (Tree.target_from here t) with
      | Some (_, File i) => copy_file i (Symlink t) inodes
      | Some _ => (None, inodes, true)
      | None =>
          if links && hard then (Some (Symlink t), inodes, false)
          else (None, inodes, true)
      end
  end.

End CopyTree.

(** [shutil.copytree(src, dst, copy_function=...)]: every entry is tried,
    the errors are raised together at the end. *)
Definition copytree_at (links : bool) (src dst : list string) : IO unit := fun fs =>
  let rt := fs_root fs in
  match Tree.stat rt src with
  | Some (q, Dir es) =>
      match Tree.makedirs rt dst with
      | Raise e => (Raise e, fs)
      | Ok rt1 =>
          match copy_node rt links (fs_hardlinks fs) q (Dir es) (fs_inodes fs) with
          | (Some d, inodes', err) =>
              match Tree.put rt1 dst d with
              | Some rt2 =>
                  (if err then Raise OSError else Ok tt, set_tree rt2 inodes' fs)
              | None => (Raise OSError, fs)
              end
          | (None, _, _) => (Raise OSError, fs)
          end
      end
  | Some _ => (Raise NotADirectoryError, fs)
  | None => (Raise (Tree.stat_error rt src), fs)
  end.

Definition copytree (links : bool) (src dst : list string) : IO unit :=
  _ ← record (OpCopytree links src dst); copytree_at links src dst.

Definition log_info (msg : string) : IO unit := record (OpLogInfo msg).

Definition is_file (p : Path) : IO bool := fun fs => (Ok (path_is_file fs p), fs).

Definition is_dir (p : Path) : IO bool := fun fs => (Ok (path_is_dir fs p), fs).

Definition exists_ (p : Path) : IO bool := fun fs => (Ok (path_exists fs p), fs).

Definition is_symlink (p : Path) : IO bool := fun fs => (Ok (path_is_symlink fs p), fs).

Definition lift_result {A} (r : result A) : IO A := fun fs => (r, fs).

Definition samefile (a b : Path) : IO bool := fun fs => (path_samefile fs a b, fs).

(** [sync_static_path] *)
Definition sync_static_path `{Config} (src : Path) : IO unit :=
  rel ← lift_result (P.relative_to src input_dir);
  let dst := P.join output_dir rel in
  let s := P.parts src in
  let d := P.parts dst in
  is_file src ≫= fun src_is_file : bool =>
  if src_is_file then
    exists_ dst ≫= fun dst_exists : bool =>
    if negb dst_exists then
      try_except_OSError
        (_ ← os_link s d;
         log_info (P.to_string src +:+ " => " +:+ P.to_string dst))
        (_ ← copy2 s d;
         log_info (P.to_string src +:+ " -> " +:+ P.to_string dst))
    else
      samefile dst src ≫= fun same : bool =>
      if same then mret tt
      else
        _ ← copy2 s d;
        log_info (P.to_string src +:+ " -> " +:+ P.to_string dst)
  else
    is_dir src ≫= fun src_is_dir : bool =>
    if src_is_dir then
      exists_ dst ≫= fun dst_exists : bool =>
      if negb dst_exists then
        try_except_OSError
          (_ ← copytree true s d;
           log_info (P.to_string src +:+ " => " +:+ P.to_string dst))
          (_ ← copytree false s d;
           log_info (P.to_string src +:+ " -> " +:+ P.to_string dst))
      else
        is_symlink dst ≫= fun dst_is_symlink : bool =>
        if dst_is_symlink then mret tt
        else
          _ ← rmtree d;
          _ ← copytree false s d;
          log_info (P.to_string src +:+ " -> " +:+ P.to_string dst)
    else mret tt.

(** What can be observed at a path: kind, and for a file its content and
    metadata. *)
Inductive View : Type :=
| VFile (d : option FileData)
| VDir
| VSymlink (target : list string).

Definition view (fs : FileSystem) (p : list string) : option View :=
  match Tree.get (fs_root fs) p with
  | Some (File i) => Some (VFile (fs_inodes fs !! i))
  | Some (Dir _) => Some VDir
  | Some (Symlink t) => Some (VSymlink t)
  | None => None
  end.



(** What can be observed at a path below a node. *)
Definition node_view (inodes : gmap nat FileData) (n : Node) (p : list string)
  : option View :=
  match Tree.get n p with
  | Some (File i) => Some (VFile (inodes !! i))
  | Some (Dir _) => Some VDir
  | Some (Symlink t) => Some (VSymlink t)
  | None => None
  end.

(** The target of the symbolic link at a path, if there is one. *)
Definition link_at (rt : Node) (p : list string) : option (list string) :=
  match Tree.get rt p with
  | Some (Symlink t) => Some t
  | _ => None
  end.

(** The same tree, inodes and permissions with another record of calls. *)
Definition with_ops (ops : list Op) (fs : FileSystem) : FileSystem :=
  mkFileSystem (fs_root fs) (fs_inodes fs) (fs_hardlinks fs) ops.


(** One step of the tree: nothing, or a node at a path that had none. *)
Definition grows (rt rt' : Node) : Prop :=
  rt' = rt \/ exists q n, Tree.put rt q n = Some rt' /\ Tree.get rt q = None.


(** A directory source and its destination in sync: the source is a
    directory with entries [es] whose files are all live, and the destination
    shows at every path below it what the source shows. *)
Definition dir_in_sync (s d : list string) (es : list (string * Node))
    (fs : FileSystem) : Prop :=
  Tree.get (fs_root fs) s = Some (Dir es) /\
  Tree.all_live (fs_inodes fs) (Dir es) = true /\
  exists dn, Tree.get (fs_root fs) d = Some dn /\
             forall p, node_view (fs_inodes fs) dn p
                       = node_view (fs_inodes fs) (Dir es) p.


(** [lstat]: the kind of the node at a path, links not followed. *)
Definition lstat (rt : Node) (p : list string) : option NodeKind :=
  kind_of <$> Tree.get rt p.

(** In the words of claim C9, for one path: when the source is neither a
    file nor a directory, the call returns and the file system is as it
    was, record of calls included. *)
Definition untouched_when_neither `{Config} (src : Path) (fs : FileSystem) : Prop :=
  path_is_file fs src = false -> path_is_dir fs src = false ->
  sync_static_path src fs = (Ok tt, fs).



(** ** Concrete environments for the examples *)

Definition site_config : Config :=
  {| output_dir := P.of_string "/out"; input_dir := P.of_string "/in" |}.

(** An input tree with a static directory and a file, and an empty output
    directory. *)
Definition site_root : Node :=
  Dir [("/", Dir [("in", Dir [("static", Dir [("a.css", File 0);
                                               ("img", Dir [("b.png", File 1)])]);
                              ("robots.txt", File 2)]);
                  ("out", Dir [])])].

Definition site_fs (hardlinks : bool) : FileSystem :=
  mkFileSystem site_root
    (list_to_map [(0, mkData "body{}" 1); (1, mkData "PNG" 2);
                  (2, mkData "User-agent: *" 3)])
    hardlinks [].


Definition identity_util : Util :=
  {| sluggify := fun s => s;
     get_slug_and_optional_date := fun s => (s, None);
     is_wide := fun _ => false |}.

(** A directory view with one listable directory. *)
Definition listing_view (dir : Path) (entries : list DirEntry) : DirView :=
  {| scandir := fun p => if decide (p = dir) then Ok entries else Raise FileNotFoundError |}.

Definition project_foo : Resource :=
  mkResource Project (P.of_string "projects/foo") "foo" DNone.

Definition permissive_netloc_checks : NetlocChecks :=
  {| bracketed_netloc_ok := fun _ => true; nfkc_netloc_ok := fun _ => true |}.

(** A parser for examples: a generated text becomes a document with that
    text as body and three URL references, which are also its declared
    dependencies; a file is read as an empty document. *)
Definition sample_document_lib : DocumentLib :=
  {| load_file := fun p => Ok (mkDoc (P.stem p) "" []);
     from_string := fun text title =>
       Ok (mkDoc title text ["a.png"; "/abs/v1.svg"; "missing.png"]);
     inner_html := doc_body;
     iter_dependencies := doc_urls |}.

Definition sample_templates : Templates :=
  {| render_resource_page := fun title content =>
       "<h1>" +:+ title +:+ "</h1>" +:+ content |}.

(** The directory [projects/foo] without a description file: an image and a
    subdirectory with a dotted name. *)
Definition foo_view : DirView :=
  listing_view (P.of_string "projects/foo")
    [mkEntry "a.png" RegularFile; mkEntry "v1.0" Directory; mkEntry "notes" RegularFile].

(** The directory [projects/foo] with three description candidates. *)
Definition foo_three_md_view : DirView :=
  listing_view (P.of_string "projects/foo")
    [mkEntry "other.md" RegularFile; mkEntry "foo.md" RegularFile;
     mkEntry "index.md" RegularFile].

(** ** Further parts of the two files *)

(** [url.split(c, 1)] guarded by [c in url], as [urlsplit] cuts off the
    fragment and then the query. *)
Definition cut (c : ascii) (url : string) : string * string :=
  if Str.contains c url then Str.split_once c url else (url, "").

(** The path that is left of a URL after the scheme and the network
    location, once fragment and query are cut off. *)
Definition path_of (url : string) : string := (cut "?" (cut "#" url).1).1.

(** What [urlsplit] does first: leading C0 controls and spaces go, then
    every tab, carriage return and line feed. *)
Definition clean_url (url : string) : string :=
  Str.remove is_unsafe_url_byte (Str.lstrip is_c0_control_or_space url).

(** A character of a host name that [urlsplit] takes as it stands: ASCII,
    not one of the delimiters that end the network location, not a bracket,
    and not removed as tab, carriage return or line feed. *)
Definition is_plain_host_char (a : ascii) : bool :=
  Str.isascii a && negb (is_netloc_delim a)
  && negb (Ascii.eqb a "[") && negb (Ascii.eqb a "]")
  && negb (is_unsafe_url_byte a).

(** [CONFIG.projects_dir] and [CONFIG.pieces_dir] *)
Class Collections := {
  projects_dir : Path;
  pieces_dir : Path
}.

(** [p.parents]: the logical ancestors, nearest first; the last one is the
    root of an absolute path and [.] for a relative one. *)
Definition parents (p : Path) : list Path :=
  map (fun k => mkPath (root p) (List.firstn k (segs p)))
      (rev (seq 0 (List.length (segs p)))).

(** [main], no targets given:
    [[cls.from_path(file) for file in cls_dir.iterdir()]]. *)
Definition discover `{Util} `{DirView} (k : Kind) (dir : Path) : result (list Resource) :=
  files ← iterdir dir; Ok (map (from_path k) files).

(** [main], targets given: the three comprehensions that sort the targets
    into projects, pieces and the rest. *)
Definition target_projects `{Util} `{Collections} (targets : list Path) : list Resource :=
  map (from_path Project)
      (List.filter (fun file => bool_decide (projects_dir ∈ parents file)) targets).

Definition target_pieces `{Util} `{Collections} (targets : list Path) : list Resource :=
  map (from_path Piece)
      (List.filter (fun file => bool_decide (pieces_dir ∈ parents file)) targets).

Definition target_other `{Collections} (targets : list Path) : list Path :=
  List.filter (fun file => negb (bool_decide (projects_dir ∈ parents file))
                           && negb (bool_decide (pieces_dir ∈ parents file))) targets.

(** The [link] entry of [gallery_item]:
    ['/' + '/'.join(resource.DIRECTORY.parts) + '/' + resource.slug + '/']. *)
Definition gallery_link (r : Resource) : string :=
  "/" +:+ Str.join "/" (P.parts (DIRECTORY (cls r))) +:+ "/" +:+ slug r +:+ "/".

(** [file] lies below [dir]: the same root, and the components of [dir]
    followed by at least one more. *)
Definition inside (dir file : Path) : Prop :=
  root dir = root file /\ exists l, l <> [] /\ segs file = segs dir ++ l.

(** What reading the file at a path gives, final links followed: content
    and metadata, or nothing when the path does not lead to a regular file. *)
Definition file_data (fs : FileSystem) (p : Path) : option FileData :=
  match Tree.stat (fs_root fs) (P.parts p) with
  | Some (_, File i) => fs_inodes fs !! i
  | _ => None
  end.

(** The calls of the file branch of [sync_static_path]. *)
Definition is_file_op (op : Op) : bool :=
  match op with
  | OpLink _ _ | OpCopy2 _ _ | OpLogInfo _ => true
  | OpCopytree _ _ _ | OpRmtree _ => false
  end.

(** From one file system to a later one, the file that [s] leads to is kept:
    the path still leads to the same inode, the inode holds what it held,
    and the calls made in between are calls of the file branch. *)
Definition keeps_source (s : list string) (fs fs' : FileSystem) : Prop :=
  (forall e i, Tree.stat (fs_root fs) s = Some (e, File i) ->
               Tree.stat (fs_root fs') s = Some (e, File i) /\
               fs_inodes fs' !! i = fs_inodes fs !! i) /\
  exists ops, fs_ops fs' = fs_ops fs ++ ops /\ forallb is_file_op ops = true.

(** A computation that keeps the source whatever the file system it starts
    from and however it ends. *)
Definition source_safe {A} (s : list string) (m : IO A) : Prop :=
  forall fs r fs', m fs = (r, fs') -> keeps_source s fs fs'.

(** *** Further examples *)

(** The site of [site_root] after an earlier build left regular files in
    the output: an outdated [robots.txt], and a file named [static] where
    the static directory should go. *)
Definition occupied_root : Node :=
  Dir [("/", Dir [("in", Dir [("static", Dir [("a.css", File 0);
                                               ("img", Dir [("b.png", File 1)])]);
                              ("robots.txt", File 2)]);
                  ("out", Dir [("robots.txt", File 3); ("static", File 3)])])].

Definition occupied_fs : FileSystem :=
  mkFileSystem occupied_root
    (list_to_map [(0, mkData "body{}" 1); (1, mkData "PNG" 2);
                  (2, mkData "User-agent: *" 3); (3, mkData "old" 0)])
    true [].

(** The directory [projects/foo] with two images, the second one named
    after the slug. *)
Definition foo_headline_view : DirView :=
  listing_view (P.of_string "projects/foo")
    [mkEntry "a.png" RegularFile; mkEntry "foo.jpg" RegularFile;
     mkEntry "notes.md.bak" RegularFile].

(** A view in which [projects/foo] cannot be listed. *)
Definition elsewhere_view : DirView :=
  listing_view (P.of_string "elsewhere") [].

(** The collection directory [projects] with a work directory and a stray
    document. *)
Definition projects_view : DirView :=
  listing_view (P.of_string "projects")
    [mkEntry "foo" Directory; mkEntry "readme.md" RegularFile].

Definition site_collections : Collections :=
  {| projects_dir := P.of_string "projects"; pieces_dir := P.of_string "pieces" |}.

(** * Properties *)

Example of_string_ex1 : P.of_string "a//b/./c.tar.gz" = mkPath NoRoot ["a"; "b"; "c.tar.gz"].
Proof. reflexivity. Qed.
Example of_string_ex2 : P.of_string "//x" = mkPath Slash2 ["x"].
Proof. reflexivity. Qed.
Example of_string_ex3 : P.of_string "///x/" = mkPath Slash ["x"].
Proof. reflexivity. Qed.
Example stem_ex1 : P.stem (P.of_string "d/c.tar.gz") = "c.tar".
Proof. reflexivity. Qed.
Example suffix_ex1 : P.suffix (P.of_string "d/.hidden") = "".
Proof. reflexivity. Qed.
Example suffix_ex2 : P.suffix (P.of_string "d/trailing.") = "".
Proof. reflexivity. Qed.
Example suffix_ex3 : P.suffix (P.of_string "d/v1.0") = ".0".
Proof. reflexivity. Qed.
Example relative_to_ex1 :
  P.relative_to (P.of_string "/in/static/a.css") (P.of_string "/in")
  = Ok (mkPath NoRoot ["static"; "a.css"]).
Proof. reflexivity. Qed.
Example relative_to_ex2 :
  P.relative_to (P.of_string "/elsewhere/a.css") (P.of_string "/in") = Raise ValueError.
Proof. reflexivity. Qed.


(** ** Paths *)

Lemma name_child (dir : Path) (n : string) : P.name (P.child dir n) = n.
Proof. unfold P.name, P.child; simpl. apply last_last. Qed.

Lemma parent_child (dir : Path) (n : string) : P.parent (P.child dir n) = dir.
Proof.
  unfold P.parent, P.child; simpl. rewrite removelast_last. by destruct dir.
Qed.

Lemma suffix_child (dir : Path) (n : string) :
  P.suffix (P.child dir n) = P.suffix (mkPath NoRoot [n]).
Proof. unfold P.suffix. by rewrite name_child. Qed.

Lemma stem_child (dir : Path) (n : string) :
  P.stem (P.child dir n) = P.stem (mkPath NoRoot [n]).
Proof. unfold P.stem. by rewrite name_child. Qed.

(** ** The slug of a resource *)

Section SlugFacts.

Context `{Util}.

(** What [__post_init__] computes when no slug is passed. *)
Lemma slug_new (k : Kind) (dir : Path) : slug (new k dir) = sluggify (P.stem dir).
Proof. reflexivity. Qed.

Lemma slug_new_with_description (k : Kind) (dir p : Path) :
  slug (new_with_description k dir p) = sluggify (P.stem dir).
Proof. reflexivity. Qed.

(** C7, evaluated on the directory [pieces/v1.0]: the final path segment is
    [v1.0], but the slug is [sluggify] of the stem [v1], the segment cut at
    its last dot, and not of the whole segment as the claim and the field's
    docstring ("defaults to directory name") have it. *)
Theorem slug_of_dotted_directory_uses_stem (k : Kind) :
  let dir := P.of_string "pieces/v1.0" in
  P.name dir = "v1.0" /\
  slug (new k dir) = sluggify "v1" /\
  slug (from_path k (P.of_string "pieces/v1.0/index.md")) = sluggify "v1".
Proof. repeat split. Qed.

End SlugFacts.

(** ** Asset enumeration *)

Section AssetFacts.

Context `{DirView}.

Lemma elem_of_filter_bool {A} (f : A -> bool) (l : list A) (x : A) :
  x ∈ List.filter f l <-> x ∈ l /\ f x = true.
Proof. rewrite !list_elem_of_In. apply filter_In. Qed.


Lemma asset_index_app (l1 l2 : list Path) (m : gmap string Asset) :
  fold_left (fun m p => <[P.stem p := mkAsset p]> m) (l1 ++ l2) m
  = fold_left (fun m p => <[P.stem p := mkAsset p]> m) l2
      (fold_left (fun m p => <[P.stem p := mkAsset p]> m) l1 m).
Proof. apply fold_left_app. Qed.


(** The values of the index are assets made from listed paths with that
    stem. *)
Lemma asset_index_value (paths : list Path) (s : string) (a : Asset) :
  asset_index paths !! s = Some a ->
  asset_source a ∈ paths /\ P.stem (asset_source a) = s.
Proof.
  unfold asset_index.
  assert (Hm : forall (m : gmap string Asset),
    (forall a, m !! s = Some a -> asset_source a ∈ paths /\ P.stem (asset_source a) = s) ->
    forall l, (forall x, x ∈ l -> x ∈ paths) ->
    fold_left (fun m p => <[P.stem p := mkAsset p]> m) l m !! s = Some a ->
    asset_source a ∈ paths /\ P.stem (asset_source a) = s).
  { intros m Hm l. revert m Hm.
    induction l as [|q l IH]; intros m Hm Hl; simpl; [by auto|].
    apply IH; [|intros x Hx; apply Hl; by right].
    intros a'. destruct (decide (P.stem q = s)) as [<-|Hne].
    - rewrite lookup_insert_eq. intros [= <-]. split; [apply Hl; by left|done].
    - rewrite lookup_insert_ne by done. apply Hm. }
  apply (Hm ∅); [intros a'; by rewrite lookup_empty|done].
Qed.



End AssetFacts.

(** ** The order on paths *)

Lemma string_ltb_lt (a b : string) : String.ltb a b = true <-> String_as_OT.lt a b.
Proof.
  unfold String.ltb. rewrite <- String_as_OT.cmp_lt. unfold String_as_OT.cmp.
  destruct (String.compare a b); split; congruence.
Qed.

Lemma string_ltb_irrefl (a : string) : String.ltb a a = false.
Proof.
  destruct (String.ltb a a) eqn:E; [|done].
  apply string_ltb_lt in E. by apply String_as_OT.lt_not_eq in E.
Qed.

Lemma string_ltb_trans (a b c : string) :
  String.ltb a b = true -> String.ltb b c = true -> String.ltb a c = true.
Proof.
  rewrite !string_ltb_lt. apply String_as_OT.lt_trans.
Qed.

Lemma parts_ltb_irrefl (a : list string) : P.parts_ltb a a = false.
Proof.
  induction a as [|x a IH]; simpl; [done|]. by rewrite String.eqb_refl.
Qed.

Lemma parts_ltb_trans (a b c : list string) :
  P.parts_ltb a b = true -> P.parts_ltb b c = true -> P.parts_ltb a c = true.
Proof.
  revert b c. induction a as [|x a IH]; intros [|y b] [|z c]; simpl; try done.
  destruct (String.eqb_spec x y) as [->|Hxy].
  - destruct (String.eqb_spec y z) as [->|Hyz]; [apply IH|done].
  - destruct (String.eqb_spec y z) as [->|Hyz].
    + destruct (String.eqb_spec x z); [done|]. done.
    + intros Hlt1 Hlt2. pose proof (string_ltb_trans _ _ _ Hlt1 Hlt2) as Hxz.
      destruct (String.eqb_spec x z) as [->|]; [|done].
      by rewrite string_ltb_irrefl in Hxz.
Qed.

Lemma path_ltb_irrefl (p : Path) : P.ltb p p = false.
Proof. apply parts_ltb_irrefl. Qed.

Lemma path_ltb_trans (p q r : Path) :
  P.ltb p q = true -> P.ltb q r = true -> P.ltb p r = true.
Proof. apply parts_ltb_trans. Qed.

(** ** [min] *)

Section MinLoop.

Context {A : Type} (lt : A -> A -> bool).
Hypothesis lt_irrefl : forall a, lt a a = false.
Hypothesis lt_trans : forall a b c, lt a b = true -> lt b c = true -> lt a c = true.

Lemma min_loop_in (l : list A) (x : A) : min_loop lt l x ∈ x :: l.
Proof.
  revert x. induction l as [|y l IH]; intros x; simpl; [by left|].
  destruct (lt y x).
  - specialize (IH y). apply elem_of_cons in IH as [->|IH]; [right; by left|by do 2 right].
  - specialize (IH x). apply elem_of_cons in IH as [->|IH]; [by left|by do 2 right].
Qed.

Lemma min_loop_le_start (l : list A) (x : A) :
  min_loop lt l x = x \/ lt (min_loop lt l x) x = true.
Proof.
  revert x. induction l as [|y l IH]; intros x; simpl; [by left|].
  destruct (lt y x) eqn:E.
  - right. destruct (IH y) as [->|Hlt]; [done|]. by eapply lt_trans.
  - apply IH.
Qed.

Lemma min_loop_minimal (l : list A) (x q : A) :
  q ∈ x :: l -> lt q (min_loop lt l x) = false.
Proof.
  revert x. induction l as [|y l IH]; intros x Hq; simpl.
  - apply elem_of_cons in Hq as [->|Hq]; [apply lt_irrefl|by apply elem_of_nil in Hq].
  - destruct (lt y x) eqn:E.
    + apply elem_of_cons in Hq as [->|Hq]; [|by apply IH].
      destruct (lt x (min_loop lt l y)) eqn:E2; [|done].
      assert (Hxy : lt x y = true).
      { destruct (min_loop_le_start l y) as [Heq|Hlt]; [by rewrite Heq in E2|].
        by eapply lt_trans. }
      pose proof (lt_trans _ _ _ Hxy E) as Hxx. by rewrite lt_irrefl in Hxx.
    + apply elem_of_cons in Hq as [->|Hq]; [apply IH; by left|].
      apply elem_of_cons in Hq as [->|Hq]; [|apply IH; by right].
      destruct (lt y (min_loop lt l x)) eqn:E2; [|done].
      assert (Hyx : lt y x = true).
      { destruct (min_loop_le_start l x) as [Heq|Hlt]; [by rewrite Heq in E2|].
        by eapply lt_trans. }
      congruence.
Qed.

End MinLoop.

Lemma min_loop_some (l : list Path) (x : Path) :
  min_loop option_ltb (map Some l) (Some x) = Some (min_loop P.ltb l x).
Proof.
  revert x. induction l as [|y l IH]; intros x; simpl; [done|].
  destruct (P.ltb y x); apply IH.
Qed.

(** ** The description resolver *)

Lemma set_iter_nil `{SetOrder} : set_iter [] = [].
Proof. apply Permutation_nil_r. apply (set_iter_perm []). Qed.

Lemma set_iter_NoDup `{SetOrder} (l : list Path) : NoDup (set_iter l).
Proof. rewrite set_iter_perm. apply NoDup_remove_dups. Qed.

Lemma elem_of_set_iter `{SetOrder} (l : list Path) (p : Path) : p ∈ set_iter l <-> p ∈ l.
Proof. rewrite set_iter_perm. apply elem_of_remove_dups. Qed.

Lemma py_next_default_head {A} (l : list A) :
  py_next (map Some l) (Some None) = Ok (head l).
Proof. by destruct l. Qed.

Lemma head_filter_find {A} (f : A -> bool) (l : list A) :
  head (List.filter f l) = List.find f l.
Proof. induction l as [|x l IH]; simpl; [done|]. by destruct (f x). Qed.

Lemma NoDup_two_length {A} (l : list A) (x y : A) :
  NoDup l -> x ∈ l -> y ∈ l -> x <> y -> 1 < length l.
Proof.
  intros Hnd Hx Hy Hne. destruct l as [|a [|b l]]; simpl; [| |lia].
  - by apply elem_of_nil in Hx.
  - apply list_elem_of_singleton in Hx, Hy. congruence.
Qed.

Section Resolver.

Context `{Util} `{DirView} `{SetOrder}.

Lemma mem_true (p : Path) (l : list Path) : mem p l = true <-> p ∈ l.
Proof. unfold mem. apply bool_decide_eq_true. Qed.

Lemma mem_false (p : Path) (l : list Path) : mem p l = false <-> p ∉ l.
Proof. unfold mem. apply bool_decide_eq_false. Qed.

Lemma description_path_few (r : Resource) :
  length (candidates r) <= 1 -> description_path r = Ok (head (candidates r)).
Proof.
  intros Hlen. unfold description_path.
  destruct (Nat.leb_spec (length (candidates r)) 1) as [_|Hgt]; [|lia].
  apply py_next_default_head.
Qed.

Lemma description_path_index (r : Resource) :
  1 < length (candidates r) ->
  P.joins (path r) "index.md" ∈ candidates r ->
  description_path r = Ok (Some (P.joins (path r) "index.md")).
Proof.
  intros Hlen Hin. unfold description_path.
  destruct (Nat.leb_spec (length (candidates r)) 1) as [Hle|_]; [lia|].
  apply mem_true in Hin. by rewrite Hin.
Qed.

Lemma description_path_named (r : Resource) :
  1 < length (candidates r) ->
  P.joins (path r) "index.md" ∉ candidates r ->
  P.joins (path r) (slug r +:+ ".md") ∈ candidates r ->
  description_path r = Ok (Some (P.joins (path r) (slug r +:+ ".md"))).
Proof.
  intros Hlen Hnot Hin. unfold description_path.
  destruct (Nat.leb_spec (length (candidates r)) 1) as [Hle|_]; [lia|].
  apply mem_false in Hnot. apply mem_true in Hin. by rewrite Hnot, Hin.
Qed.

Lemma description_path_search (r : Resource) :
  1 < length (candidates r) ->
  P.joins (path r) "index.md" ∉ candidates r ->
  P.joins (path r) (slug r +:+ ".md") ∉ candidates r ->
  description_path r =
    match List.find (matches_slug r) (candidates r) with
    | Some p => Ok (Some p)
    | None => py_min option_ltb (map Some (candidates r)) (Some None)
    end.
Proof.
  intros Hlen Hnot1 Hnot2. unfold description_path.
  destruct (Nat.leb_spec (length (candidates r)) 1) as [Hle|_]; [lia|].
  apply mem_false in Hnot1, Hnot2. rewrite Hnot1, Hnot2.
  rewrite py_next_default_head, head_filter_find. reflexivity.
Qed.

Lemma py_min_candidates (l : list Path) :
  1 < length l ->
  exists m, py_min option_ltb (map Some l) (Some None) = Ok (Some m) /\
            m ∈ l /\ forall q, q ∈ l -> P.ltb q m = false.
Proof.
  destruct l as [|x l]; simpl; [lia|]. intros _.
  exists (min_loop P.ltb l x). rewrite min_loop_some. split; [done|]. split.
  - apply min_loop_in.
  - intros q Hq.
    by apply (min_loop_minimal P.ltb path_ltb_irrefl path_ltb_trans).
Qed.

(** C2: the description resolver.  With the candidates being the [*.md]
    entries of the directory, each once: for zero or one candidate the
    result is that candidate or nothing; otherwise [index.md] if it is a
    candidate, else [{slug}.md] if it is one, else the first candidate whose
    date-stripped, re-sluggified stem equals the slug, else a minimum
    candidate; with the candidates [index.md], [{slug}.md] and [other.md] the
    result is [index.md]; and no case raises. *)
Theorem description_path_resolution (r : Resource) :
  let c := candidates r in
  let index := P.joins (path r) "index.md" in
  let named := P.joins (path r) (slug r +:+ ".md") in
  (exists res, description_path r = Ok res) /\
  c ≡ₚ remove_dups (glob_md (path r)) /\
  (length c <= 1 -> description_path r = Ok (head c)) /\
  (1 < length c -> index ∈ c -> description_path r = Ok (Some index)) /\
  (1 < length c -> index ∉ c -> named ∈ c -> description_path r = Ok (Some named)) /\
  (1 < length c -> index ∉ c -> named ∉ c ->
     forall p, List.find (matches_slug r) c = Some p ->
               description_path r = Ok (Some p)) /\
  (1 < length c -> index ∉ c -> named ∉ c -> List.find (matches_slug r) c = None ->
     exists m, description_path r = Ok (Some m) /\ m ∈ c /\
               forall q, q ∈ c -> P.ltb q m = false) /\
  ((forall p, p ∈ c <-> p ∈ [index; named; P.joins (path r) "other.md"]) ->
     description_path r = Ok (Some index)).
Proof.
  intros c index named.
  assert (Hmin : 1 < length c -> index ∉ c -> named ∉ c ->
                 List.find (matches_slug r) c = None ->
                 exists m, description_path r = Ok (Some m) /\ m ∈ c /\
                           forall q, q ∈ c -> P.ltb q m = false).
  { intros Hlen Hn1 Hn2 Hfind. rewrite description_path_search by done.
    fold c. rewrite Hfind. by apply py_min_candidates. }
  repeat split.
  - destruct (Nat.le_gt_cases (length c) 1) as [Hle|Hgt].
    { eexists. by apply description_path_few. }
    destruct (decide (index ∈ c)) as [Hi|Hi].
    { eexists. by apply description_path_index. }
    destruct (decide (named ∈ c)) as [Hn|Hn].
    { eexists. by apply description_path_named. }
    destruct (List.find (matches_slug r) c) as [p|] eqn:Hfind.
    { eexists. rewrite description_path_search by done. fold c. by rewrite Hfind. }
    destruct (Hmin Hgt Hi Hn eq_refl) as (m & -> & _). by eexists.
  - apply set_iter_perm.
  - apply description_path_few.
  - apply description_path_index.
  - apply description_path_named.
  - intros Hlen Hn1 Hn2 p Hfind. rewrite description_path_search by done.
    fold c. by rewrite Hfind.
  - done.
  - intros Hc. apply description_path_index; [|apply Hc; by left].
    apply (NoDup_two_length _ index (P.joins (path r) "other.md")).
    + apply set_iter_NoDup.
    + apply Hc. by left.
    + apply Hc. by do 2 right; left.
    + unfold index, P.joins, P.join; simpl. intros [= Heq].
      apply app_inv_head in Heq. discriminate.
Qed.

End Resolver.

(** ** A resource made from a document file *)

Section ExplicitDescription.

Context `{Util} `{SetOrder}.

(** [from_path] on a document file stores the file in [_description_path]. *)
Lemma from_path_document (k : Kind) (p : Path) :
  is_document_suffix (P.suffix p) = true ->
  from_path k p = new_with_description k (P.parent p) p /\
  _description_path (from_path k p) = DPath p.
Proof. intros E. unfold from_path. by rewrite E. Qed.

(** The stored path is never read: the description of a resource made from
    a document file is that of the resource made from the directory. *)
Lemma description_source_ignores_explicit_path `{DirView} (k : Kind) (dir p : Path) :
  description_source (new_with_description k dir p) = description_source (new k dir).
Proof. reflexivity. Qed.

(** C1, evaluated on two resources made from an explicit document file.
    In a directory that holds only [page.html], the resource made from
    [page.html] keeps that path in [_description_path], yet its description
    is the generated default, not the file.  In a directory that holds
    [index.md] and [notes.md], the resource made from [notes.md] gets
    [index.md], found by the scan of the directory. *)
Theorem explicit_document_path_is_not_loaded :
  let dir := P.of_string "pieces/foo" in
  let page := P.of_string "pieces/foo/page.html" in
  let notes := P.of_string "pieces/foo/notes.md" in
  let html_only := listing_view dir [mkEntry "page.html" RegularFile] in
  let two_md := listing_view dir [mkEntry "index.md" RegularFile;
                                  mkEntry "notes.md" RegularFile] in
  _description_path (from_path Piece page) = DPath page /\
  @description_source _ html_only _ (from_path Piece page)
    = Ok (FromString (newline +:+ "# " +:+ sluggify "foo") (sluggify "foo")) /\
  _description_path (from_path Piece notes) = DPath notes /\
  @description_source _ two_md _ (from_path Piece notes)
    = Ok (LoadFile (P.of_string "pieces/foo/index.md")).
Proof.
  intros dir page notes html_only two_md. repeat split.
  - unfold description_source, description_path, candidates.
    change (@glob_md html_only (path (from_path Piece page))) with (@nil Path).
    rewrite set_iter_nil. reflexivity.
  - unfold description_source.
    rewrite (@description_path_index _ two_md _ (from_path Piece notes)).
    + reflexivity.
    + apply (NoDup_two_length _ (P.of_string "pieces/foo/index.md") notes).
      * apply set_iter_NoDup.
      * apply elem_of_set_iter. by left.
      * apply elem_of_set_iter. by right; left.
      * discriminate.
    + apply elem_of_set_iter. by left.
Qed.

End ExplicitDescription.

(** ** The URL absolutizer *)

Lemma string_length_app (a b : string) :
  String.length (a +:+ b) = String.length a + String.length b.
Proof. induction a as [|c a IH]; simpl; [done|]. by rewrite IH. Qed.

(** The absolute form is never the URL itself: it is strictly longer. *)
Lemma absolute_form_longer (r : Resource) (url : string) :
  String.length url < String.length (absolute_form r url).
Proof.
  unfold absolute_form. rewrite !string_length_app. simpl. lia.
Qed.

Lemma absolute_form_neq (r : Resource) (url : string) : absolute_form r url <> url.
Proof.
  intros E. pose proof (absolute_form_longer r url) as Hlt. rewrite E in Hlt. lia.
Qed.

Section Absolutizer.

Context `{NetlocChecks}.

Lemma join_absolute_form (r : Resource) (url : string) :
  Str.join "/" ("" :: P.parts (DIRECTORY (cls r)) ++ [slug r; url]) = absolute_form r url.
Proof. unfold absolute_form. by destruct (cls r). Qed.

Lemma absolutize_url_relative (r : Resource) (url : string) :
  is_relative_url url = Ok true -> absolutize_url r url = Ok (absolute_form r url).
Proof.
  intros E. unfold absolutize_url. rewrite E, <- join_absolute_form. reflexivity.
Qed.

Lemma absolutize_url_not_relative (r : Resource) (url : string) :
  is_relative_url url = Ok false -> absolutize_url r url = Ok url.
Proof. intros E. unfold absolutize_url. by rewrite E. Qed.

(** A URL the parser rejects makes the absolutizer raise. *)
Lemma absolutize_url_rejected (r : Resource) (url : string) (e : exn) :
  urlsplit url "file" = Raise e -> absolutize_url r url = Raise e.
Proof. intros E. unfold absolutize_url, is_relative_url. by rewrite E. Qed.

(** C3, amended: for every URL that [urlsplit] accepts, the absolutizer
    yields [/{collectionKind}/{slug}/{url}] if and only if the URL is
    relative (the parse with default scheme [file] has scheme [file] and a
    path that does not start with [/]) and yields the URL unchanged
    otherwise; for the project with slug [foo], [img.png] becomes
    [/projects/foo/img.png] while [/other/page] and [http://example.com]
    stay as they are. *)
Theorem absolutize_url_accepted (r : Resource) (url : string) (u : SplitResult) :
  urlsplit url "file" = Ok u ->
  let relative :=
    String.eqb (url_scheme u) "file" && negb (Str.startswith (url_path u) "/") in
  is_relative_url url = Ok relative /\
  (relative = true -> absolutize_url r url = Ok (absolute_form r url)) /\
  (relative = false -> absolutize_url r url = Ok url) /\
  (absolutize_url r url = Ok (absolute_form r url) <-> relative = true) /\
  absolutize_url project_foo "img.png" = Ok "/projects/foo/img.png" /\
  absolutize_url project_foo "/other/page" = Ok "/other/page" /\
  absolutize_url project_foo "http://example.com" = Ok "http://example.com".
Proof.
  intros E relative.
  assert (Hrel : is_relative_url url = Ok relative).
  { unfold is_relative_url. by rewrite E. }
  repeat split; try reflexivity.
  - done.
  - intros Ht. apply absolutize_url_relative. by rewrite Hrel, Ht.
  - intros Hf. apply absolutize_url_not_relative. by rewrite Hrel, Hf.
  - intros Habs. destruct relative eqn:Er; [done|].
    rewrite absolutize_url_not_relative in Habs by (by rewrite Hrel).
    injection Habs as Habs. symmetry in Habs. by apply absolute_form_neq in Habs.
  - intros Ht. apply absolutize_url_relative. by rewrite Hrel, Ht.
Qed.

End Absolutizer.

(** C3 as stated fails on a URL with a malformed bracketed host: on [//[]
    the parser raises [ValueError], so the absolutizer neither rewrites the
    URL nor passes it through. *)
Lemma absolutize_url_malformed_host :
  absolutize_url (H:=permissive_netloc_checks) project_foo "//[" = Raise ValueError /\
  ~ rewritten_or_unchanged (H:=permissive_netloc_checks) project_foo "//[".
Proof.
  split; [reflexivity|]. intros (out & E & _). discriminate E.
Qed.

(** The amended C3 at [img.png], which the parser accepts as relative. *)
Lemma absolutize_url_accepted_witness :
  urlsplit (H:=permissive_netloc_checks) "img.png" "file"
    = Ok (mkSplit "file" "" "img.png" "" "") /\
  absolutize_url (H:=permissive_netloc_checks) project_foo "img.png"
    = Ok (absolute_form project_foo "img.png").
Proof.
  split; [reflexivity|].
  exact (proj1 (proj2 (absolutize_url_accepted (H:=permissive_netloc_checks)
                        project_foo "img.png" (mkSplit "file" "" "img.png" "" "") eq_refl))
           eq_refl).
Defined.

(** ** Running effectful code *)

Lemma bind_ok {A B} (m : M A) (k : A -> M B) (st st' : State) (a : A) :
  m st = Ok (a, st') -> (m ≫= k) st = k a st'.
Proof. intros E. unfold mbind, M_bind. by rewrite E. Qed.

Lemma bind_raise {A B} (m : M A) (k : A -> M B) (st : State) (e : exn) :
  m st = Raise e -> (m ≫= k) st = Raise e.
Proof. intros E. unfold mbind, M_bind. by rewrite E. Qed.

Lemma bind_inv {A B} (m : M A) (k : A -> M B) (st st2 : State) (b : B) :
  (m ≫= k) st = Ok (b, st2) ->
  exists a st1, m st = Ok (a, st1) /\ k a st1 = Ok (b, st2).
Proof.
  unfold mbind, M_bind. destruct (m st) as [[a st1]|e]; [|done]. eauto.
Qed.

Lemma lift_ok {A} (r : result A) (a : A) (st : State) :
  r = Ok a -> lift r st = Ok (a, st).
Proof. by intros ->. Qed.

Lemma lift_inv {A} (r : result A) (a : A) (st st' : State) :
  lift r st = Ok (a, st') -> r = Ok a /\ st' = st.
Proof. unfold lift. destruct r; intros [=]; by subst. Qed.

Lemma add_events_nil (st : State) : add_events [] st = st.
Proof. unfold add_events. rewrite app_nil_r. by destruct st. Qed.

Lemma add_events_app (e1 e2 : list Event) (st : State) :
  add_events e2 (add_events e1 st) = add_events (e1 ++ e2) st.
Proof. unfold add_events; simpl. by rewrite app_assoc. Qed.

Lemma emit_add (ev : Event) (st : State) : emit ev st = Ok (tt, add_events [ev] st).
Proof. reflexivity. Qed.


(** ** Objects *)

Lemma fresh_lookup (h : gmap loc obj) : h !! fresh (dom h) = None.
Proof. apply not_elem_of_dom, is_fresh. Qed.

Lemma alloc_spec (o : obj) (st : State) :
  alloc o st = Ok (fresh (dom (heap st)), set_heap (<[fresh (dom (heap st)) := o]> (heap st)) st).
Proof. reflexivity. Qed.

Lemma lookup_ne_of_fresh (h : gmap loc obj) (l l' : loc) (o : obj) :
  h !! l = Some o -> h !! l' = None -> l <> l'.
Proof. congruence. Qed.

Lemma read_ok (l : loc) (o : obj) (st : State) :
  heap st !! l = Some o -> read l st = Ok (o, st).
Proof. intros E. unfold read. by rewrite E. Qed.

Lemma get_document_holds (d t : loc) (c : DocContent) (st : State) :
  holds_document (heap st) d t c -> get_document d st = Ok (c, st).
Proof.
  intros [Hd Ht]. unfold get_document.
  erewrite bind_ok by (by apply read_ok). simpl.
  erewrite bind_ok by (by apply read_ok). by destruct c.
Qed.

Lemma holds_document_insert (h : gmap loc obj) (d t l : loc) (c : DocContent) (o : obj) :
  holds_document h d t c -> l <> d -> l <> t -> holds_document (<[l := o]> h) d t c.
Proof.
  intros [Hd Ht] Hne1 Hne2. split; by rewrite lookup_insert_ne.
Qed.

Lemma holds_document_fresh (h : gmap loc obj) (d t : loc) (c : DocContent) (o : obj) :
  holds_document h d t c -> holds_document (<[fresh (dom h) := o]> h) d t c.
Proof.
  intros Hdoc. pose proof Hdoc as [Hd Ht].
  apply holds_document_insert; [done| |];
    apply not_eq_sym; eapply lookup_ne_of_fresh; eauto using fresh_lookup.
Qed.

(** A new document: two objects at unused locations. *)
Lemma new_document_spec (c : DocContent) (st : State) :
  exists t d,
    new_document c st
      = Ok (d, set_heap (<[d := ODocument (doc_title c) t]>
                           (<[t := OTree (doc_body c) (doc_urls c)]> (heap st))) st) /\
    heap st !! t = None /\ heap st !! d = None /\ t <> d.
Proof.
  set (t := fresh (dom (heap st))).
  set (h1 := <[t := OTree (doc_body c) (doc_urls c)]> (heap st)).
  set (d := fresh (dom h1)).
  assert (Hd1 : h1 !! d = None) by apply fresh_lookup.
  assert (Htd : t <> d).
  { eapply lookup_ne_of_fresh; [|exact Hd1]. unfold h1. apply lookup_insert_eq. }
  exists t, d. split; [reflexivity|]. split; [apply fresh_lookup|]. split; [|done].
  unfold h1 in Hd1. by rewrite lookup_insert_ne in Hd1.
Qed.

Lemma holds_document_new (h : gmap loc obj) (d t : loc) (c : DocContent) :
  t <> d ->
  holds_document (<[d := ODocument (doc_title c) t]>
                    (<[t := OTree (doc_body c) (doc_urls c)]> h)) d t c.
Proof.
  intros Hne. split; [apply lookup_insert_eq|].
  rewrite lookup_insert_ne by done. apply lookup_insert_eq.
Qed.

(** A deep copy: two new objects with the content of the old ones. *)
Lemma deepcopy_spec (d t : loc) (c : DocContent) (st : State) :
  holds_document (heap st) d t c ->
  exists ta a,
    deepcopy d st
      = Ok (a, set_heap (<[a := ODocument (doc_title c) ta]>
                           (<[ta := OTree (doc_body c) (doc_urls c)]> (heap st))) st) /\
    heap st !! ta = None /\ heap st !! a = None /\ ta <> a.
Proof.
  intros [Hd Ht].
  destruct (new_document_spec c st) as (ta & a & E & Hta & Ha & Hne).
  exists ta, a. split; [|done].
  unfold deepcopy. erewrite bind_ok by (by apply read_ok). simpl.
  erewrite bind_ok by (by apply read_ok). exact E.
Qed.

(** Rewriting mutates the tree of the document it is called on, nothing
    else. *)
Lemma rewrite_urls_spec (a ta : loc) (c : DocContent) (fn : string -> result string)
    (st : State) :
  holds_document (heap st) a ta c ->
  rewrite_urls a fn st =
    match map_result fn (doc_urls c) with
    | Ok urls' => Ok (tt, set_heap (<[ta := OTree (doc_body c) urls']> (heap st)) st)
    | Raise e => Raise e
    end.
Proof.
  intros [Ha Hta]. unfold rewrite_urls.
  erewrite bind_ok by (by apply read_ok). simpl.
  erewrite bind_ok by (by apply read_ok).
  unfold mbind, M_bind, lift. by destruct (map_result fn (doc_urls c)).
Qed.

Lemma map_result_Forall2 {A B} (f : A -> result B) (l : list A) (l' : list B) :
  map_result f l = Ok l' -> Forall2 (fun x y => f x = Ok y) l l'.
Proof.
  revert l'. induction l as [|x l IH]; intros l'; simpl.
  - intros [= <-]. constructor.
  - destruct (f x) as [y|e] eqn:E; [|done]. simpl.
    destruct (map_result f l) as [ys|e]; [|done]. simpl. intros [= <-].
    constructor; [done|]. by apply IH.
Qed.

(** ** The cached document properties *)

Section DocumentProperties.

Context `{Util} `{DirView} `{SetOrder} `{NetlocChecks} `{DocumentLib}.

Lemma description_cached (r : Resource) (st : State) (d : loc) :
  description_cache st = Some d -> description r st = Ok (d, st).
Proof. intros E. unfold description. by rewrite E. Qed.

(** First access: the content is parsed into a new document, which is
    cached. *)
Lemma description_uncached (r : Resource) (st : State) :
  description_cache st = None ->
  description r st =
    match description_content r with
    | Raise e => Raise e
    | Ok c =>
        let t := fresh (dom (heap st)) in
        let h1 := <[t := OTree (doc_body c) (doc_urls c)]> (heap st) in
        let d := fresh (dom h1) in
        Ok (d, mkState (<[d := ODocument (doc_title c) t]> h1) (Some d)
                 (description_with_absolute_urls_cache st)
                 (events st ++ description_events r))
    end.
Proof.
  intros E. unfold description, description_content, description_events. rewrite E.
  destruct (description_path r) as [[p|]|e]; simpl; [| |done].
  - unfold mbind at 1, M_bind, lift.
    destruct (load_file p) as [c|e]; simpl; [|done].
    by rewrite app_nil_r.
  - unfold _generate_description, mbind, M_bind, lift, emit; simpl.
    destruct (generate_description_md r) as [md|e]; simpl; [|done].
    destruct (from_string md (slug r)) as [c|e]; simpl; [|done].
    reflexivity.
Qed.

Lemma state_ok_abs_none (st : State) :
  state_ok st -> description_cache st = None ->
  description_with_absolute_urls_cache st = None.
Proof.
  intros [_ Hok] E. destruct (description_with_absolute_urls_cache st) as [a|]; [|done].
  destruct (Hok a eq_refl) as (d & Hd & _). congruence.
Qed.

(** What [description] returns is a document, cached from then on; a
    cached document is returned as it is. *)
Lemma description_result (r : Resource) (st st1 : State) (d : loc) :
  state_ok st ->
  description r st = Ok (d, st1) ->
  exists t c,
    holds_document (heap st1) d t c /\
    description_cache st1 = Some d /\
    description_with_absolute_urls_cache st1 = description_with_absolute_urls_cache st /\
    (forall d0, description_cache st = Some d0 -> d0 = d /\ st1 = st) /\
    (description_cache st = None -> description_content r = Ok c) /\
    state_ok st1.
Proof.
  intros Hok Hrun. destruct (description_cache st) as [d0|] eqn:Ec.
  - rewrite (description_cached r st d0 Ec) in Hrun. injection Hrun as <- <-.
    destruct Hok as [Hd Ha]. destruct (Hd d0 Ec) as (t & c & Hdoc).
    exists t, c. split_and!; try done.
    all: try (by intros d1 [= <-]).
    all: by split.
  - rewrite (description_uncached r st Ec) in Hrun.
    destruct (description_content r) as [c|e]; [|done]. simpl in Hrun.
    injection Hrun as <- <-.
    set (t := fresh (dom (heap st))).
    set (h1 := <[t := OTree (doc_body c) (doc_urls c)]> (heap st)).
    set (d := fresh (dom h1)).
    assert (Htd : t <> d).
    { eapply lookup_ne_of_fresh; [|apply (fresh_lookup h1)]. apply lookup_insert_eq. }
    exists t, c. split_and!; try done; simpl.
    + by apply holds_document_new.
    + split; simpl.
      * intros d1 [= <-]. exists t, c. by apply holds_document_new.
      * intros a Ea. by rewrite (state_ok_abs_none st Hok Ec) in Ea.
Qed.

End DocumentProperties.

Lemma holds_document_inj (h : gmap loc obj) (d t t' : loc) (c c' : DocContent) :
  holds_document h d t c -> holds_document h d t' c' -> t = t' /\ c = c'.
Proof.
  intros [Hd Ht] [Hd' Ht']. rewrite Hd in Hd'. injection Hd' as Etitle <-.
  rewrite Ht in Ht'. injection Ht' as Ebody Eurls.
  split; [done|]. destruct c, c'; simpl in *; congruence.
Qed.

(** Writing to an object of one of two separate documents leaves the other
    document as it is. *)
Lemma separate_write_frame (h : gmap loc obj) (d a td ta : loc) (cd ca : DocContent)
    (l : loc) (o : obj) :
  holds_document h d td cd -> holds_document h a ta ca ->
  d <> a -> td <> ta -> d <> ta -> td <> a ->
  l = a \/ l = ta ->
  holds_document (<[l := o]> h) d td cd.
Proof.
  intros Hd Ha N1 N2 N3 N4 [->| ->]; apply holds_document_insert; congruence.
Qed.

Section IndependentCopy.

Context `{Util} `{DirView} `{SetOrder} `{NetlocChecks} `{DocumentLib}.

(** C5: [description_with_absolute_urls] works on a deep copy.  From a
    well-formed state, when the property returns document [a]: the cached
    description [d] is the object that was cached before, if one was, and
    holds after the call the title, body and URLs it held before (or, on
    first access, those just loaded); [a] and [d] share no object; and
    whatever is later written to [a] or to its tree, by [rewrite_urls] or
    otherwise, [d] still holds the same title, body and URLs. *)
Theorem absolutized_description_is_independent_copy (r : Resource) (st st' : State)
    (a : loc) :
  state_ok st ->
  description_with_absolute_urls r st = Ok (a, st') ->
  exists d c,
    description_cache st' = Some d /\
    (forall d0, description_cache st = Some d0 ->
                d0 = d /\ get_document d st = Ok (c, st)) /\
    (description_cache st = None -> description_content r = Ok c) /\
    get_document d st' = Ok (c, st') /\
    separate (heap st') d a /\
    (forall fn st'', rewrite_urls a fn st' = Ok (tt, st'') ->
                     get_document d st'' = Ok (c, st'')) /\
    (forall title ta o l, heap st' !! a = Some (ODocument title ta) ->
                          l = a \/ l = ta ->
                          get_document d (set_heap (<[l := o]> (heap st')) st')
                            = Ok (c, set_heap (<[l := o]> (heap st')) st')) /\
    state_ok st'.
Proof.
  intros Hok Hrun.
  (* everything follows from the shape of the final state *)
  assert (Hmain : exists d td ta c ca,
    description_cache st' = Some d /\
    description_with_absolute_urls_cache st' = Some a /\
    holds_document (heap st') d td c /\ holds_document (heap st') a ta ca /\
    d <> a /\ td <> ta /\ d <> ta /\ td <> a /\
    (forall d0, description_cache st = Some d0 ->
                d0 = d /\ holds_document (heap st) d td c) /\
    (description_cache st = None -> description_content r = Ok c)).
  { unfold description_with_absolute_urls in Hrun.
    destruct (description_with_absolute_urls_cache st) as [a0|] eqn:Ea.
    - injection Hrun as <- <-. destruct Hok as [Hd Ha].
      destruct (Ha a0 Ea) as (d & Ed & td & ta & cd & ca & Hdoc & Hcopy & N).
      exists d, td, ta, cd, ca. split_and!; try tauto.
      + intros d0 E0. rewrite Ed in E0. injection E0 as <-. done.
      + intros E0. congruence.
    - apply bind_inv in Hrun as (d & st1 & Hdesc & Hrun).
      apply bind_inv in Hrun as (a' & st2 & Hcopy & Hrun).
      apply bind_inv in Hrun as ([] & st3 & Hrw & Hrun).
      apply bind_inv in Hrun as ([] & st4 & Hset & Hrun).
      injection Hrun as <- <-. injection Hset as <-.
      destruct (description_result r st st1 d Hok Hdesc)
        as (td & c & Hdoc & Ec1 & Ea1 & Hsame & Hnew & Hok1).
      destruct (deepcopy_spec d td c st1 Hdoc) as (ta & a0 & Ecopy & Hta & Ha0 & Hne).
      rewrite Ecopy in Hcopy. injection Hcopy as <- <-.
      pose proof Hdoc as [Hd Htd].
      assert (Hcopydoc : holds_document
                (<[a0 := ODocument (doc_title c) ta]>
                   (<[ta := OTree (doc_body c) (doc_urls c)]> (heap st1))) a0 ta c)
        by (by apply holds_document_new).
      rewrite (rewrite_urls_spec a0 ta c) in Hrw by exact Hcopydoc.
      destruct (map_result (absolutize_url r) (doc_urls c)) as [urls'|e]; [|done].
      injection Hrw as <-. simpl.
      assert (N1 : d <> a0) by congruence.
      assert (N2 : td <> ta) by congruence.
      assert (N3 : d <> ta) by congruence.
      assert (N4 : td <> a0) by congruence.
      exists d, td, ta, c, (mkDoc (doc_title c) (doc_body c) urls').
      split_and!; try done.
      + do 3 (apply holds_document_insert; [|congruence|congruence]). done.
      + split; simpl.
        * rewrite lookup_insert_ne by done. apply lookup_insert_eq.
        * apply lookup_insert_eq.
      + intros d0 E0. destruct (Hsame d0 E0) as [-> ->]. done. }
  destruct Hmain as (d & td & ta & c & ca & Ed & Ea & Hd & Ha & N1 & N2 & N3 & N4 & Hold & Hnew).
  exists d, c. split_and!.
  - done.
  - intros d0 E0. destruct (Hold d0 E0) as [-> Hd0]. split; [done|].
    by eapply get_document_holds.
  - done.
  - by eapply get_document_holds.
  - by exists td, ta, c, ca.
  - intros fn st'' Hrw. rewrite (rewrite_urls_spec a ta ca fn st' Ha) in Hrw.
    destruct (map_result fn (doc_urls ca)) as [urls'|e]; [|done].
    injection Hrw as <-. eapply get_document_holds; simpl.
    eapply separate_write_frame; eauto.
  - intros title ta' o l Ea' Hl. eapply get_document_holds; simpl.
    destruct Ha as [Ha Hta]. rewrite Ha in Ea'. injection Ea' as _ <-.
    eapply (separate_write_frame _ d a td ta c ca); eauto. by split.
  - split.
    + intros d0 E0. rewrite Ed in E0. injection E0 as <-. by exists td, c.
    + intros a0 E0. rewrite Ea in E0. injection E0 as <-. exists d. split; [done|].
      by exists td, ta, c, ca.
Qed.

(** The property does return whenever the content loads and the parser
    accepts every URL in it. *)
Lemma description_with_absolute_urls_returns (r : Resource) (st : State)
    (c : DocContent) (urls' : list string) :
  state_ok st ->
  description_cache st = None ->
  description_content r = Ok c ->
  map_result (absolutize_url r) (doc_urls c) = Ok urls' ->
  exists a st', description_with_absolute_urls r st = Ok (a, st') /\
                get_document a st' = Ok (mkDoc (doc_title c) (doc_body c) urls', st').
Proof.
  intros Hok Ec Hc Hurls.
  unfold description_with_absolute_urls.
  rewrite (state_ok_abs_none st Hok Ec).
  pose proof (description_uncached r st Ec) as Hdesc. rewrite Hc in Hdesc.
  simpl in Hdesc. erewrite bind_ok by exact Hdesc.
  match type of Hdesc with _ = Ok (?d, ?st1) =>
    assert (Hdoc : holds_document (heap st1) d (fresh (dom (heap st))) c)
  end.
  { apply holds_document_new. eapply lookup_ne_of_fresh; [|apply fresh_lookup].
    apply lookup_insert_eq. }
  destruct (deepcopy_spec _ _ c _ Hdoc) as (ta & a & Ecopy & Hta & Ha & Hne).
  erewrite bind_ok by exact Ecopy.
  assert (Hcopydoc : forall h, holds_document
            (<[a := ODocument (doc_title c) ta]>
               (<[ta := OTree (doc_body c) (doc_urls c)]> h)) a ta c)
    by (intros h; by apply holds_document_new).
  erewrite bind_ok; [|rewrite (rewrite_urls_spec a ta c); [|apply Hcopydoc];
                      rewrite Hurls; reflexivity].
  eexists _, _. split; [reflexivity|].
  eapply (get_document_holds a ta); simpl. split; simpl.
  - rewrite lookup_insert_ne by done. apply lookup_insert_eq.
  - apply lookup_insert_eq.
Qed.

End IndependentCopy.

(** ** The page builder *)

Section PageBuilder.

Context `{Util} `{DirView} `{SetOrder} `{NetlocChecks} `{DocumentLib} `{Templates} `{Config}.

(** One dependency, one event. *)
Lemma reconcile_dependency_event (assets : gmap string Asset) (page_dir : Path)
    (dep : string) (st : State) :
  exists ev, reconcile_dependency assets page_dir dep st = Ok (tt, add_events [ev] st) /\
             reconciled assets page_dir dep ev.
Proof.
  unfold reconcile_dependency, reconciled, dependency_destination.
  destruct (P.is_absolute (P.of_string dep)); simpl;
    match goal with |- context [assets !! ?k] => destruct (assets !! k) end;
    eexists; split; try apply emit_add; reflexivity.
Qed.

Lemma for_each_reconcile (assets : gmap string Asset) (page_dir : Path)
    (deps : list string) (st : State) :
  exists evs,
    for_each (reconcile_dependency assets page_dir) deps st = Ok (tt, add_events evs st) /\
    Forall2 (reconciled assets page_dir) deps evs.
Proof.
  revert st. induction deps as [|dep deps IH]; intros st; simpl.
  - exists []. by rewrite add_events_nil.
  - destruct (reconcile_dependency_event assets page_dir dep st) as (ev & E & Hev).
    destruct (IH (add_events [ev] st)) as (evs & E' & Hevs).
    exists (ev :: evs). split; [|by constructor].
    erewrite bind_ok by exact E. by rewrite E', add_events_app.
Qed.

(** The run of [build_resource] once the description is at hand. *)
Lemma build_resource_events (r : Resource) (st st1 : State)
    (d : loc) (doc : DocContent) (paths : list Path) :
  description r st = Ok (d, st1) ->
  get_document d st1 = Ok (doc, st1) ->
  asset_paths r = Ok paths ->
  let page_dir := P.joins (P.join output_dir (DIRECTORY (cls r))) (slug r) in
  let page_file := P.joins page_dir "index.html" in
  let page := render_resource_page (doc_title doc) (inner_html doc) in
  exists evs,
    build_resource r st
      = Ok (page_file,
            add_events ([LogInfo (slug r +:+ " -> " +:+ P.to_string page_file);
                         Mkdir page_dir; WriteText page_file page] ++ evs) st1) /\
    Forall2 (reconciled (asset_index paths) page_dir) (iter_dependencies doc) evs.
Proof.
  intros Hd Hdoc Hpaths page_dir page_file page.
  destruct (for_each_reconcile (asset_index paths) page_dir (iter_dependencies doc)
              (add_events [LogInfo (slug r +:+ " -> " +:+ P.to_string page_file);
                           Mkdir page_dir; WriteText page_file page] st1))
    as (evs & Hloop & Hevs).
  exists evs. split; [|done].
  unfold build_resource. fold page_dir_of.
  erewrite bind_ok by exact Hd. erewrite bind_ok by exact Hdoc.
  erewrite bind_ok by apply emit_add. erewrite bind_ok by apply emit_add.
  erewrite bind_ok by apply emit_add.
  erewrite bind_ok by (apply lift_ok; exact Hpaths).
  rewrite !add_events_app. simpl.
  unfold page_dir_of. fold page_dir. fold page_file. fold page.
  erewrite bind_ok by exact Hloop. by rewrite add_events_app.
Qed.

(** The loop body at a dependency, by the kind of its path. *)
Lemma reconcile_dependency_run (assets : gmap string Asset) (page_dir : Path)
    (dep : string) (st : State) :
  let p := P.of_string dep in
  let dst := if P.is_absolute p then p else P.join page_dir p in
  reconcile_dependency assets page_dir dep st
    = Ok (tt, add_events [match assets !! P.stem dst with
                          | Some a => AssetTo a dst
                          | None => LogWarning ("Missing asset " +:+ P.to_string dst)
                          end] st).
Proof.
  unfold reconcile_dependency, dependency_destination.
  destruct (P.is_absolute (P.of_string dep)); simpl;
    match goal with |- context [assets !! ?k] => destruct (assets !! k) end;
    apply emit_add.
Qed.

Lemma join_relative (a p : Path) :
  P.is_absolute p = false -> P.join a p = mkPath (root a) (segs a ++ segs p).
Proof. unfold P.join, P.is_absolute. by destruct (root p). Qed.

(** C8: the destination of a declared dependency in [build_resource].  In
    the loop over the declared dependencies, a dependency whose path is
    absolute has that very path as its destination, whatever the page
    directory and the output root are: the asset indexed under the stem of
    the path is materialized to the path as declared, and when no asset has
    that stem the warning names the path as declared.  Only a path that is
    not absolute is joined onto the page directory, its components following
    those of the page directory, and that joined path is the destination.
    This holds of one pass of the loop body and of the events that
    [build_resource] performs after writing the page, one per declared
    dependency and in their order. *)
Theorem absolute_dependency_destination_verbatim :
  (forall (assets : gmap string Asset) (page_dir : Path) (dep : string) (st : State),
      let p := P.of_string dep in
      (P.is_absolute p = true ->
         reconcile_dependency assets page_dir dep st
           = Ok (tt, add_events [match assets !! P.stem p with
                                 | Some a => AssetTo a p
                                 | None => LogWarning ("Missing asset " +:+ P.to_string p)
                                 end] st)) /\
      (P.is_absolute p = false ->
         let q := mkPath (root page_dir) (segs page_dir ++ segs p) in
         P.join page_dir p = q /\
         reconcile_dependency assets page_dir dep st
           = Ok (tt, add_events [match assets !! P.stem q with
                                 | Some a => AssetTo a q
                                 | None => LogWarning ("Missing asset " +:+ P.to_string q)
                                 end] st))) /\
  (forall (r : Resource) (st st1 : State) (d : loc) (doc : DocContent) (paths : list Path),
      description r st = Ok (d, st1) ->
      get_document d st1 = Ok (doc, st1) ->
      asset_paths r = Ok paths ->
      let page_dir := P.joins (P.join output_dir (DIRECTORY (cls r))) (slug r) in
      let page_file := P.joins page_dir "index.html" in
      let page := render_resource_page (doc_title doc) (inner_html doc) in
      exists evs,
        build_resource r st
          = Ok (page_file,
                add_events ([LogInfo (slug r +:+ " -> " +:+ P.to_string page_file);
                             Mkdir page_dir; WriteText page_file page] ++ evs) st1) /\
        length evs = length (iter_dependencies doc) /\
        forall (i : nat) (dep : string),
          iter_dependencies doc !! i = Some dep ->
          let p := P.of_string dep in
          (P.is_absolute p = true ->
             evs !! i = Some (match asset_index paths !! P.stem p with
                              | Some a => AssetTo a p
                              | None => LogWarning ("Missing asset " +:+ P.to_string p)
                              end)) /\
          (P.is_absolute p = false ->
             let q := mkPath (root page_dir) (segs page_dir ++ segs p) in
             evs !! i = Some (match asset_index paths !! P.stem q with
                              | Some a => AssetTo a q
                              | None => LogWarning ("Missing asset " +:+ P.to_string q)
                              end))).
Proof.
  split.
  - intros assets page_dir dep st p. split.
    + intros Habs. pose proof (reconcile_dependency_run assets page_dir dep st) as E.
      cbv zeta in E. fold p in E. by rewrite Habs in E.
    + intros Hrel q. pose proof (join_relative page_dir p Hrel) as Hq. fold q in Hq.
      split; [exact Hq|].
      pose proof (reconcile_dependency_run assets page_dir dep st) as E.
      cbv zeta in E. fold p in E. by rewrite Hrel, Hq in E.
  - intros r st st1 d doc paths Hd Hdoc Hpaths page_dir page_file page.
    destruct (build_resource_events r st st1 d doc paths Hd Hdoc Hpaths)
      as (evs & E & Hevs).
    exists evs. split; [exact E|]. split; [symmetry; by eapply Forall2_length|].
    intros i dep Hi p.
    destruct (Forall2_lookup_l _ _ _ _ _ Hevs Hi) as (ev & Hev & Hrec).
    unfold reconciled in Hrec. cbv zeta in Hrec. fold p in Hrec. fold page_dir in Hrec.
    split.
    + intros Habs. rewrite Habs in Hrec. rewrite Hev. f_equal.
      by destruct (asset_index paths !! P.stem p).
    + intros Hrel q. rewrite Hrel in Hrec.
      rewrite (join_relative page_dir p Hrel) in Hrec. fold q in Hrec.
      rewrite Hev. f_equal. by destruct (asset_index paths !! P.stem q).
Qed.



End PageBuilder.

(** ** Static sync: a source that is neither file nor directory *)

(** C9, amended: for every source path under the input root that is
    neither an existing file nor an existing directory, [sync_static_path]
    returns without raising and leaves the file system as it was: no call
    that changes it is made and nothing is logged. *)
Theorem sync_static_path_neither `{Config} (src rel : Path) (fs : FileSystem) :
  P.relative_to src input_dir = Ok rel ->
  path_is_file fs src = false ->
  path_is_dir fs src = false ->
  sync_static_path src fs = (Ok tt, fs).
Proof.
  intros Hrel Hfile Hdir. unfold sync_static_path.
  unfold mbind, IO_bind, lift_result, is_file, is_dir.
  by rewrite Hrel, Hfile, Hdir.
Qed.

(** C9 as stated fails for a source path outside the input root: the
    destination cannot be computed and [relative_to] raises [ValueError]
    before the path is looked at. *)
Lemma sync_static_path_outside_input_root :
  path_is_file (site_fs true) (P.of_string "/elsewhere/missing") = false /\
  path_is_dir (site_fs true) (P.of_string "/elsewhere/missing") = false /\
  sync_static_path (H:=site_config) (P.of_string "/elsewhere/missing") (site_fs true)
    = (Raise ValueError, site_fs true) /\
  ~ untouched_when_neither (H:=site_config) (P.of_string "/elsewhere/missing") (site_fs true).
Proof.
  split_and!; try reflexivity.
  intros Hclaim. specialize (Hclaim eq_refl eq_refl). discriminate Hclaim.
Qed.

(** The amended C9 at the missing path [/in/missing]. *)
Lemma sync_static_path_neither_witness :
  P.relative_to (P.of_string "/in/missing") (input_dir (Config:=site_config))
    = Ok (P.of_string "missing") /\
  path_is_file (site_fs true) (P.of_string "/in/missing") = false /\
  path_is_dir (site_fs true) (P.of_string "/in/missing") = false /\
  sync_static_path (H:=site_config) (P.of_string "/in/missing") (site_fs true)
    = (Ok tt, site_fs true).
Proof.
  split_and!; [reflexivity..|].
  exact (sync_static_path_neither (H:=site_config) (P.of_string "/in/missing")
           (P.of_string "missing") (site_fs true) eq_refl eq_refl eq_refl).
Defined.

(** ** Static sync twice: the directory case removes *)


(** ** The tree of names *)

Section TreeFacts.

Import Tree.

Lemma assoc_set_eq (k : string) (n : Node) (es : list (string * Node)) :
  assoc k (assoc_set k n es) = Some n.
Proof.
  induction es as [|[k' n'] es IH]; simpl.
  - by rewrite String.eqb_refl.
  - destruct (String.eqb_spec k k') as [->|Hne]; simpl.
    + by rewrite String.eqb_refl.
    + by destruct (String.eqb_spec k k').
Qed.

Lemma assoc_set_ne (k k' : string) (n : Node) (es : list (string * Node)) :
  k <> k' -> assoc k' (assoc_set k n es) = assoc k' es.
Proof.
  intros Hne. induction es as [|[k0 n0] es IH]; simpl.
  - by destruct (String.eqb_spec k' k) as [->|].
  - destruct (String.eqb_spec k k0) as [->|Hne0]; simpl.
    + by destruct (String.eqb_spec k' k0) as [->|].
    + by destruct (String.eqb_spec k' k0).
Qed.

Lemma assoc_del_eq (k : string) (es : list (string * Node)) :
  assoc k (assoc_del k es) = None.
Proof.
  induction es as [|[k' n'] es IH]; simpl; [done|].
  destruct (String.eqb_spec k k') as [->|Hne]; simpl; [done|].
  by destruct (String.eqb_spec k k').
Qed.


Lemma get_nil (n : Node) : get n [] = Some n.
Proof. reflexivity. Qed.

Lemma get_app (n : Node) (p q : list string) :
  get n (p ++ q) = get n p ≫= fun m => get m q.
Proof.
  revert n. induction p as [|s p IH]; intros n; simpl; [done|].
  destruct n as [i|es|t]; try done. destruct (assoc s es); [apply IH|done].
Qed.

Lemma get_not_dir (n : Node) (s : string) (p : list string) :
  kind_of n <> KDir -> get n (s :: p) = None.
Proof. by destruct n. Qed.

(** Below a path that has no node there is no node. *)
Lemma get_none_app (n : Node) (p q : list string) :
  get n p = None -> get n (p ++ q) = None.
Proof. intros E. by rewrite get_app, E. Qed.

(** All that lies above a node is a directory. *)
Lemma get_prefix_dir (n : Node) (p : list string) (s : string) (q : list string) (x : Node) :
  get n (p ++ s :: q) = Some x -> exists es, get n p = Some (Dir es).
Proof.
  rewrite get_app. destruct (get n p) as [m|]; [|done]. simpl.
  destruct m as [i|es|t]; try done. eauto.
Qed.

Lemma put_get_under (rt : Node) (p : list string) (n rt' : Node) (rel : list string) :
  put rt p n = Some rt' -> get rt' (p ++ rel) = get n rel.
Proof.
  revert rt rt'. induction p as [|s p IH]; intros rt rt'; simpl.
  - by intros [= <-].
  - destruct rt as [i|es|t]; try done.
    destruct p as [|s' p'].
    + intros [= <-]. simpl. by rewrite assoc_set_eq.
    + destruct (assoc s es) as [c|] eqn:Ec; [|done].
      destruct (put c (s' :: p') n) as [c'|] eqn:Ep; [|done].
      intros [= <-]. simpl get at 1. rewrite assoc_set_eq. exact (IH c c' Ep).
Qed.

Lemma put_get_self (rt : Node) (p : list string) (n rt' : Node) :
  put rt p n = Some rt' -> get rt' p = Some n.
Proof.
  intros E. pose proof (put_get_under rt p n rt' [] E) as Hg.
  by rewrite app_nil_r in Hg.
Qed.

Lemma prefix_cons_inv_same (s : string) (p q : list string) :
  (s :: p) `prefix_of` (s :: q) <-> p `prefix_of` q.
Proof.
  split.
  - intros [k Hk]. injection Hk as ->. by exists k.
  - intros [k ->]. by exists k.
Qed.

(** Binding a path does not change the kind of what lies outside it. *)
Lemma put_kind_other (rt : Node) (p : list string) (n rt' : Node) (q : list string) :
  put rt p n = Some rt' -> ~ p `prefix_of` q -> lstat rt' q = lstat rt q.
Proof.
  unfold lstat. revert rt rt' q. induction p as [|s p IH]; intros rt rt' q; simpl.
  - intros _ Hnp. destruct Hnp. apply prefix_nil.
  - destruct rt as [i|es|t]; try done.
    intros Hput Hnp. destruct q as [|s0 q].
    { destruct p as [|s' p']; [by injection Hput as <-|].
      destruct (assoc s es); [|done]. destruct (put n0 (s' :: p') n); [|done].
      by injection Hput as <-. }
    destruct (decide (s0 = s)) as [->|Hne].
    + rewrite prefix_cons_inv_same in Hnp.
      destruct p as [|s' p']; [destruct Hnp; apply prefix_nil|].
      destruct (assoc s es) as [c|] eqn:Ec; [|done].
      destruct (put c (s' :: p') n) as [c'|] eqn:Ep; [|done].
      injection Hput as <-. simpl. rewrite assoc_set_eq, Ec. by apply (IH c c').
    + assert (Hrt' : exists es', rt' = Dir es' /\ assoc s0 es' = assoc s0 es).
      { destruct p as [|s' p'].
        - injection Hput as <-. eexists. split; [done|]. by apply assoc_set_ne.
        - destruct (assoc s es) as [c|]; [|done].
          destruct (put c (s' :: p') n) as [c'|]; [|done].
          injection Hput as <-. eexists. split; [done|]. by apply assoc_set_ne. }
      destruct Hrt' as (es' & -> & Hes'). simpl. by rewrite Hes'.
Qed.

(** Binding a path changes nothing at a path that is neither below nor
    above it. *)
Lemma put_get_unrelated (rt : Node) (p : list string) (n rt' : Node) (q : list string) :
  put rt p n = Some rt' -> ~ p `prefix_of` q -> ~ q `prefix_of` p ->
  get rt' q = get rt q.
Proof.
  revert rt rt' q. induction p as [|s p IH]; intros rt rt' q; simpl.
  - intros _ Hnp. destruct Hnp. apply prefix_nil.
  - destruct rt as [i|es|t]; try done.
    intros Hput Hnp Hnq. destruct q as [|s0 q]; [destruct Hnq; apply prefix_nil|].
    destruct (decide (s0 = s)) as [->|Hne].
    + rewrite prefix_cons_inv_same in Hnp, Hnq.
      destruct p as [|s' p']; [destruct Hnp; apply prefix_nil|].
      destruct (assoc s es) as [c|] eqn:Ec; [|done].
      destruct (put c (s' :: p') n) as [c'|] eqn:Ep; [|done].
      injection Hput as <-. simpl. rewrite assoc_set_eq, Ec. by apply (IH c c').
    + assert (Hrt' : exists es', rt' = Dir es' /\ assoc s0 es' = assoc s0 es).
      { destruct p as [|s' p'].
        - injection Hput as <-. eexists. split; [done|]. by apply assoc_set_ne.
        - destruct (assoc s es) as [c|]; [|done].
          destruct (put c (s' :: p') n) as [c'|]; [|done].
          injection Hput as <-. eexists. split; [done|]. by apply assoc_set_ne. }
      destruct Hrt' as (es' & -> & Hes'). simpl. by rewrite Hes'.
Qed.

End TreeFacts.

Section TreeFacts2.

Import Tree.

Lemma del_get_under (rt : Node) (p rel : list string) :
  p <> [] -> get (del rt p) (p ++ rel) = None.
Proof.
  revert rt. induction p as [|s p IH]; intros rt Hne; [done|]. simpl.
  destruct rt as [i|es|t]; try done.
  destruct p as [|s' p'].
  - simpl. by rewrite assoc_del_eq.
  - destruct (assoc s es) as [c|] eqn:Ec.
    + simpl get at 1. rewrite assoc_set_eq. by apply IH.
    + simpl. by rewrite Ec.
Qed.




Lemma chain_get_self (p : list string) : get (chain p) p = Some (Dir []).
Proof. induction p as [|s p IH]; simpl; [done|]. by rewrite String.eqb_refl. Qed.

Lemma put_chain (p : list string) (n : Node) : is_Some (put (chain p) p n).
Proof.
  induction p as [|s p IH]; simpl; [by eexists|].
  destruct p as [|s' p']; [by eexists|].
  rewrite String.eqb_refl. destruct IH as [c' ->]. by eexists.
Qed.

(** [makedirs] refuses a path that exists. *)
Lemma makedirs_exists_raises (rt : Node) (p : list string) :
  is_Some (get rt p) -> exists e, makedirs rt p = Raise e /\ is_OSError e = true.
Proof.
  revert rt. induction p as [|s p IH]; intros rt [x Hx]; simpl.
  - by eexists.
  - simpl in Hx. destruct rt as [i|es|t]; try done.
    destruct (assoc s es) as [c|]; [|done].
    destruct (IH c) as (e & -> & He); [by eexists|]. by exists e.
Qed.

Lemma makedirs_get_self (rt : Node) (p : list string) (rt1 : Node) :
  makedirs rt p = Ok rt1 -> get rt1 p = Some (Dir []).
Proof.
  revert rt rt1. induction p as [|s p IH]; intros rt rt1; simpl; [done|].
  destruct rt as [i|es|t]; try done.
  destruct (assoc s es) as [c|] eqn:Ec.
  - destruct (makedirs c p) as [c'|e] eqn:Em; [|done]. simpl. intros [= <-].
    simpl. rewrite assoc_set_eq. by apply (IH c).
  - intros [= <-]. simpl. rewrite assoc_set_eq. apply chain_get_self.
Qed.

Lemma makedirs_put_some (rt : Node) (p : list string) (rt1 n : Node) :
  makedirs rt p = Ok rt1 -> is_Some (put rt1 p n).
Proof.
  revert rt rt1. induction p as [|s p IH]; intros rt rt1; simpl; [done|].
  destruct rt as [i|es|t]; try done.
  destruct (assoc s es) as [c|] eqn:Ec.
  - destruct (makedirs c p) as [c'|e] eqn:Em; [|done]. simpl. intros [= <-].
    destruct p as [|s' p']; [by eexists|].
    rewrite assoc_set_eq. destruct (IH c c' Em) as [c'' ->]. by eexists.
  - intros [= <-]. destruct p as [|s' p']; [by eexists|].
    rewrite assoc_set_eq. destruct (put_chain (s' :: p') n) as [c'' ->]. by eexists.
Qed.



Lemma makedirs_cons (es : list (string * Node)) (s : string) (p : list string) :
  makedirs (Dir es) (s :: p) =
    match assoc s es with
    | Some c => c' ← makedirs c p; Ok (Dir (assoc_set s c' es))
    | None => Ok (Dir (assoc_set s (chain p) es))
    end.
Proof. reflexivity. Qed.


End TreeFacts2.

Section FollowFacts.

Import Tree.

Lemma link_at_lstat (rt rt' : Node) (p : list string) :
  lstat rt' p = lstat rt p -> link_at rt' p = link_at rt p.
Proof.
  unfold lstat, link_at.
  destruct (get rt' p) as [[]|], (get rt p) as [[]|]; simpl; congruence.
Qed.

Lemma follow_unfold (f : nat) (rt : Node) (p : list string) :
  follow f rt p =
    match link_at rt p with
    | Some t => match f with O => None | S f' => follow f' rt (target_from p t) end
    | None => Some p
    end.
Proof.
  unfold link_at. destruct f; simpl; by destruct (get rt p) as [[]|].
Qed.





(** A path that has a node does not lie below a path that has none. *)
Lemma not_prefix_of_exists (rt : Node) (q p : list string) :
  get rt q = None -> is_Some (get rt p) -> ~ q `prefix_of` p.
Proof.
  intros Hnone [x Hx] [rel ->]. by rewrite (get_none_app _ _ _ Hnone) in Hx.
Qed.

(** Binding a path that had no node leaves every chain of links that ends
    at a node as it was. *)
Lemma follow_put_fresh_chain (rt : Node) (q : list string) (n rt' : Node) :
  put rt q n = Some rt' -> get rt q = None ->
  forall f p e, follow f rt p = Some e -> is_Some (get rt e) ->
                follow f rt' p = Some e /\ lstat rt' e = lstat rt e.
Proof.
  intros Hput Hnone f. induction f as [|f IH]; intros p e;
    rewrite (follow_unfold _ rt), (follow_unfold _ rt').
  - destruct (link_at rt p) as [t|] eqn:El; [done|]. intros [= <-] Hex.
    assert (Hk : lstat rt' p = lstat rt p).
    { eapply put_kind_other; [done|]. by eapply not_prefix_of_exists. }
    by rewrite (link_at_lstat _ _ _ Hk), El.
  - destruct (link_at rt p) as [t|] eqn:El.
    + intros Hf Hex.
      assert (Hk : lstat rt' p = lstat rt p).
      { eapply put_kind_other; [done|]. eapply not_prefix_of_exists; [done|].
        unfold link_at in El. destruct (get rt p); [by eexists|done]. }
      rewrite (link_at_lstat _ _ _ Hk), El. by apply IH.
    + intros [= <-] Hex.
      assert (Hk : lstat rt' p = lstat rt p).
      { eapply put_kind_other; [done|]. by eapply not_prefix_of_exists. }
      by rewrite (link_at_lstat _ _ _ Hk), El.
Qed.

Lemma lstat_kind (rt : Node) (p : list string) (x : Node) :
  get rt p = Some x -> lstat rt p = Some (kind_of x).
Proof. unfold lstat. by intros ->. Qed.


Lemma lstat_get_dir (rt : Node) (p : list string) :
  lstat rt p = Some KDir -> exists es, get rt p = Some (Dir es).
Proof. unfold lstat. destruct (get rt p) as [[]|]; simpl; try congruence. eauto. Qed.

Lemma stat_put_fresh_chain (rt : Node) (q : list string) (n rt' : Node)
    (p e : list string) (x : Node) :
  put rt q n = Some rt' -> get rt q = None ->
  stat rt p = Some (e, x) ->
  exists x', stat rt' p = Some (e, x') /\ kind_of x' = kind_of x.
Proof.
  intros Hput Hnone. unfold stat.
  destruct (follow MAXSYMLINKS rt p) as [e0|] eqn:Ef; [|done].
  destruct (get rt e0) as [x0|] eqn:Ex; [|done]. intros [= <- <-].
  destruct (follow_put_fresh_chain rt q n rt' Hput Hnone _ _ _ Ef) as [-> Hk];
    [by eexists|].
  rewrite (lstat_kind _ _ _ Ex) in Hk. unfold lstat in Hk.
  destruct (get rt' e0) as [x'|]; [|done]. injection Hk as Hk. eauto.
Qed.

(** A node that is no link is where its path leads. *)
Lemma stat_of_get (rt : Node) (p : list string) (x : Node) :
  get rt p = Some x -> kind_of x = KDir \/ (exists i, x = File i) ->
  stat rt p = Some (p, x).
Proof.
  intros Hx Hk. unfold stat. rewrite follow_unfold. unfold link_at. rewrite Hx.
  destruct x as [i|es|t]; simpl; rewrite ?Hx; try done.
  by destruct Hk as [Hk|[i Hi]].
Qed.

Lemma lookup_error_oserror (rt : Node) (p : list string) :
  is_OSError (lookup_error rt p) = true.
Proof.
  revert rt. induction p as [|k p IH]; intros rt; [done|]. simpl.
  destruct rt as [i|es|t]; try done. destruct (assoc k es); [apply IH|done].
Qed.

Lemma stat_error_oserror (rt : Node) (p : list string) :
  is_OSError (stat_error rt p) = true.
Proof.
  unfold stat_error. destruct (follow _ _ _); [apply lookup_error_oserror|done].
Qed.

End FollowFacts.

(** ** Static sync: linking and copying one file *)

Section FileOps.

Import Tree.

Lemma set_tree_with_ops (rt : Node) (inodes : gmap nat FileData) (ops : list Op)
    (fs : FileSystem) :
  set_tree rt inodes (with_ops ops fs) = with_ops ops (set_tree rt inodes fs).
Proof. reflexivity. Qed.

Lemma with_ops_id (fs : FileSystem) : with_ops (fs_ops fs) fs = fs.
Proof. by destruct fs. Qed.

Lemma set_tree_id (fs : FileSystem) : set_tree (fs_root fs) (fs_inodes fs) fs = fs.
Proof. by destruct fs. Qed.

(** The record of calls does not influence what the calls do. *)
Lemma os_link_at_ops (s d : list string) (ops : list Op) (fs : FileSystem) :
  os_link_at s d (with_ops ops fs)
  = ((os_link_at s d fs).1, with_ops ops (os_link_at s d fs).2).
Proof.
  unfold os_link_at; simpl.
  repeat (match goal with
          | |- context [match ?x with _ => _ end] => destruct x eqn:?; simpl
          end; try reflexivity).
Qed.

Lemma copy2_at_ops (s d : list string) (ops : list Op) (fs : FileSystem) :
  copy2_at s d (with_ops ops fs)
  = ((copy2_at s d fs).1, with_ops ops (copy2_at s d fs).2).
Proof.
  unfold copy2_at; simpl.
  repeat (match goal with
          | |- context [match ?x with _ => _ end] => destruct x eqn:?; simpl
          end; try reflexivity).
Qed.

(** What [os.link] has done when it returns, and that it changes nothing
    when it raises. *)
Lemma os_link_at_inv (s d : list string) (fs : FileSystem) (r : result unit)
    (fs' : FileSystem) :
  os_link_at s d fs = (r, fs') ->
  (exists e, r = Raise e /\ is_OSError e = true /\ fs' = fs) \/
  (r = Ok tt /\
   exists n rt',
     get (fs_root fs) s = Some n /\ kind_of n <> KDir /\
     get (fs_root fs) d = None /\
     put (fs_root fs) d n = Some rt' /\
     fs' = set_tree rt' (fs_inodes fs) fs).
Proof.
  unfold os_link_at.
  destruct (get (fs_root fs) s) as [n|] eqn:Es;
    [|intros [= <- <-]; left; eexists; split_and!; eauto using lookup_error_oserror].
  destruct n as [i|es|t]; [|intros [= <- <-]; left; eexists; split_and!; eauto using lookup_error_oserror|].
  - destruct (negb _); [intros [= <- <-]; left; eexists; split_and!; eauto using lookup_error_oserror|].
    destruct (get (fs_root fs) d) eqn:Ed; [intros [= <- <-]; left; eexists; split_and!; eauto using lookup_error_oserror|].
    destruct (negb (is_dir _ _)); [intros [= <- <-]; left; eexists; split_and!; eauto using lookup_error_oserror|].
    destruct (negb (fs_hardlinks fs)); [intros [= <- <-]; left; eexists; split_and!; eauto using lookup_error_oserror|].
    destruct (put (fs_root fs) d (File i)) as [rt'|] eqn:Ep;
      [|intros [= <- <-]; left; eexists; split_and!; eauto using lookup_error_oserror].
    intros [= <- <-]. right. split; [done|]. by exists (File i), rt'.
  - simpl. destruct (get (fs_root fs) d) eqn:Ed; [intros [= <- <-]; left; eexists; split_and!; eauto using lookup_error_oserror|].
    destruct (negb (is_dir _ _)); [intros [= <- <-]; left; eexists; split_and!; eauto using lookup_error_oserror|].
    destruct (negb (fs_hardlinks fs)); [intros [= <- <-]; left; eexists; split_and!; eauto using lookup_error_oserror|].
    destruct (put (fs_root fs) d (Symlink t)) as [rt'|] eqn:Ep;
      [|intros [= <- <-]; left; eexists; split_and!; eauto using lookup_error_oserror].
    intros [= <- <-]. right. split; [done|]. by exists (Symlink t), rt'.
Qed.

Lemma fresh_inode_not_live (rt : Node) (inodes : gmap nat FileData) :
  inodes !! fresh_inode rt inodes = None.
Proof.
  apply not_elem_of_dom. unfold fresh_inode.
  pose proof (is_fresh (dom inodes ∪ inodes_of rt)). set_solver.
Qed.


(** What [copy2] has done when it returns: the source leads to a file with
    inode [i]; the destination leads to [q], where the file with inode [j],
    there before or made now, has received the data. *)
Lemma copy2_at_inv (s d : list string) (fs : FileSystem) (r : result unit)
    (fs' : FileSystem) :
  copy2_at s d fs = (r, fs') ->
  (exists e, r = Raise e /\ is_OSError e = true /\ fs' = fs) \/
  (r = Ok tt /\
   exists sp i data q j,
     stat (fs_root fs) s = Some (sp, File i) /\
     fs_inodes fs !! i = Some data /\
     follow MAXSYMLINKS (fs_root fs)
       (if is_dir (fs_root fs) d then d ++ [List.last s ""] else d) = Some q /\
     i <> j /\
     ((get (fs_root fs) q = Some (File j) /\
       fs' = set_tree (fs_root fs) (<[j := data]> (fs_inodes fs)) fs) \/
      (get (fs_root fs) q = None /\
       exists rt', put (fs_root fs) q (File j) = Some rt' /\
                   fs' = set_tree rt' (<[j := data]> (fs_inodes fs)) fs))).
Proof.
  unfold copy2_at.
  destruct (stat (fs_root fs) s) as [[sp [i|es|t]]|] eqn:Es;
    try (intros [= <- <-]; left; eexists; split_and!; eauto using lookup_error_oserror, stat_error_oserror).
  destruct (fs_inodes fs !! i) as [data|] eqn:Ei;
    [|intros [= <- <-]; left; eexists; split_and!; eauto using lookup_error_oserror, stat_error_oserror].
  destruct (follow _ _ _) as [q|] eqn:Ef; [|intros [= <- <-]; left; eexists; split_and!; eauto using lookup_error_oserror, stat_error_oserror].
  destruct (get (fs_root fs) q) as [[j|es|t]|] eqn:Eq;
    try (intros [= <- <-]; left; eexists; split_and!; eauto using lookup_error_oserror, stat_error_oserror).
  - destruct (Nat.eqb_spec i j) as [->|Hne]; [intros [= <- <-]; left; eexists; split_and!; eauto using lookup_error_oserror, stat_error_oserror|].
    intros [= <- <-]. right. split; [done|].
    exists sp, i, data, q, j. split_and!; try done. by left.
  - destruct (negb (is_dir _ _)); [intros [= <- <-]; left; eexists; split_and!; eauto using lookup_error_oserror, stat_error_oserror|].
    destruct (put _ _ _) as [rt'|] eqn:Ep; [|intros [= <- <-]; left; eexists; split_and!; eauto using lookup_error_oserror, stat_error_oserror].
    intros [= <- <-]. right. split; [done|].
    exists sp, i, data, q, (fresh_inode (fs_root fs) (fs_inodes fs)).
    split_and!; try done.
    + intros ->. by rewrite fresh_inode_not_live in Ei.
    + right. split; [done|]. by exists rt'.
Qed.



End FileOps.

(** ** Static sync of a file, twice *)

Section SyncFile.

Import Tree.

Context `{Config}.

Lemma record_with_ops (op : Op) (ops : list Op) (fs : FileSystem) :
  record op (with_ops ops fs) = (Ok tt, with_ops (ops ++ [op]) fs).
Proof. reflexivity. Qed.

Lemma record_fs (op : Op) (fs : FileSystem) :
  record op fs = (Ok tt, with_ops (fs_ops fs ++ [op]) fs).
Proof. reflexivity. Qed.

Lemma io_bind_ok {A B} (m : IO A) (k : A -> IO B) (fs fs' : FileSystem) (a : A) :
  m fs = (Ok a, fs') -> (m ≫= k) fs = k a fs'.
Proof. intros E. unfold mbind, IO_bind. by rewrite E. Qed.

Lemma io_bind_raise {A B} (m : IO A) (k : A -> IO B) (fs fs' : FileSystem) (e : exn) :
  m fs = (Raise e, fs') -> (m ≫= k) fs = (Raise e, fs').
Proof. intros E. unfold mbind, IO_bind. by rewrite E. Qed.


End SyncFile.

Section SyncFileFirst.

Import Tree.

Context `{Config}.



Lemma stat_grows (rt rt' : Node) (p e : list string) (x : Node) :
  grows rt rt' -> stat rt p = Some (e, x) ->
  exists x', stat rt' p = Some (e, x') /\ kind_of x' = kind_of x.
Proof.
  intros [->|(q & n & Hput & Hnone)] Hs; [by exists x|].
  by eapply stat_put_fresh_chain.
Qed.

Lemma stat_grows_file (rt rt' : Node) (p e : list string) (i : nat) :
  grows rt rt' -> stat rt p = Some (e, File i) -> stat rt' p = Some (e, File i).
Proof.
  intros Hg Hs. destruct (stat_grows _ _ _ _ _ Hg Hs) as (x' & -> & Hk).
  by destruct x'; simplify_eq.
Qed.


Lemma path_is_file_stat (fs : FileSystem) (p : Path) :
  path_is_file fs p = true ->
  exists e i, stat (fs_root fs) (P.parts p) = Some (e, File i).
Proof.
  unfold path_is_file. destruct (stat _ _) as [[e [i|es|t]]|]; try done. eauto.
Qed.

Lemma path_exists_stat (fs : FileSystem) (p : Path) :
  path_exists fs p = true -> exists e x, stat (fs_root fs) (P.parts p) = Some (e, x).
Proof.
  unfold path_exists. destruct (stat _ _) as [[e x]|]; try done. eauto.
Qed.




End SyncFileFirst.

Section SyncFileRun.

Import Tree.

Context `{Config}.



Lemma log_info_run (msg : string) (fs : FileSystem) :
  log_info msg fs = (Ok tt, with_ops (fs_ops fs ++ [OpLogInfo msg]) fs).
Proof. reflexivity. Qed.

Lemma with_ops_with_ops (ops ops' : list Op) (fs : FileSystem) :
  with_ops ops (with_ops ops' fs) = with_ops ops fs.
Proof. reflexivity. Qed.


End SyncFileRun.

(** ** Copying a tree *)

Section CopyFacts.

Import Tree.

Lemma Node_nested_ind (Q : Node -> Prop) :
  (forall i, Q (File i)) ->
  (forall es, Forall (fun e => Q e.2) es -> Q (Dir es)) ->
  (forall t, Q (Symlink t)) ->
  forall n, Q n.
Proof.
  intros Hf Hd Hs. fix IH 1. intros [i|es|t]; [apply Hf| |apply Hs].
  apply Hd. induction es as [|[k c] es IHes]; constructor; [apply IH|apply IHes].
Qed.











End CopyFacts.

Section CopyNode.

Import Tree.

Variable rt : Node.
Variable hard : bool.

Lemma copy_node_dir (links : bool) (here : list string) (es : list (string * Node))
    (T : gmap nat FileData) :
  copy_node rt links hard here (Dir es) T =
    let '(es', T', err) :=
      copy_entries (fun k c => copy_node rt links hard (here ++ [k]) c) es T in
    (Some (Dir es'), T', err).
Proof. reflexivity. Qed.

Lemma copy_entries_cons (f : string -> Node -> gmap nat FileData -> CopyOut)
    (e : string * Node) (es : list (string * Node)) (T : gmap nat FileData) :
  copy_entries f (e :: es) T =
    let '(c', T1, err1) := f e.1 e.2 T in
    let '(es'', T2, err2) := copy_entries f es T1 in
    (match c' with
     | Some c' => (e.1, c') :: es''
     | None => es''
     end, T2, err1 || err2).
Proof. reflexivity. Qed.



End CopyNode.

(** ** Static sync of a directory *)

Section DirOps.

Import Tree.

Lemma copytree_at_ops (l : bool) (s d : list string) (ops : list Op) (fs : FileSystem) :
  copytree_at l s d (with_ops ops fs)
  = ((copytree_at l s d fs).1, with_ops ops (copytree_at l s d fs).2).
Proof.
  unfold copytree_at; simpl.
  repeat (match goal with
          | |- context [match ?x with _ => _ end] => destruct x eqn:?; simpl
          end; try reflexivity).
Qed.

Lemma rmtree_at_ops (d : list string) (ops : list Op) (fs : FileSystem) :
  rmtree_at d (with_ops ops fs) = ((rmtree_at d fs).1, with_ops ops (rmtree_at d fs).2).
Proof.
  unfold rmtree_at; simpl.
  repeat (match goal with
          | |- context [match ?x with _ => _ end] => destruct x eqn:?; simpl
          end; try reflexivity).
Qed.


Lemma rmtree_run (d : list string) (fs : FileSystem) :
  rmtree d fs = ((rmtree_at d fs).1, with_ops (fs_ops fs ++ [OpRmtree d]) (rmtree_at d fs).2).
Proof.
  unfold rmtree. rewrite (io_bind_ok _ _ _ _ _ (record_fs _ fs)).
  by rewrite rmtree_at_ops.
Qed.


(** When [copytree] with links has raised, the plain [copytree] that the
    handler tries raises too: either nothing was done and it fails the same
    way, or the destination has been made and is now in the way. *)
Lemma copytree_fallback_raises (s d : list string) (fs fs' : FileSystem) (e : exn)
    (ops : list Op) :
  copytree_at true s d fs = (Raise e, fs') ->
  exists e' fs'', copytree_at false s d (with_ops ops fs') = (Raise e', fs'').
Proof.
  rewrite copytree_at_ops. unfold copytree_at at 1.
  destruct (stat (fs_root fs) s) as [[sp [i|es|t]]|] eqn:Es;
    try (intros [= <- <-]; unfold copytree_at; rewrite Es; simpl; by eexists _, _).
  destruct (makedirs (fs_root fs) d) as [rt1|e0] eqn:Em;
    [|intros [= <- <-]; unfold copytree_at; rewrite Es, Em; simpl; by eexists _, _].
  rewrite copy_node_dir.
  destruct (copy_entries _ es (fs_inodes fs)) as [[es' T'] err] eqn:Ec.
  destruct (makedirs_put_some _ _ _ (Dir es') Em) as [rt2 Ep]. rewrite Ep.
  destruct err; [|done]. intros [= <- <-].
  unfold copytree_at; cbn [fs_root set_tree].
  destruct (stat rt2 s) as [[sp' [i'|es2|t']]|]; simpl; try by eexists _, _.
  destruct (makedirs_exists_raises rt2 d) as (e' & -> & _).
  { rewrite (put_get_self _ _ _ _ Ep). by eexists. }
  simpl. by eexists _, _.
Qed.


Lemma view_node_view (fs : FileSystem) (p : list string) :
  view fs p = node_view (fs_inodes fs) (fs_root fs) p.
Proof. reflexivity. Qed.



Lemma node_view_nil_dir (T : gmap nat FileData) (n : Node) :
  node_view T n [] = Some VDir -> kind_of n = KDir.
Proof. unfold node_view; simpl. by destruct n. Qed.


End DirOps.

Section SyncDir.

Context `{Config}.


Lemma copytree_at_ok (l : bool) (s d sp : list string) (es : list (string * Node))
    (rt1 dn rt2 : Node) (T' : gmap nat FileData) (fs : FileSystem) :
  Tree.stat (fs_root fs) s = Some (sp, Dir es) ->
  Tree.makedirs (fs_root fs) d = Ok rt1 ->
  copy_node (fs_root fs) l (fs_hardlinks fs) sp (Dir es) (fs_inodes fs) = (Some dn, T', false) ->
  Tree.put rt1 d dn = Some rt2 ->
  copytree_at l s d fs = (Ok tt, set_tree rt2 T' fs).
Proof. intros Hs Hm Hc Hp. unfold copytree_at. by rewrite Hs, Hm, Hc, Hp. Qed.




Lemma dir_in_sync_dst_dir (s d : list string) (es : list (string * Node))
    (fs : FileSystem) :
  dir_in_sync s d es fs -> exists esd, Tree.get (fs_root fs) d = Some (Dir esd).
Proof.
  intros (_ & _ & dn & Hd & Hv).
  pose proof (Hv []) as Hv0. apply node_view_nil_dir in Hv0.
  destruct dn; try done. by eexists.
Qed.






End SyncDir.


(** ** The theorems at concrete inputs *)


Section Examples.

#[local] Existing Instance identity_util.
#[local] Existing Instance first_occurrence_order.
#[local] Existing Instance permissive_netloc_checks.
#[local] Existing Instance sample_document_lib.
#[local] Existing Instance sample_templates.
#[local] Existing Instance site_config.

(** Nothing is cached in the initial state. *)
Lemma initial_state_ok : state_ok initial_state.
Proof. split; intros ? [=]. Qed.

(** C5 at the first access on a resource whose description is generated. *)
Lemma absolutized_description_is_independent_copy_witness :
  let r := project_foo in
  let run := description_with_absolute_urls (H0:=foo_view) r initial_state in
  exists a st',
    state_ok initial_state /\
    run = Ok (a, st') /\
    exists d c,
      description_cache st' = Some d /\
      (forall d0, description_cache initial_state = Some d0 ->
                  d0 = d /\ get_document d initial_state = Ok (c, initial_state)) /\
      (description_cache initial_state = None ->
       description_content (H0:=foo_view) r = Ok c) /\
      get_document d st' = Ok (c, st') /\
      separate (heap st') d a /\
      (forall fn st'', rewrite_urls a fn st' = Ok (tt, st'') ->
                       get_document d st'' = Ok (c, st'')) /\
      (forall title ta o l, heap st' !! a = Some (ODocument title ta) ->
                            l = a \/ l = ta ->
                            get_document d (set_heap (<[l := o]> (heap st')) st')
                              = Ok (c, set_heap (<[l := o]> (heap st')) st')) /\
      state_ok st'.
Proof.
  intros r run. eexists _, _.
  split; [exact initial_state_ok|].
  match goal with
  | |- ?lhs = ?rhs /\ _ => assert (Hrun : lhs = rhs) by (vm_compute; reflexivity)
  end.
  split; [exact Hrun|].
  exact (absolutized_description_is_independent_copy (H0:=foo_view) r initial_state _ _
           initial_state_ok Hrun).
Defined.


(** C2 at a directory holding [other.md], [foo.md] and [index.md]. *)
Lemma description_path_resolution_witness :
  let r := project_foo in
  let index := P.joins (path r) "index.md" in
  let named := P.joins (path r) (slug r +:+ ".md") in
  (forall p, p ∈ candidates (H0:=foo_three_md_view) r
             <-> p ∈ [index; named; P.joins (path r) "other.md"]) /\
  description_path (H0:=foo_three_md_view) r = Ok (Some index).
Proof.
  intros r index named.
  assert (Hc : forall p, p ∈ candidates (H0:=foo_three_md_view) r
                         <-> p ∈ [index; named; P.joins (path r) "other.md"]).
  { intros p.
    change (candidates (H0:=foo_three_md_view) r)
      with [P.joins (path r) "other.md"; named; index].
    rewrite !elem_of_cons, !elem_of_nil. tauto. }
  split; [exact Hc|].
  pose proof (description_path_resolution (H0:=foo_three_md_view) r) as Hthm.
  cbv zeta in Hthm.
  exact (proj2 (proj2 (proj2 (proj2 (proj2 (proj2 (proj2 Hthm)))))) Hc).
Defined.

(** C8 at a resource whose description declares [a.png], [/abs/v1.svg] and
    [missing.png]: the asset [projects/foo/v1.0] goes to [/abs/v1.svg], the
    asset [projects/foo/a.png] to [a.png] under the page directory. *)
Lemma absolute_dependency_destination_verbatim_witness :
  let r := project_foo in
  exists st1 page evs,
    build_resource (H0:=foo_view) r initial_state
      = Ok (P.of_string "/out/projects/foo/index.html",
            add_events ([LogInfo "foo -> /out/projects/foo/index.html";
                         Mkdir (P.of_string "/out/projects/foo");
                         WriteText (P.of_string "/out/projects/foo/index.html") page]
                        ++ evs) st1) /\
    length evs = 3 /\
    evs !! 0 = Some (AssetTo (mkAsset (P.of_string "projects/foo/a.png"))
                             (P.of_string "/out/projects/foo/a.png")) /\
    evs !! 1 = Some (AssetTo (mkAsset (P.of_string "projects/foo/v1.0"))
                             (P.of_string "/abs/v1.svg")) /\
    reconcile_dependency (asset_index [P.of_string "projects/foo/v1.0"])
        (P.of_string "/out/projects/foo") "/abs/v1.svg" initial_state
      = Ok (tt, add_events [AssetTo (mkAsset (P.of_string "projects/foo/v1.0"))
                                    (P.of_string "/abs/v1.svg")] initial_state).
Proof.
  intros r.
  pose proof (absolute_dependency_destination_verbatim (H0:=foo_view)) as [Hbody Hbuild].
  assert (Hrun : exists d st1 doc,
            description (H0:=foo_view) r initial_state = Ok (d, st1) /\
            get_document d st1 = Ok (doc, st1) /\
            iter_dependencies doc = ["a.png"; "/abs/v1.svg"; "missing.png"]).
  { eexists _, _, _. split_and!; vm_compute; reflexivity. }
  destruct Hrun as (d & st1 & doc & H1 & H2 & Hdeps).
  assert (H3 : asset_paths (H0:=foo_view) r
               = Ok [P.of_string "projects/foo/a.png"; P.of_string "projects/foo/v1.0"])
    by (vm_compute; reflexivity).
  destruct (Hbuild r initial_state st1 d doc _ H1 H2 H3) as (evs & E & Hlen & Hev).
  exists st1, (render_resource_page (doc_title doc) (inner_html doc)), evs.
  split; [exact E|]. rewrite Hdeps in Hlen, Hev.
  split; [exact Hlen|].
  split; [exact (proj2 (Hev 0 "a.png" eq_refl) eq_refl)|].
  split; [exact (proj1 (Hev 1 "/abs/v1.svg" eq_refl) eq_refl)|].
  exact (proj1 (Hbody _ (P.of_string "/out/projects/foo") "/abs/v1.svg" initial_state)
           eq_refl).
Defined.

End Examples.

(** * Further properties of the code *)

(** ** URLs: which ones the absolutizer takes for relative *)

Section UrlShapes.

Context `{NetlocChecks}.

Lemma remove_app (p : ascii -> bool) (a b : string) :
  Str.remove p (a +:+ b) = Str.remove p a +:+ Str.remove p b.
Proof.
  induction a as [|c a IH]; simpl; [done|].
  destruct (p c); simpl; by rewrite IH.
Qed.

Lemma remove_all_neg (p q : ascii -> bool) (s : string) :
  (forall a, q a = true -> p a = false) ->
  Str.all q s = true -> Str.remove p s = s.
Proof.
  intros Hpq. induction s as [|c s IH]; simpl; [done|].
  intros [Hc Hs]%andb_prop. rewrite (Hpq c Hc). by rewrite IH.
Qed.

Lemma cut_cons (c a : ascii) (t : string) :
  (cut c (String a t)).1 = if Ascii.eqb a c then "" else String a (cut c t).1.
Proof.
  unfold cut, Str.contains, Str.split_once. simpl.
  destruct (Ascii.eqb a c); [done|].
  by destruct (Str.find c t).
Qed.

(** The path of a text that starts with [a]: empty when [a] opens the query
    or the fragment, starting with [a] otherwise. *)
Lemma path_of_cons (a : ascii) (t : string) :
  path_of (String a t)
  = if Ascii.eqb a "#" || Ascii.eqb a "?" then "" else String a (path_of t).
Proof.
  unfold path_of. rewrite cut_cons.
  destruct (Ascii.eqb a "#"); [done|]. simpl. by rewrite cut_cons.
Qed.

(** [urlsplit] on a URL in which it finds neither a scheme nor a network
    location. *)
Lemma urlsplit_plain (url : string) :
  (forall i, Str.find ":" (clean_url url) = Some (S i) ->
             first_is_ascii_alpha (clean_url url) = false) ->
  Str.startswith (clean_url url) "//" = false ->
  exists q f, urlsplit url "file" = Ok (mkSplit "file" "" (path_of (clean_url url)) q f).
Proof.
  intros Hscheme Hnet. unfold urlsplit. fold (clean_url url).
  change (Str.remove is_unsafe_url_byte (Str.strip is_c0_control_or_space "file"))
    with "file".
  set (u := clean_url url) in *.
  assert (Hs : match Str.find ":" u with
               | Some (S i) =>
                   if first_is_ascii_alpha u && Str.all is_scheme_char (Str.take (S i) u)
                   then (Str.lower (Str.take (S i) u), Str.drop (S (S i)) u)
                   else ("file", u)
               | _ => ("file", u)
               end = ("file", u)).
  { destruct (Str.find ":" u) as [[|i]|] eqn:E; try done.
    by rewrite (Hscheme i). }
  rewrite Hs, Hnet. cbn [result_bind mbind]. unfold path_of, cut.
  destruct (if Str.contains "#" u then _ else _) as [u1 f] eqn:E1. cbn [fst].
  destruct (if Str.contains "?" u1 then _ else _) as [u2 q] eqn:E2. cbn [fst].
  by exists q, f.
Qed.

Lemma startswith_char (a c : ascii) (t : string) :
  Str.startswith (String a t) (String c "") = Ascii.eqb a c.
Proof.
  unfold Str.startswith. simpl. destruct (ascii_dec c a) as [->|Hn].
  - rewrite Ascii.eqb_refl. by destruct t.
  - symmetry. apply Ascii.eqb_neq. congruence.
Qed.

Lemma startswith_cons_ne (a c : ascii) (t p : string) :
  a <> c -> Str.startswith (String a t) (String c p) = false.
Proof.
  intros Hn. unfold Str.startswith. cbn [String.prefix].
  destruct (ascii_dec c a) as [->|_]; [done|reflexivity].
Qed.

Lemma startswith_nil (c : ascii) : Str.startswith "" (String c "") = false.
Proof. reflexivity. Qed.

Lemma unsafe_is_c0 (a : ascii) :
  is_c0_control_or_space a = false -> is_unsafe_url_byte a = false.
Proof.
  unfold is_c0_control_or_space, is_unsafe_url_byte.
  intros Hc%Nat.leb_gt.
  repeat match goal with
         | |- context [Nat.eqb ?x ?y] => destruct (Nat.eqb_spec x y); [lia|]
         end.
  done.
Qed.

Lemma clean_url_cons (a : ascii) (s : string) :
  is_c0_control_or_space a = false ->
  clean_url (String a s) = String a (Str.remove is_unsafe_url_byte s).
Proof.
  intros Hc. unfold clean_url. simpl. rewrite Hc. simpl.
  by rewrite (unsafe_is_c0 a Hc).
Qed.

Lemma find_cons_S (c a : ascii) (t : string) (i : nat) :
  Str.find c (String a t) = Some (S i) -> Ascii.eqb a c = false.
Proof. simpl. by destruct (Ascii.eqb a c). Qed.

(** A URL that starts with a slash, and does not start with two once tabs
    and line breaks are removed, is not relative. *)
Lemma is_relative_url_slash (s : string) :
  Str.startswith (Str.remove is_unsafe_url_byte s) "/" = false ->
  is_relative_url (String "/" s) = Ok false.
Proof.
  intros Hs.
  assert (Hc : clean_url (String "/" s) = String "/" (Str.remove is_unsafe_url_byte s))
    by (by apply clean_url_cons).
  destruct (urlsplit_plain (String "/" s)) as (q & f & E).
  - intros i _. by rewrite Hc.
  - rewrite Hc. exact Hs.
  - unfold is_relative_url. rewrite E. cbn [result_bind mbind url_scheme url_path].
    rewrite Hc, path_of_cons. cbn [Ascii.eqb orb Bool.eqb]. by rewrite startswith_char.
Qed.

(** X1: a root-relative URL is never rewritten.  Every URL that starts with
    one slash, the slash not being followed by a second one once tabs and
    line breaks are taken out, is returned as it is. *)
Theorem absolutize_url_root_relative (r : Resource) (s : string) :
  Str.startswith (Str.remove is_unsafe_url_byte s) "/" = false ->
  absolutize_url r (String "/" s) = Ok (String "/" s).
Proof.
  intros Hs. apply absolutize_url_not_relative. by apply is_relative_url_slash.
Qed.

(** X2: absolutizing is idempotent.  What the absolutizer makes of a relative
    URL is a URL it leaves alone, so rewriting the URLs of an already
    rewritten document would change nothing. *)
Theorem absolutize_url_idempotent (r : Resource) (url out : string) :
  absolutize_url r url = Ok out -> absolutize_url r out = Ok out.
Proof.
  destruct (is_relative_url url) as [[|]|e] eqn:E.
  - rewrite (absolutize_url_relative _ _ E). intros [= <-]. unfold absolute_form.
    destruct (cls r); apply absolutize_url_not_relative, is_relative_url_slash;
      reflexivity.
  - rewrite (absolutize_url_not_relative _ _ E). intros [= <-].
    by apply absolutize_url_not_relative.
  - unfold absolutize_url. by rewrite E.
Qed.

(** X3: a URL that starts with a character other than a letter, a slash, a
    space or a control character is relative and is rewritten, whatever
    follows: a same-page anchor ([#top]), a bare query ([?page=2]), a dotted
    path ([./img.png], [../x]) or a name starting with a digit or an
    underscore. *)
Theorem absolutize_url_nonletter_start (r : Resource) (a : ascii) (s : string) :
  is_c0_control_or_space a = false ->
  Str.is_ascii_alpha a = false ->
  a <> "/"%char ->
  absolutize_url r (String a s) = Ok (absolute_form r (String a s)).
Proof.
  intros Hc Halpha Hslash. apply absolutize_url_relative.
  assert (Hu : clean_url (String a s) = String a (Str.remove is_unsafe_url_byte s))
    by (by apply clean_url_cons).
  assert (Hne : Ascii.eqb a "/" = false) by (by apply Ascii.eqb_neq).
  destruct (urlsplit_plain (String a s)) as (q & f & E).
  - intros i _. rewrite Hu. exact Halpha.
  - rewrite Hu. by apply startswith_cons_ne.
  - unfold is_relative_url. rewrite E. cbn [result_bind mbind url_scheme url_path].
    rewrite Hu, path_of_cons.
    destruct (Ascii.eqb a "#" || Ascii.eqb a "?"); [reflexivity|].
    by rewrite startswith_char, Hne.
Qed.

Lemma alpha_not_c0 (a : ascii) :
  Str.is_ascii_alpha a = true -> is_c0_control_or_space a = false.
Proof.
  unfold Str.is_ascii_alpha, Str.in_range, is_c0_control_or_space.
  intros Ha. apply Nat.leb_gt.
  apply orb_prop in Ha as [Ha|Ha]; apply andb_prop in Ha as [Ha%Nat.leb_le _]; lia.
Qed.

Lemma ascii_of_code (a : ascii) (n : nat) : nat_of_ascii a = n -> a = ascii_of_nat n.
Proof. intros <-. by rewrite ascii_nat_embedding. Qed.

Lemma scheme_char_safe (a : ascii) :
  is_scheme_char a = true -> is_unsafe_url_byte a = false.
Proof.
  intros Ha. unfold is_unsafe_url_byte.
  repeat match goal with
         | |- context [Nat.eqb (nat_of_ascii a) ?n] =>
             destruct (Nat.eqb_spec (nat_of_ascii a) n) as [E%ascii_of_code|_];
             [subst a; by vm_compute in Ha|]
         end.
  done.
Qed.

Lemma scheme_char_not_colon (a : ascii) :
  is_scheme_char a = true -> Ascii.eqb a ":" = false.
Proof.
  intros Ha. destruct (Ascii.eqb_spec a ":") as [->|_]; [by vm_compute in Ha|done].
Qed.

Lemma find_after_all (q : ascii -> bool) (c : ascii) (s x : string) :
  (forall a, q a = true -> Ascii.eqb a c = false) ->
  Str.all q s = true ->
  Str.find c (s +:+ String c x) = Some (String.length s).
Proof.
  intros Hq. induction s as [|a s IH]; simpl.
  - by rewrite Ascii.eqb_refl.
  - intros [Ha Hs]%andb_prop. by rewrite (Hq a Ha), (IH Hs).
Qed.

Lemma take_app_length (s x : string) : Str.take (String.length s) (s +:+ x) = s.
Proof.
  induction s as [|a s IH]; simpl; [by destruct x|]. by rewrite IH.
Qed.

Lemma drop_app_length (s x : string) : Str.drop (String.length s) (s +:+ x) = x.
Proof. induction s as [|a s IH]; simpl; [by destruct x|]. exact IH. Qed.

(** Every failure of [urlsplit] is a [ValueError], and the scheme it reports
    for a URL that opens with a well-formed scheme and a colon is that
    scheme in lower case. *)
Lemma urlsplit_with_scheme (url sch rest : string) :
  clean_url url = sch +:+ String ":" rest ->
  first_is_ascii_alpha sch = true ->
  Str.all is_scheme_char sch = true ->
  urlsplit url "file" = Raise ValueError \/
  exists u, urlsplit url "file" = Ok u /\ url_scheme u = Str.lower sch.
Proof.
  intros Hu Hfirst Hall. unfold urlsplit. fold (clean_url url).
  change (Str.remove is_unsafe_url_byte (Str.strip is_c0_control_or_space "file"))
    with "file".
  rewrite Hu.
  rewrite (find_after_all is_scheme_char ":" sch rest scheme_char_not_colon Hall).
  destruct sch as [|a sch']; [done|].
  cbn [String.length].
  change (S (String.length sch')) with (String.length (String a sch')).
  rewrite take_app_length.
  assert (Hf : first_is_ascii_alpha (String a sch' +:+ String ":" rest) = true) by exact Hfirst.
  rewrite Hf, Hall. cbn [andb].
  set (tail := Str.drop _ _).
  destruct (Str.startswith tail "//").
  - destruct (splitnetloc2 tail) as [netloc rest'].
    destruct (_ || _); [by left|].
    destruct (_ && _); [by left|].
    cbn [result_bind mbind].
    destruct (if Str.contains "#" rest' then _ else _) as [u1 f].
    destruct (if Str.contains "?" u1 then _ else _) as [u2 q].
    destruct (checknetloc netloc); [|by left]. right. by eexists.
  - cbn [result_bind mbind].
    destruct (if Str.contains "#" tail then _ else _) as [u1 f].
    destruct (if Str.contains "?" u1 then _ else _) as [u2 q].
    destruct (checknetloc ""); [|by left]. right. by eexists.
Qed.

(** X4: a URL with a scheme other than [file] is never rewritten.  For every
    well-formed scheme (a letter, then letters, digits, [+], [-], [.]) that
    is not [file] in any case, and whatever follows the colon, the
    absolutizer returns the URL as it is or raises [ValueError]; links such
    as [mailto:], [data:] or [HTTPS://] pass through. *)
Theorem absolutize_url_other_scheme (r : Resource) (sch rest : string) :
  first_is_ascii_alpha sch = true ->
  Str.all is_scheme_char sch = true ->
  Str.lower sch <> "file" ->
  let url := sch +:+ String ":" rest in
  absolutize_url r url = Ok url \/ absolutize_url r url = Raise ValueError.
Proof.
  intros Hfirst Hall Hfile url.
  assert (Hu : clean_url url = sch +:+ String ":" (Str.remove is_unsafe_url_byte rest)).
  { unfold url. destruct sch as [|a sch']; [done|].
    change (String a sch' +:+ String ":" rest) with (String a (sch' +:+ String ":" rest)).
    rewrite clean_url_cons by (by apply alpha_not_c0).
    rewrite remove_app. simpl in Hall. apply andb_prop in Hall as [_ Hall'].
    rewrite (remove_all_neg _ _ _ scheme_char_safe Hall'). by simpl. }
  destruct (urlsplit_with_scheme url sch _ Hu Hfirst Hall) as [E|(u & E & Hsch)].
  - right. unfold absolutize_url, is_relative_url. by rewrite E.
  - left. apply absolutize_url_not_relative. unfold is_relative_url. rewrite E.
    cbn [result_bind mbind]. rewrite Hsch.
    destruct (String.eqb_spec (Str.lower sch) "file"); done.
Qed.

Lemma all_impl (q p : ascii -> bool) (s : string) :
  (forall a, q a = true -> p a = true) -> Str.all q s = true -> Str.all p s = true.
Proof.
  intros Hqp. induction s as [|a s IH]; simpl; [done|].
  intros [Ha Hs]%andb_prop. by rewrite (Hqp a Ha), (IH Hs).
Qed.

Lemma find_if_none (q p : ascii -> bool) (s : string) :
  (forall a, q a = true -> p a = false) ->
  Str.all q s = true -> Str.find_if p s = None.
Proof.
  intros Hq. induction s as [|a s IH]; simpl; [done|].
  intros [Ha Hs]%andb_prop. by rewrite (Hq a Ha), (IH Hs).
Qed.

Lemma find_if_after_all (q p : ascii -> bool) (c : ascii) (s x : string) :
  (forall a, q a = true -> p a = false) ->
  Str.all q s = true -> p c = true ->
  Str.find_if p (s +:+ String c x) = Some (String.length s).
Proof.
  intros Hq Hs Hc. induction s as [|a s IH]; simpl.
  - by rewrite Hc.
  - simpl in Hs. apply andb_prop in Hs as [Ha Hs]. by rewrite (Hq a Ha), (IH Hs).
Qed.

Lemma contains_none (q : ascii -> bool) (c : ascii) (s : string) :
  (forall a, q a = true -> Ascii.eqb a c = false) ->
  Str.all q s = true -> Str.contains c s = false.
Proof.
  intros Hq. unfold Str.contains. induction s as [|a s IH]; simpl; [done|].
  intros [Ha Hs]%andb_prop. rewrite (Hq a Ha).
  specialize (IH Hs). by destruct (Str.find c s).
Qed.

Lemma append_nil_r (s : string) : s +:+ "" = s.
Proof.
  induction s as [|a s IH]; [done|].
  change (String a (s +:+ "") = String a s). by rewrite IH.
Qed.

Lemma plain_host_char_inv (a : ascii) :
  is_plain_host_char a = true ->
  Str.isascii a = true /\ is_netloc_delim a = false /\
  Ascii.eqb a "[" = false /\ Ascii.eqb a "]" = false /\ is_unsafe_url_byte a = false.
Proof.
  unfold is_plain_host_char. intros Ha.
  repeat (apply andb_prop in Ha as [Ha ?]).
  split_and!; try done; by apply negb_true_iff.
Qed.

(** [urlsplit] on a URL made of two slashes, a plain host name and either
    nothing or a tail that a delimiter opens. *)
Lemma urlsplit_plain_host (host tail : string) :
  Str.all is_plain_host_char host = true ->
  (tail = "" \/ exists c t, tail = String c t /\ is_netloc_delim c = true) ->
  exists q f,
    urlsplit ("//" +:+ host +:+ tail) "file"
    = Ok (mkSplit "file" host (path_of (Str.remove is_unsafe_url_byte tail)) q f).
Proof.
  intros Hhost Htail.
  set (rt := Str.remove is_unsafe_url_byte tail).
  assert (Hrt : rt = "" \/ exists c t, rt = String c t /\ is_netloc_delim c = true).
  { destruct Htail as [->|(c & t & -> & Hc)]; [by left|]. right.
    exists c, (Str.remove is_unsafe_url_byte t). split; [|done].
    unfold rt. simpl.
    assert (Hs : is_unsafe_url_byte c = false).
    { revert Hc. unfold is_netloc_delim.
      destruct (Ascii.eqb_spec c "/") as [->|_]; [done|].
      destruct (Ascii.eqb_spec c "?") as [->|_]; [done|].
      destruct (Ascii.eqb_spec c "#") as [->|_]; done. }
    by rewrite Hs. }
  assert (Hu : clean_url ("//" +:+ host +:+ tail) = String "/" (String "/" (host +:+ rt))).
  { change ("//" +:+ host +:+ tail) with (String "/" (String "/" (host +:+ tail))).
    rewrite clean_url_cons by done.
    change (Str.remove is_unsafe_url_byte (String "/" (host +:+ tail)))
      with (String "/" (Str.remove is_unsafe_url_byte (host +:+ tail))).
    rewrite remove_app.
    rewrite (remove_all_neg _ is_plain_host_char host); [reflexivity| |exact Hhost].
    intros a Ha. by destruct (plain_host_char_inv a Ha) as (? & ? & ? & ? & ?). }
  unfold urlsplit. fold (clean_url ("//" +:+ host +:+ tail)).
  change (Str.remove is_unsafe_url_byte (Str.strip is_c0_control_or_space "file"))
    with "file".
  rewrite Hu. set (u := String "/" (String "/" (host +:+ rt))).
  assert (Hs : match Str.find ":" u with
               | Some (S i) =>
                   if first_is_ascii_alpha u && Str.all is_scheme_char (Str.take (S i) u)
                   then (Str.lower (Str.take (S i) u), Str.drop (S (S i)) u)
                   else ("file", u)
               | _ => ("file", u)
               end = ("file", u)).
  { by destruct (Str.find ":" u) as [[|i]|]. }
  rewrite Hs.
  assert (Hst : Str.startswith u "//" = true).
  { unfold u, Str.startswith. cbn [String.prefix].
    destruct (ascii_dec "/" "/"); [|done]. by destruct (host +:+ rt). }
  rewrite Hst.
  assert (Hsplit : splitnetloc2 u = (host, rt)).
  { unfold splitnetloc2. change (Str.drop 2 u) with (host +:+ rt).
    destruct Hrt as [->|(c & t & -> & Hc)].
    - rewrite append_nil_r.
      rewrite (find_if_none is_plain_host_char); [done| |done].
      intros a Ha. by destruct (plain_host_char_inv a Ha) as (? & ? & ? & ? & ?).
    - rewrite (find_if_after_all is_plain_host_char); [|intros a Ha|done|done].
      + by rewrite take_app_length, drop_app_length.
      + by destruct (plain_host_char_inv a Ha) as (? & ? & ? & ? & ?). }
  rewrite Hsplit.
  rewrite (contains_none is_plain_host_char "[" host), (contains_none is_plain_host_char "]" host);
    try done; try (intros a Ha; by destruct (plain_host_char_inv a Ha) as (? & ? & ? & ? & ?)).
  cbn [andb orb negb result_bind mbind].
  assert (Hck : checknetloc host = true).
  { unfold checknetloc.
    rewrite (all_impl is_plain_host_char Str.isascii host); [by rewrite orb_true_r| |done].
    intros a Ha. by destruct (plain_host_char_inv a Ha) as (? & ? & ? & ? & ?). }
  unfold path_of, cut.
  destruct (if Str.contains "#" rt then _ else _) as [u1 f]. cbn [fst].
  destruct (if Str.contains "?" u1 then _ else _) as [u2 q]. cbn [fst].
  rewrite Hck. by exists q, f.
Qed.

(** X5: a protocol-relative URL is left alone only when it has a path.  For a
    plain host name, [//host/...] is returned as it is, but the bare
    [//host] (and [//host?...], [//host#...]) has an empty path, counts as
    relative and is rewritten to [/{collectionKind}/{slug}///host]. *)
Theorem absolutize_url_protocol_relative (r : Resource) (host t : string) :
  Str.all is_plain_host_char host = true ->
  absolutize_url r ("//" +:+ host) = Ok (absolute_form r ("//" +:+ host)) /\
  absolutize_url r ("//" +:+ host +:+ String "?" t)
    = Ok (absolute_form r ("//" +:+ host +:+ String "?" t)) /\
  absolutize_url r ("//" +:+ host +:+ String "/" t) = Ok ("//" +:+ host +:+ String "/" t).
Proof.
  intros Hhost. split_and!.
  - destruct (urlsplit_plain_host host "" Hhost) as (q & f & E); [by left|].
    rewrite append_nil_r in E.
    apply absolutize_url_relative. unfold is_relative_url. by rewrite E.
  - destruct (urlsplit_plain_host host (String "?" t) Hhost) as (q & f & E).
    { right. by eexists _, _. }
    apply absolutize_url_relative. unfold is_relative_url. rewrite E.
    cbn [result_bind mbind url_scheme url_path].
    change (Str.remove is_unsafe_url_byte (String "?" t))
      with (String "?" (Str.remove is_unsafe_url_byte t)).
    by rewrite path_of_cons.
  - destruct (urlsplit_plain_host host (String "/" t) Hhost) as (q & f & E).
    { right. by eexists _, _. }
    apply absolutize_url_not_relative. unfold is_relative_url. rewrite E.
    cbn [result_bind mbind url_scheme url_path].
    change (Str.remove is_unsafe_url_byte (String "/" t))
      with (String "/" (Str.remove is_unsafe_url_byte t)).
    rewrite path_of_cons. cbn [Ascii.eqb orb Bool.eqb]. by rewrite startswith_char.
Qed.

End UrlShapes.

Lemma absolutize_url_root_relative_witness :
  Str.startswith (Str.remove is_unsafe_url_byte "other/page") "/" = false /\
  absolutize_url (H:=permissive_netloc_checks) project_foo "/other/page" = Ok "/other/page".
Proof.
  split; [reflexivity|].
  exact (absolutize_url_root_relative (H:=permissive_netloc_checks) project_foo
           "other/page" eq_refl).
Defined.

Lemma absolutize_url_idempotent_witness :
  absolutize_url (H:=permissive_netloc_checks) project_foo "img.png"
    = Ok "/projects/foo/img.png" /\
  absolutize_url (H:=permissive_netloc_checks) project_foo "/projects/foo/img.png"
    = Ok "/projects/foo/img.png".
Proof.
  split; [reflexivity|].
  exact (absolutize_url_idempotent (H:=permissive_netloc_checks) project_foo
           "img.png" "/projects/foo/img.png" eq_refl).
Defined.

Lemma absolutize_url_nonletter_start_witness :
  is_c0_control_or_space "#" = false /\
  Str.is_ascii_alpha "#" = false /\
  "#"%char <> "/"%char /\
  absolutize_url (H:=permissive_netloc_checks) project_foo "#top"
    = Ok "/projects/foo/#top".
Proof.
  split_and!; [reflexivity|reflexivity|discriminate|].
  exact (absolutize_url_nonletter_start (H:=permissive_netloc_checks) project_foo
           "#" "top" eq_refl eq_refl ltac:(discriminate)).
Defined.

Lemma absolutize_url_other_scheme_witness :
  first_is_ascii_alpha "mailto" = true /\
  Str.all is_scheme_char "mailto" = true /\
  Str.lower "mailto" <> "file" /\
  (absolutize_url (H:=permissive_netloc_checks) project_foo "mailto:a@b.c"
     = Ok "mailto:a@b.c" \/
   absolutize_url (H:=permissive_netloc_checks) project_foo "mailto:a@b.c"
     = Raise ValueError).
Proof.
  split_and!; [reflexivity|reflexivity|discriminate|].
  exact (absolutize_url_other_scheme (H:=permissive_netloc_checks) project_foo
           "mailto" "a@b.c" eq_refl eq_refl ltac:(discriminate)).
Defined.

Lemma absolutize_url_protocol_relative_witness :
  Str.all is_plain_host_char "cdn.example.com" = true /\
  absolutize_url (H:=permissive_netloc_checks) project_foo "//cdn.example.com"
    = Ok "/projects/foo///cdn.example.com" /\
  absolutize_url (H:=permissive_netloc_checks) project_foo "//cdn.example.com/a.js"
    = Ok "//cdn.example.com/a.js".
Proof.
  split; [reflexivity|].
  pose proof (absolutize_url_protocol_relative (H:=permissive_netloc_checks) project_foo
                "cdn.example.com" "a.js" eq_refl) as (H1 & _ & H3).
  split; [exact H1|exact H3].
Defined.

(** ** Resources: discovery, unreadable directories, generated descriptions *)

Lemma relative_to_child (p : Path) (n : string) :
  P.relative_to (P.child p n) p = Ok (mkPath NoRoot [n]).
Proof.
  unfold P.relative_to.
  assert (Ha : P.abs_parts (P.child p n) = P.abs_parts p ++ [n]).
  { unfold P.abs_parts, P.child. simpl. by destruct (root p). }
  rewrite Ha. rewrite firstn_app, Nat.sub_diag, firstn_all, app_nil_r.
  rewrite skipn_app, Nat.sub_diag, skipn_all, app_nil_l. simpl.
  unfold P.list_eqb. rewrite bool_decide_true by done. simpl.
  destruct (Nat.eqb_spec (length (P.abs_parts p)) 0) as [E0|N0].
  - assert (Hr : root p = NoRoot).
    { unfold P.abs_parts in E0. by destruct (root p). }
    unfold P.is_absolute, P.child. simpl. rewrite Hr.
    by destruct (Nat.eqb_spec (length (P.abs_parts p)) 1).
  - destruct (Nat.eqb_spec (length (P.abs_parts p)) 1) as [E1|N1]; [|done].
    assert (Hr : root p = NoRoot).
    { unfold P.abs_parts in E1. by destruct (root p). }
    unfold P.child. simpl. by rewrite Hr.
Qed.

Lemma py_next_filter_default {A} (f : A -> bool) (l : list A) (d : A) :
  py_next (List.filter f l) (Some d) = Ok (default d (List.find f l)).
Proof.
  rewrite <- head_filter_find. by destruct (List.filter f l).
Qed.

Section MoreResources.

Context `{Util} `{DirView} `{SetOrder}.

Lemma asset_paths_children (r : Resource) (assets : list Path) (p : Path) :
  asset_paths r = Ok assets -> p ∈ assets -> exists n, p = P.child (path r) n.
Proof.
  unfold asset_paths, iterdir. destruct (scandir (path r)) as [entries|e]; [|done].
  intros [= <-] Hp. apply elem_of_filter_bool in Hp as [Hp _].
  apply list_elem_of_In, in_map_iff in Hp as (e & <- & _). by eexists.
Qed.

Lemma find_elem_of {A} (f : A -> bool) (l : list A) (x : A) :
  List.find f l = Some x -> x ∈ l.
Proof. intros Hf. apply find_some in Hf as [Hin _]. by apply list_elem_of_In. Qed.

(** X6: the generated description.  When the assets of a resource can be
    listed, [_generate_description] hands [Document.from_string] one text
    together with the slug: without assets, an empty line and the heading
    [# slug]; with assets, first one image, of the first asset whose
    sluggified stem is the slug, or else of the first asset, with the stem of
    that file as alternative text, the bare file name (relative to the
    resource directory) as address and the class list [.wide .headline] or
    [.headline] as [util.is_wide] answers.  The call returns a new document
    of the parsed content when the parser returns, and raises the error of
    the parser when the parser raises. *)
Theorem generated_description_text `{DocumentLib} (r : Resource) (assets : list Path) :
  asset_paths r = Ok assets ->
  let md :=
    match assets with
    | [] => newline +:+ "# " +:+ slug r
    | first :: _ =>
        let headline :=
          default first
            (List.find (fun p => String.eqb (sluggify (P.stem p)) (slug r)) assets) in
        let image :=
          "![" +:+ P.stem headline +:+ "](" +:+ P.name headline +:+ "){"
            +:+ (if is_wide headline then ".wide .headline" else ".headline")
            +:+ "}" in
        image +:+ newline +:+ "# " +:+ slug r
    end in
  generate_description_md r = Ok md /\
  (forall st, _generate_description r st
              = match from_string md (slug r) with
                | Ok c => new_document c st
                | Raise e => Raise e
                end) /\
  (forall st c, from_string md (slug r) = Ok c ->
     exists t d,
       _generate_description r st
         = Ok (d, set_heap (<[d := ODocument (doc_title c) t]>
                              (<[t := OTree (doc_body c) (doc_urls c)]> (heap st))) st) /\
       heap st !! t = None /\ heap st !! d = None /\ t <> d) /\
  (forall st e, from_string md (slug r) = Raise e ->
     _generate_description r st = Raise e).
Proof.
  intros Ha md.
  assert (Hmd : generate_description_md r = Ok md).
  { unfold generate_description_md. rewrite Ha.
    cbn [result_bind mbind]. unfold md.
    destruct assets as [|first rest]; [reflexivity|].
    rewrite py_next_filter_default. cbn [result_bind mbind].
    set (headline := default first _).
    assert (Hin : headline ∈ first :: rest).
    { unfold headline.
      destruct (List.find _ (first :: rest)) as [x|] eqn:Ef; simpl.
      - by apply find_elem_of in Ef.
      - by left. }
    destruct (asset_paths_children r _ _ Ha Hin) as [n Hn].
    rewrite Hn, relative_to_child, name_child. reflexivity. }
  assert (Hrun : forall st, _generate_description r st
              = match from_string md (slug r) with
                | Ok c => new_document c st
                | Raise e => Raise e
                end).
  { intros st. unfold _generate_description.
    erewrite bind_ok by (apply lift_ok; exact Hmd).
    destruct (from_string md (slug r)) as [c|e] eqn:Ef.
    - by erewrite bind_ok by (by apply lift_ok).
    - by apply bind_raise. }
  split_and!; [exact Hmd|exact Hrun| |].
  - intros st c Hc. rewrite Hrun, Hc. apply new_document_spec.
  - intros st e He. by rewrite Hrun, He.
Qed.

(** X7: a resource whose path cannot be listed (a regular file, a missing
    directory).  The search for a description file finds nothing and does
    not raise, since [glob] yields nothing there; generating the default
    description then lists the assets and raises the error of the listing;
    so does the access to [description]. *)
Theorem unlistable_resource_raises `{DocumentLib} (r : Resource) (e : exn) :
  scandir (path r) = Raise e ->
  description_path r = Ok None /\
  asset_paths r = Raise e /\
  generate_description_md r = Raise e /\
  description_content r = Raise e /\
  forall st, description_cache st = None -> description r st = Raise e.
Proof.
  intros Hs.
  assert (Hc : candidates r = []).
  { unfold candidates, glob_md. rewrite Hs. apply set_iter_nil. }
  assert (Hp : description_path r = Ok None).
  { rewrite description_path_few; rewrite Hc; simpl; [done|lia]. }
  assert (Ha : asset_paths r = Raise e).
  { unfold asset_paths, iterdir. by rewrite Hs. }
  assert (Hg : generate_description_md r = Raise e).
  { unfold generate_description_md. by rewrite Ha. }
  assert (Hd : description_content r = Raise e).
  { unfold description_content. rewrite Hp. cbn [result_bind mbind]. by rewrite Hg. }
  split_and!; try done.
  intros st Hst. rewrite description_uncached by done. by rewrite Hd.
Qed.

(** X8: resources found by listing a collection directory.  Every entry
    gives one resource, whatever its kind.  An entry whose name ends in
    [.md] or [.html] gives a resource for the collection directory itself,
    with the slug of that directory; every other entry is taken for a work
    directory, with the sluggified stem of its name as slug. *)
Theorem discover_entries (k : Kind) (dir : Path) (entries : list DirEntry) :
  scandir dir = Ok entries ->
  exists rs,
    discover k dir = Ok rs /\
    length rs = length entries /\
    forall i e, entries !! i = Some e ->
      exists r, rs !! i = Some r /\ cls r = k /\
        if is_document_suffix (P.suffix (mkPath NoRoot [entry_name e]))
        then path r = dir /\ slug r = sluggify (P.stem dir)
        else path r = P.child dir (entry_name e) /\
             slug r = sluggify (P.stem (mkPath NoRoot [entry_name e])).
Proof.
  intros Hs. unfold discover, iterdir. rewrite Hs. cbn [result_bind mbind].
  eexists. split; [reflexivity|]. split; [by rewrite !length_map|].
  intros i e He. rewrite !list_lookup_fmap, He. simpl.
  eexists. split; [reflexivity|].
  unfold from_path. rewrite suffix_child.
  destruct (is_document_suffix _).
  - unfold new_with_description, post_init. simpl. by rewrite parent_child.
  - unfold new, post_init. simpl. by rewrite stem_child.
Qed.

End MoreResources.

(** ** Cached properties *)

Section ComputeOnce.

Context `{Util} `{DirView} `{SetOrder} `{NetlocChecks} `{DocumentLib}.

Lemma description_sets_cache (r : Resource) (st st1 : State) (d : loc) :
  description r st = Ok (d, st1) -> description_cache st1 = Some d.
Proof.
  unfold description. destruct (description_cache st) as [l|] eqn:Ec.
  - by intros [= <- <-].
  - intros Hrun.
    apply bind_inv in Hrun as (dp & st2 & _ & Hrun).
    apply bind_inv in Hrun as (l & st3 & _ & Hrun).
    apply bind_inv in Hrun as ([] & st4 & Hset & Hrun).
    injection Hrun as <- <-. by injection Hset as <-.
Qed.

Lemma read_state (l : loc) (o : obj) (st st' : State) :
  read l st = Ok (o, st') -> st' = st.
Proof. unfold read. destruct (heap st !! l); by intros [=]. Qed.

Lemma deepcopy_keeps_cache (d a : loc) (st st' : State) :
  deepcopy d st = Ok (a, st') -> description_cache st' = description_cache st.
Proof.
  unfold deepcopy. intros Hrun.
  apply bind_inv in Hrun as ([title t|body urls] & st1 & ->%read_state & Hrun);
    [|by injection Hrun as <- <-].
  apply bind_inv in Hrun as ([title' t'|body urls] & st2 & ->%read_state & Hrun); [done|].
  apply bind_inv in Hrun as (t' & st3 & [= <- <-] & Hrun).
  by injection Hrun as <- <-.
Qed.

Lemma rewrite_urls_keeps_cache (a : loc) (fn : string -> result string) (st st' : State) :
  rewrite_urls a fn st = Ok (tt, st') -> description_cache st' = description_cache st.
Proof.
  unfold rewrite_urls. intros Hrun.
  apply bind_inv in Hrun as ([title t|body urls] & st1 & ->%read_state & Hrun); [|done].
  apply bind_inv in Hrun as ([title' t'|body urls] & st2 & ->%read_state & Hrun); [done|].
  apply bind_inv in Hrun as (urls' & st3 & [_ ->]%lift_inv & Hrun).
  unfold write in Hrun. by injection Hrun as <-.
Qed.

(** X9: the cached properties compute once.  After a first access of
    [description], every later access returns the same object and leaves
    the state as it is: nothing is loaded, logged or allocated again.  The
    same holds for [description_with_absolute_urls], whose first access
    also fills the cache of [description], so that the URLs are rewritten
    once and the description is loaded at most once per resource. *)
Theorem cached_properties_compute_once (r : Resource) (st st1 : State) (l : loc) :
  (description r st = Ok (l, st1) -> description r st1 = Ok (l, st1)) /\
  (description_with_absolute_urls r st = Ok (l, st1) ->
   description_with_absolute_urls_cache st = None ->
   description_with_absolute_urls r st1 = Ok (l, st1) /\
   exists d, description r st1 = Ok (d, st1)).
Proof.
  split.
  - intros Hrun. apply description_cached. by eapply description_sets_cache.
  - intros Hrun Hnone. unfold description_with_absolute_urls in Hrun.
    rewrite Hnone in Hrun.
    apply bind_inv in Hrun as (d & st2 & Hdesc & Hrun).
    apply bind_inv in Hrun as (a & st3 & Hcopy & Hrun).
    apply bind_inv in Hrun as ([] & st4 & Hrw & Hrun).
    apply bind_inv in Hrun as ([] & st5 & Hset & Hrun).
    injection Hrun as <- <-. injection Hset as <-.
    split; [reflexivity|].
    exists d. apply description_cached. simpl.
    rewrite (rewrite_urls_keeps_cache _ _ _ _ Hrw), (deepcopy_keeps_cache _ _ _ _ Hcopy).
    by eapply description_sets_cache.
Qed.

End ComputeOnce.

(** ** The page builder: which asset serves a dependency *)

Lemma asset_index_snoc (l : list Path) (p : Path) :
  asset_index (l ++ [p]) = <[P.stem p := mkAsset p]> (asset_index l).
Proof. unfold asset_index. by rewrite fold_left_app. Qed.

(** The asset indexed under a stem is made from the last listed path with
    that stem. *)
Lemma asset_index_lookup (paths : list Path) (s : string) :
  asset_index paths !! s
  = mkAsset <$> last (List.filter (fun p => bool_decide (P.stem p = s)) paths).
Proof.
  induction paths as [|p l IH] using rev_ind; [done|].
  rewrite asset_index_snoc, List.filter_app. simpl.
  destruct (decide (P.stem p = s)) as [E|N].
  - rewrite bool_decide_true by done. rewrite last_snoc. simpl.
    rewrite E. apply lookup_insert_eq.
  - rewrite bool_decide_false by done. rewrite app_nil_r.
    by rewrite lookup_insert_ne.
Qed.

(** X10: a declared dependency is served by stem alone.  The destination's
    suffix and directory play no part: among the assets of the resource the
    last listed one whose stem is the stem of the destination is
    materialized there (so [a.png] serves a dependency on [img/a.jpg], and
    of [a.png] and [a.svg] the one listed later wins); only when no asset
    has that stem is the warning logged. *)
Theorem dependency_served_by_stem (paths : list Path) (page_dir : Path) (dep : string)
    (st : State) :
  let dst := dependency_destination page_dir dep in
  reconcile_dependency (asset_index paths) page_dir dep st
  = Ok (tt, add_events
              [match last (List.filter (fun p => bool_decide (P.stem p = P.stem dst)) paths) with
               | Some p => AssetTo (mkAsset p) dst
               | None => LogWarning ("Missing asset " +:+ P.to_string dst)
               end] st).
Proof.
  intros dst. unfold reconcile_dependency. fold dst.
  rewrite asset_index_lookup.
  destruct (last _) as [p|]; simpl; apply emit_add.
Qed.

(** ** The gallery link *)

Lemma append_assoc_str (a b c : string) : (a +:+ b) +:+ c = a +:+ (b +:+ c).
Proof.
  induction a as [|x a IH]; [done|].
  change (String x ((a +:+ b) +:+ c) = String x (a +:+ (b +:+ c))). by rewrite IH.
Qed.

Lemma relative_to_extend (p : Path) (l : list string) :
  P.relative_to (mkPath (root p) (segs p ++ l)) p = Ok (mkPath NoRoot l).
Proof.
  unfold P.relative_to.
  assert (Ha : P.abs_parts (mkPath (root p) (segs p ++ l)) = P.abs_parts p ++ l).
  { unfold P.abs_parts. simpl. by destruct (root p). }
  rewrite Ha. rewrite firstn_app, Nat.sub_diag, firstn_all, app_nil_r.
  rewrite skipn_app, Nat.sub_diag, skipn_all, app_nil_l. simpl.
  unfold P.list_eqb. rewrite bool_decide_true by done. simpl.
  destruct (Nat.eqb_spec (length (P.abs_parts p)) 0) as [E0|N0].
  - assert (Hr : root p = NoRoot).
    { unfold P.abs_parts in E0. by destruct (root p). }
    unfold P.is_absolute. simpl. rewrite Hr.
    by destruct (Nat.eqb_spec (length (P.abs_parts p)) 1).
  - destruct (Nat.eqb_spec (length (P.abs_parts p)) 1) as [E1|N1]; [|done].
    assert (Hr : root p = NoRoot).
    { unfold P.abs_parts in E1. by destruct (root p). }
    simpl. by rewrite Hr.
Qed.

(** X11: the gallery link of a resource is the base of its absolutized URLs
    and the address of its page.  The link followed by a URL is what the
    absolutizer makes of that URL when it is relative; and when the slug is
    one plain path segment, the link is the directory in which
    [build_resource] writes [index.html], taken relative to the output
    root, between two slashes. *)
Theorem gallery_link_is_page_address `{Config} (r : Resource) :
  (forall url, gallery_link r +:+ url = absolute_form r url) /\
  (P.of_string (slug r) = mkPath NoRoot [slug r] ->
   let rel := P.child (DIRECTORY (cls r)) (slug r) in
   P.relative_to (page_dir_of r) output_dir = Ok rel /\
   gallery_link r = "/" +:+ P.to_string rel +:+ "/").
Proof.
  split.
  - intros url. unfold gallery_link, absolute_form.
    destruct (cls r).
    + transitivity ("/pieces/" +:+ ((slug r +:+ "/") +:+ url)); [reflexivity|].
      by rewrite append_assoc_str.
    + transitivity ("/projects/" +:+ ((slug r +:+ "/") +:+ url)); [reflexivity|].
      by rewrite append_assoc_str.
  - intros Hslug. unfold page_dir_of, P.joins. rewrite Hslug.
    assert (Hd : P.join (P.join output_dir (DIRECTORY (cls r))) (mkPath NoRoot [slug r])
                 = mkPath (root output_dir)
                     (segs output_dir ++ (segs (DIRECTORY (cls r)) ++ [slug r]))).
    { unfold P.join. simpl. destruct (cls r); simpl; by rewrite <- app_assoc. }
    rewrite Hd, relative_to_extend. unfold gallery_link.
    destruct (cls r); split; reflexivity.
Qed.

(** ** Sorting the targets of the command line *)

Lemma elem_of_rev_list {A} (x : A) (l : list A) : x ∈ rev l <-> x ∈ l.
Proof. rewrite !list_elem_of_In. symmetry. apply in_rev. Qed.

Lemma elem_of_parents (dir file : Path) : dir ∈ parents file <-> inside dir file.
Proof.
  unfold parents, inside. rewrite list_elem_of_fmap. split.
  - intros (k & -> & Hk). apply elem_of_rev_list, elem_of_seq in Hk. simpl.
    split; [done|]. exists (skipn k (segs file)). split.
    + intros E. apply (f_equal length) in E. rewrite length_skipn in E. simpl in E. lia.
    + by rewrite firstn_skipn.
  - intros (Hr & l & Hl & Hs). exists (length (segs dir)). split.
    + destruct dir as [rd sd]. simpl in *. subst rd. f_equal.
      by rewrite Hs, firstn_app, Nat.sub_diag, firstn_all, app_nil_r.
    + apply elem_of_rev_list, elem_of_seq. rewrite Hs, length_app.
      destruct l; [done|]. simpl. lia.
Qed.

Lemma not_inside_self (p : Path) : ~ inside p p.
Proof.
  intros (_ & l & Hl & Hs). apply (f_equal length) in Hs.
  rewrite length_app in Hs. destruct l; [done|]. simpl in Hs. lia.
Qed.

Lemma inside_both (a b file : Path) :
  inside a file -> inside b file -> a = b \/ inside a b \/ inside b a.
Proof.
  intros (Ha & la & Hla & Hsa) (Hb & lb & Hlb & Hsb).
  assert (Hp : segs a `prefix_of` segs file) by (by exists la).
  assert (Hq : segs b `prefix_of` segs file) by (by exists lb).
  destruct (prefix_weak_total _ _ _ Hp Hq) as [[l Hl]|[l Hl]].
  - destruct l as [|x l].
    + left. rewrite app_nil_r in Hl. destruct a, b; simpl in *; congruence.
    + right; left. split; [congruence|]. by exists (x :: l).
  - destruct l as [|x l].
    + left. rewrite app_nil_r in Hl. destruct a, b; simpl in *; congruence.
    + right; right. split; [congruence|]. by exists (x :: l).
Qed.

Lemma filter_three_lengths {A} (f g : A -> bool) (l : list A) :
  (forall x, x ∈ l -> f x && g x = false) ->
  length (List.filter f l) + length (List.filter g l)
  + length (List.filter (fun x => negb (f x) && negb (g x)) l) = length l.
Proof.
  induction l as [|x l IH]; intros Hfg; [done|]. simpl.
  assert (Hx : f x && g x = false) by (apply Hfg; by left).
  specialize (IH (fun y Hy => Hfg y (list_elem_of_further _ _ _ Hy))).
  destruct (f x), (g x); simpl in *; try done; lia.
Qed.

Section Targets.

Context `{Util} `{Collections}.

(** X12: how [main] sorts explicit targets.  A target is ignored (and named in
    the warning) exactly when it lies below neither collection directory;
    a target below the projects directory, at any depth, becomes a project;
    a collection directory itself lies below itself not, so passing it as a
    target does not build it; and when neither collection directory is the
    other or lies below it, every target lands in exactly one of the three
    lists. *)
Theorem targets_sorted_by_ancestry (targets : list Path) :
  (forall file, file ∈ target_other targets <->
                file ∈ targets /\ ~ inside projects_dir file /\ ~ inside pieces_dir file) /\
  (forall file, file ∈ targets -> inside projects_dir file ->
                from_path Project file ∈ target_projects targets) /\
  (forall file, file ∈ targets -> inside pieces_dir file ->
                from_path Piece file ∈ target_pieces targets) /\
  (projects_dir ∈ targets -> ~ inside pieces_dir projects_dir ->
   projects_dir ∈ target_other targets) /\
  (projects_dir <> pieces_dir -> ~ inside projects_dir pieces_dir ->
   ~ inside pieces_dir projects_dir ->
   length (target_projects targets) + length (target_pieces targets)
   + length (target_other targets) = length targets).
Proof.
  assert (Hother : forall file, file ∈ target_other targets <->
            file ∈ targets /\ ~ inside projects_dir file /\ ~ inside pieces_dir file).
  { intros file. unfold target_other. rewrite elem_of_filter_bool.
    rewrite andb_true_iff, !negb_true_iff, !bool_decide_eq_false, !elem_of_parents.
    tauto. }
  split_and!.
  - exact Hother.
  - intros file Hin Hins. unfold target_projects.
    apply list_elem_of_fmap. exists file. split; [done|].
    apply elem_of_filter_bool. split; [done|].
    apply bool_decide_eq_true. by apply elem_of_parents.
  - intros file Hin Hins. unfold target_pieces.
    apply list_elem_of_fmap. exists file. split; [done|].
    apply elem_of_filter_bool. split; [done|].
    apply bool_decide_eq_true. by apply elem_of_parents.
  - intros Hin Hn. apply Hother. split_and!; [done| |done]. apply not_inside_self.
  - intros Hne Hn1 Hn2. unfold target_projects, target_pieces, target_other.
    rewrite !length_map. apply filter_three_lengths.
    intros file _. apply andb_false_iff.
    destruct (decide (projects_dir ∈ parents file)) as [H1|N1];
      [|left; by apply bool_decide_eq_false].
    destruct (decide (pieces_dir ∈ parents file)) as [H2|N2];
      [|right; by apply bool_decide_eq_false].
    apply elem_of_parents in H1, H2.
    destruct (inside_both _ _ _ H1 H2) as [E|[E|E]]; done.
Qed.

End Targets.

(** ** Static sync of one file, case by case *)

Lemma put_under_dir (rt : Node) (d : list string) (ds : list (string * Node)) (n : Node) :
  d <> [] -> Tree.get rt (removelast d) = Some (Dir ds) -> is_Some (Tree.put rt d n).
Proof.
  revert rt. induction d as [|s d IH]; intros rt Hne Hg; [done|].
  destruct d as [|s' d].
  - simpl in Hg. injection Hg as ->. simpl. by eexists.
  - change (removelast (s :: s' :: d)) with (s :: removelast (s' :: d)) in Hg.
    simpl in Hg. destruct rt as [i|es|t]; try done.
    destruct (Tree.assoc s es) as [c|] eqn:Ec; [|done].
    destruct (IH c) as [c' Hc']; [done|done|].
    change (Tree.put (Dir es) (s :: s' :: d) n)
      with (match Tree.assoc s es with
            | Some c => match Tree.put c (s' :: d) n with
                        | Some c' => Some (Dir (Tree.assoc_set s c' es))
                        | None => None
                        end
            | None => None
            end).
    rewrite Ec, Hc'. by eexists.
Qed.

Lemma get_none_not_nil (rt : Node) (d : list string) : Tree.get rt d = None -> d <> [].
Proof. by intros Hg ->. Qed.

Lemma stat_none_of_get (rt : Node) (d : list string) :
  Tree.get rt d = None -> Tree.stat rt d = None.
Proof.
  intros Hg. unfold Tree.stat. rewrite follow_unfold. unfold link_at. by rewrite Hg, Hg.
Qed.

Lemma lookup_error_app (rt : Node) (p q : list string) (n : Node) :
  Tree.get rt p = Some n -> Tree.lookup_error rt (p ++ q) = Tree.lookup_error n q.
Proof.
  revert rt. induction p as [|k p IH]; intros rt; simpl; [by intros [= <-]|].
  destruct rt as [i|es|t]; try done.
  destruct (Tree.assoc k es) as [c|]; [apply IH|done].
Qed.

Section SyncFileCases.

Context `{Config}.

Variables (src rel : Path) (fs : FileSystem) (i : nat) (data : FileData).

Hypothesis Hrel : P.relative_to src input_dir = Ok rel.
Hypothesis Hsrc : Tree.get (fs_root fs) (P.parts src) = Some (File i).
Hypothesis Hdata : fs_inodes fs !! i = Some data.

Let dst := P.join output_dir rel.
Let s := P.parts src.
Let d := P.parts dst.

Lemma sync_file_enter :
  sync_static_path src fs =
    (exists_ dst ≫= fun dst_exists : bool =>
     if negb dst_exists then
       try_except_OSError
         (_ ← os_link s d;
          log_info (P.to_string src +:+ " => " +:+ P.to_string dst))
         (_ ← copy2 s d;
          log_info (P.to_string src +:+ " -> " +:+ P.to_string dst))
     else
       samefile dst src ≫= fun same : bool =>
       if same then mret tt
       else
         _ ← copy2 s d;
         log_info (P.to_string src +:+ " -> " +:+ P.to_string dst)) fs.
Proof.
  assert (Hr : lift_result (P.relative_to src input_dir) fs = (Ok rel, fs))
    by (unfold lift_result; by rewrite Hrel).
  assert (Hf : is_file src fs = (Ok true, fs)).
  { unfold is_file, path_is_file. by rewrite (stat_of_get _ _ _ Hsrc) by eauto. }
  unfold sync_static_path.
  rewrite (io_bind_ok _ _ _ _ _ Hr). cbv beta zeta.
  by rewrite (io_bind_ok _ _ _ _ _ Hf).
Qed.

Lemma get_src : Tree.get (fs_root fs) s = Some (File i).
Proof. exact Hsrc. Qed.

Lemma stat_src : Tree.stat (fs_root fs) s = Some (s, File i).
Proof. apply stat_of_get; [exact Hsrc|eauto]. Qed.

(** X13: first sync of a file whose destination is missing, into a directory
    that exists.  The call returns.  Where the OS lets [os.link] succeed the
    destination becomes a second name of the source's inode and nothing is
    copied; where it does not, the destination is a new file with the
    content and metadata of the source, and the log says [->] instead of
    [=>].  Nothing else in the tree changes. *)
Theorem sync_file_absent_destination (ds : list (string * Node)) :
  Tree.get (fs_root fs) d = None ->
  Tree.get (fs_root fs) (Tree.parent d) = Some (Dir ds) ->
  let j := if fs_hardlinks fs then i else Tree.fresh_inode (fs_root fs) (fs_inodes fs) in
  let ops :=
    if fs_hardlinks fs
    then [OpLink s d; OpLogInfo (P.to_string src +:+ " => " +:+ P.to_string dst)]
    else [OpLink s d; OpCopy2 s d;
          OpLogInfo (P.to_string src +:+ " -> " +:+ P.to_string dst)] in
  exists rt',
    Tree.put (fs_root fs) d (File j) = Some rt' /\
    sync_static_path src fs
      = (Ok tt, mkFileSystem rt' (<[j := data]> (fs_inodes fs)) (fs_hardlinks fs)
                  (fs_ops fs ++ ops)) /\
    (fs_hardlinks fs = false -> j <> i /\ fs_inodes fs !! j = None).
Proof.
  intros Hd Hparent j ops.
  assert (Hne : d <> []) by (by eapply get_none_not_nil).
  destruct (put_under_dir (fs_root fs) d ds (File j) Hne Hparent) as [rt' Hput].
  exists rt'. split; [exact Hput|].
  assert (Hpd : Tree.is_dir (fs_root fs) (Tree.parent d) = true).
  { unfold Tree.is_dir. by rewrite (stat_of_get _ _ _ Hparent) by (by left). }
  assert (Hx : exists_ dst fs = (Ok false, fs)).
  { unfold exists_, path_exists. fold d. by rewrite (stat_none_of_get _ _ Hd). }
  rewrite sync_file_enter. rewrite (io_bind_ok _ _ _ _ _ Hx). cbv beta iota delta [negb].
  unfold try_except_OSError.
  destruct (fs_hardlinks fs) eqn:Hhard.
  - (* the link succeeds *)
    assert (Hlink : os_link s d fs
                    = (Ok tt, with_ops (fs_ops fs ++ [OpLink s d])
                                (set_tree rt' (fs_inodes fs) fs))).
    { unfold os_link. rewrite (io_bind_ok _ _ _ _ _ (record_fs _ fs)).
      rewrite os_link_at_ops. unfold os_link_at.
      rewrite get_src, Hdata, Hd, Hpd, Hhard. simpl.
      rewrite ?bool_decide_true by (by eexists). simpl.
      unfold j in Hput. by rewrite Hput. }
    rewrite (io_bind_ok _ _ _ _ _ Hlink). rewrite log_info_run.
    split; [|done]. f_equal. unfold with_ops, set_tree. simpl.
    rewrite Hhard. subst j ops. f_equal.
    + by rewrite insert_id.
    + by rewrite <- app_assoc.
  - (* the link fails, the copy is made *)
    assert (Hlink : os_link s d fs
                    = (Raise OSError, with_ops (fs_ops fs ++ [OpLink s d]) fs)).
    { unfold os_link. rewrite (io_bind_ok _ _ _ _ _ (record_fs _ fs)).
      rewrite os_link_at_ops. unfold os_link_at.
      rewrite get_src, Hdata, Hd, Hpd, Hhard. simpl.
      by rewrite ?bool_decide_true by (by eexists). }
    rewrite (io_bind_raise _ _ _ _ _ Hlink). cbn [is_OSError].
    assert (Hcopy : copy2 s d (with_ops (fs_ops fs ++ [OpLink s d]) fs)
                    = (Ok tt, with_ops ((fs_ops fs ++ [OpLink s d]) ++ [OpCopy2 s d])
                                (set_tree rt' (<[j := data]> (fs_inodes fs)) fs))).
    { unfold copy2. rewrite (io_bind_ok _ _ _ _ _ (record_with_ops _ _ fs)).
      rewrite copy2_at_ops. unfold copy2_at.
      assert (Hnd : Tree.is_dir (fs_root fs) d = false).
      { unfold Tree.is_dir. by rewrite (stat_none_of_get _ _ Hd). }
      rewrite Hnd, stat_src, Hdata.
      rewrite follow_unfold. unfold link_at. rewrite Hd, Hd, Hpd. simpl.
      unfold j in Hput. by rewrite Hput. }
    rewrite (io_bind_ok _ _ _ _ _ Hcopy). rewrite log_info_run.
    split.
    + f_equal. unfold with_ops, set_tree. simpl. rewrite Hhard. subst ops. f_equal.
      by rewrite <- !app_assoc.
    + intros _. subst j.
      pose proof (fresh_inode_not_live (fs_root fs) (fs_inodes fs)) as Hfresh.
      split; [|done]. intros E. rewrite E in Hfresh. congruence.
Qed.

(** X14: the file branch never creates a directory.  In a tree without
    symbolic links, when the parent of the destination is not an existing
    directory, the link fails, the fallback copy fails too, and the call
    raises the error of the failed lookup, leaving the tree and the files as
    they were: [NotADirectoryError] when the parent is a regular file,
    [FileNotFoundError] when the parent is missing from an existing
    directory. *)
Theorem sync_file_missing_directory :
  Tree.plain (fs_root fs) = true ->
  Tree.get (fs_root fs) d = None ->
  Tree.is_dir (fs_root fs) (Tree.parent d) = false ->
  sync_static_path src fs
    = (Raise (Tree.lookup_error (fs_root fs) d),
       with_ops (fs_ops fs ++ [OpLink s d; OpCopy2 s d]) fs) /\
  (forall k, Tree.get (fs_root fs) (Tree.parent d) = Some (File k) ->
             Tree.lookup_error (fs_root fs) d = NotADirectoryError) /\
  (forall ds, Tree.get (fs_root fs) (Tree.parent (Tree.parent d)) = Some (Dir ds) ->
              Tree.get (fs_root fs) (Tree.parent d) = None ->
              Tree.lookup_error (fs_root fs) d = FileNotFoundError).
Proof.
  intros _ Hd Hpd. split_and!.
  - assert (Hx : exists_ dst fs = (Ok false, fs)).
    { unfold exists_, path_exists. fold d. by rewrite (stat_none_of_get _ _ Hd). }
    rewrite sync_file_enter. rewrite (io_bind_ok _ _ _ _ _ Hx).
    cbv beta iota delta [negb]. unfold try_except_OSError.
    assert (Hlink : os_link s d fs
                    = (Raise (Tree.lookup_error (fs_root fs) d),
                       with_ops (fs_ops fs ++ [OpLink s d]) fs)).
    { unfold os_link. rewrite (io_bind_ok _ _ _ _ _ (record_fs _ fs)).
      rewrite os_link_at_ops. unfold os_link_at.
      rewrite get_src, Hdata, Hd, Hpd. simpl.
      by rewrite ?bool_decide_true by (by eexists). }
    rewrite (io_bind_raise _ _ _ _ _ Hlink). rewrite lookup_error_oserror.
    assert (Hcopy : copy2 s d (with_ops (fs_ops fs ++ [OpLink s d]) fs)
                    = (Raise (Tree.lookup_error (fs_root fs) d),
                       with_ops ((fs_ops fs ++ [OpLink s d]) ++ [OpCopy2 s d]) fs)).
    { unfold copy2. rewrite (io_bind_ok _ _ _ _ _ (record_with_ops _ _ fs)).
      rewrite copy2_at_ops. unfold copy2_at.
      assert (Hnd : Tree.is_dir (fs_root fs) d = false).
      { unfold Tree.is_dir. by rewrite (stat_none_of_get _ _ Hd). }
      rewrite Hnd, stat_src, Hdata.
      rewrite follow_unfold. unfold link_at. by rewrite Hd, Hd, Hpd. }
    rewrite (io_bind_raise _ _ _ _ _ Hcopy). by rewrite <- app_assoc.
  - intros k Hk.
    assert (Hne : d <> []) by (by eapply get_none_not_nil).
    rewrite (app_removelast_last "" Hne).
    by rewrite (lookup_error_app _ _ _ _ Hk).
  - intros ds Hpp Hp.
    assert (Hne : d <> []) by (by eapply get_none_not_nil).
    assert (Hnep : Tree.parent d <> []) by (by eapply get_none_not_nil).
    rewrite (app_removelast_last "" Hne).
    unfold Tree.parent in *.
    rewrite (app_removelast_last "" Hnep), <- app_assoc.
    rewrite (lookup_error_app _ _ _ _ Hpp).
    rewrite (app_removelast_last "" Hnep) in Hp.
    rewrite get_app, Hpp in Hp. simpl in Hp. simpl.
    by destruct (Tree.assoc (List.last (removelast d) "") ds).
Qed.


End SyncFileCases.

(** ** Static sync of one file never harms the source *)

Section SourceSafe.

Variable s : list string.

Lemma keeps_source_refl (fs : FileSystem) : keeps_source s fs fs.
Proof. split; [done|]. exists []. by rewrite app_nil_r. Qed.

Lemma keeps_source_trans (fs1 fs2 fs3 : FileSystem) :
  keeps_source s fs1 fs2 -> keeps_source s fs2 fs3 -> keeps_source s fs1 fs3.
Proof.
  intros [H1 (o1 & E1 & F1)] [H2 (o2 & E2 & F2)]. split.
  - intros e i Hs. destruct (H1 e i Hs) as [Hs2 Hi2].
    destruct (H2 e i Hs2) as [Hs3 Hi3]. split; [done|congruence].
  - exists (o1 ++ o2). rewrite E2, E1, <- app_assoc. split; [done|].
    by rewrite forallb_app, F1, F2.
Qed.

Lemma safe_ret {A} (a : A) : source_safe s (mret a : IO A).
Proof. intros fs r fs' [= <- <-]. apply keeps_source_refl. Qed.

Lemma safe_pure {A} (f : FileSystem -> result A) : source_safe s (fun fs => (f fs, fs)).
Proof. intros fs r fs' [= <- <-]. apply keeps_source_refl. Qed.

Lemma safe_bind {A B} (m : IO A) (k : A -> IO B) :
  source_safe s m -> (forall a, source_safe s (k a)) -> source_safe s (m ≫= k).
Proof.
  intros Hm Hk fs r fs'. unfold mbind, IO_bind.
  destruct (m fs) as [[a|e] fs0] eqn:Em.
  - intros Ek. eapply keeps_source_trans; [by eapply Hm|by eapply Hk].
  - intros [= <- <-]. by eapply Hm.
Qed.

Lemma safe_try {A} (body handler : IO A) :
  source_safe s body -> source_safe s handler ->
  source_safe s (try_except_OSError body handler).
Proof.
  intros Hb Hh fs r fs'. unfold try_except_OSError.
  destruct (body fs) as [[a|e] fs0] eqn:Eb.
  - intros [= <- <-]. by eapply Hb.
  - destruct (is_OSError e).
    + intros Eh. eapply keeps_source_trans; [by eapply Hb|by eapply Hh].
    + intros [= <- <-]. by eapply Hb.
Qed.

Lemma safe_record (op : Op) : is_file_op op = true -> source_safe s (record op).
Proof.
  intros Hop fs r fs' [= <- <-]. split; [done|].
  exists [op]. simpl. by rewrite Hop.
Qed.

Lemma safe_os_link_at (a d : list string) : source_safe s (os_link_at a d).
Proof.
  intros fs r fs' Hrun.
  apply os_link_at_inv in Hrun as [(e & _ & _ & ->)|(_ & n & rt' & _ & _ & Hd & Hput & ->)].
  - apply keeps_source_refl.
  - split; [|exists []; by rewrite app_nil_r].
    intros e i Hs. split; [|done]. simpl.
    eapply stat_grows_file; [|done]. right. eauto.
Qed.

Lemma safe_copy2_at (d : list string) : source_safe s (copy2_at s d).
Proof.
  intros fs r fs' Hrun.
  apply copy2_at_inv in Hrun
    as [(e & _ & _ & ->)|(_ & sp & i & data & q & j & Hs & Hi & _ & Hij & Hcase)].
  - apply keeps_source_refl.
  - split; [|destruct Hcase as [[_ ->]|(_ & rt' & _ & ->)]; exists []; by rewrite app_nil_r].
    intros e i' Hs'. rewrite Hs in Hs'. injection Hs' as <- <-.
    destruct Hcase as [[_ ->]|(Hq & rt' & Hput & ->)]; simpl.
    + split; [done|]. by rewrite lookup_insert_ne.
    + split; [|by rewrite lookup_insert_ne].
      eapply stat_grows_file; [|done]. right. eauto.
Qed.

End SourceSafe.

(** X16: Static Sync never harms a source file.  However a run on a regular
    file ends, returning or raising, the source path still leads to a file
    with the content and metadata it had, and the only calls made are
    [os.link], [copy2] and log records: nothing is removed and no tree is
    copied. *)
Theorem sync_file_keeps_source `{Config} (src : Path) (fs : FileSystem)
    (r : result unit) (fs1 : FileSystem) :
  path_is_file fs src = true ->
  sync_static_path src fs = (r, fs1) ->
  file_data fs1 src = file_data fs src /\
  path_is_file fs1 src = true /\
  exists ops, fs_ops fs1 = fs_ops fs ++ ops /\ forallb is_file_op ops = true.
Proof.
  intros Hfile Hrun.
  assert (Hsafe : keeps_source (P.parts src) fs fs1).
  { revert Hrun. unfold sync_static_path.
    destruct (P.relative_to src input_dir) as [rel|e] eqn:Hrel.
    - assert (Hr : lift_result (Ok rel) fs = (Ok rel, fs)) by done.
      rewrite (io_bind_ok _ _ _ _ _ Hr). cbv beta zeta.
      assert (Hf : is_file src fs = (Ok true, fs)) by (unfold is_file; by rewrite Hfile).
      rewrite (io_bind_ok _ _ _ _ _ Hf). cbv beta iota.
      clear Hfile Hr Hf. revert fs r fs1.
      apply (safe_bind (P.parts src)); [apply safe_pure|]. intros dst_exists.
      destruct (negb dst_exists).
      + apply safe_try.
        * apply safe_bind; [|intros; by apply safe_record].
          apply safe_bind; [by apply safe_record|]. intros; apply safe_os_link_at.
        * apply safe_bind; [|intros; by apply safe_record].
          apply safe_bind; [by apply safe_record|]. intros; apply safe_copy2_at.
      + apply safe_bind; [apply safe_pure|]. intros same. destruct same.
        * apply safe_ret.
        * apply safe_bind; [|intros; by apply safe_record].
          apply safe_bind; [by apply safe_record|]. intros; apply safe_copy2_at.
    - intros [= <- <-]. apply keeps_source_refl. }
  destruct Hsafe as [Hkeep Hops].
  apply path_is_file_stat in Hfile as (e & i & Hs).
  destruct (Hkeep e i Hs) as [Hs1 Hi1].
  split_and!; [|by unfold path_is_file; rewrite Hs1|done].
  unfold file_data. by rewrite Hs, Hs1.
Qed.

(** ** Static sync of a directory, case by case *)

Lemma assoc_set_set (k : string) (n x : Node) (es : list (string * Node)) :
  Tree.assoc_set k n (Tree.assoc_set k x es) = Tree.assoc_set k n es.
Proof.
  induction es as [|[k' n'] es IH]; simpl.
  - by rewrite String.eqb_refl.
  - destruct (String.eqb_spec k k') as [->|Hne]; simpl.
    + by rewrite String.eqb_refl.
    + destruct (String.eqb_spec k k'); [done|]. by rewrite IH.
Qed.

Lemma assoc_none_of_get (es : list (string * Node)) (k : string) :
  Tree.get (Dir es) [k] = None -> Tree.assoc k es = None.
Proof. simpl. by destruct (Tree.assoc k es). Qed.

(** In an existing directory, [makedirs] of a missing path puts an empty
    directory there, which a later [put] replaces. *)
Lemma makedirs_then_put (rt : Node) (d : list string) (ds : list (string * Node)) :
  Tree.get rt d = None ->
  Tree.get rt (removelast d) = Some (Dir ds) ->
  exists rt1, Tree.makedirs rt d = Ok rt1 /\
              forall n, Tree.put rt1 d n = Tree.put rt d n.
Proof.
  revert rt. induction d as [|k d IH]; intros rt Hd Hp; [done|].
  destruct d as [|k' d].
  - simpl in Hp. injection Hp as ->. apply assoc_none_of_get in Hd.
    rewrite makedirs_cons, Hd. eexists. split; [reflexivity|].
    intros n. simpl. by rewrite assoc_set_set.
  - change (removelast (k :: k' :: d)) with (k :: removelast (k' :: d)) in Hp.
    simpl in Hp. destruct rt as [i|es|t]; try done.
    destruct (Tree.assoc k es) as [c|] eqn:Ec; [|done].
    assert (Hdc : Tree.get c (k' :: d) = None).
    { change (Tree.get (Dir es) (k :: k' :: d))
        with (match Tree.assoc k es with
              | Some c => Tree.get c (k' :: d) | None => None end) in Hd.
      by rewrite Ec in Hd. }
    destruct (IH c Hdc Hp) as (c1 & Hmk & Hput).
    rewrite makedirs_cons, Ec, Hmk. eexists. split; [reflexivity|].
    intros n.
    change (Tree.put (Dir (Tree.assoc_set k c1 es)) (k :: k' :: d) n)
      with (match Tree.assoc k (Tree.assoc_set k c1 es) with
            | Some c => match Tree.put c (k' :: d) n with
                        | Some c' => Some (Dir (Tree.assoc_set k c' (Tree.assoc_set k c1 es)))
                        | None => None
                        end
            | None => None
            end).
    change (Tree.put (Dir es) (k :: k' :: d) n)
      with (match Tree.assoc k es with
            | Some c => match Tree.put c (k' :: d) n with
                        | Some c' => Some (Dir (Tree.assoc_set k c' es))
                        | None => None
                        end
            | None => None
            end).
    rewrite assoc_set_eq, Ec, Hput.
    destruct (Tree.put c (k' :: d) n); [|done]. by rewrite assoc_set_set.
Qed.

Lemma makedirs_exists_error (rt : Node) (p : list string) :
  is_Some (Tree.get rt p) -> Tree.makedirs rt p = Raise FileExistsError.
Proof.
  revert rt. induction p as [|k p IH]; intros rt [x Hx]; [done|].
  simpl in Hx. destruct rt as [i|es|t]; try done.
  destruct (Tree.assoc k es) as [c|] eqn:Ec; [|done].
  rewrite makedirs_cons, Ec, (IH c) by (by eexists). done.
Qed.

Lemma makedirs_raises_oserror (rt : Node) (p : list string) (e : exn) :
  Tree.makedirs rt p = Raise e -> is_OSError e = true.
Proof.
  revert rt. induction p as [|k p IH]; intros rt; [by intros [= <-]|].
  destruct rt as [i|es|t]; try by intros [= <-].
  rewrite makedirs_cons. destruct (Tree.assoc k es) as [c|]; [|done].
  destruct (Tree.makedirs c p) as [c'|e'] eqn:Em; [done|].
  intros [= <-]. by eapply IH.
Qed.

Lemma copytree_at_raises_oserror (l : bool) (s d : list string) (fs fs' : FileSystem)
    (e : exn) :
  copytree_at l s d fs = (Raise e, fs') -> is_OSError e = true.
Proof.
  unfold copytree_at.
  destruct (Tree.stat (fs_root fs) s) as [[sp [i|es|t]]|];
    try (intros [= <- <-]; first [reflexivity|apply stat_error_oserror]).
  destruct (Tree.makedirs (fs_root fs) d) as [rt1|e0] eqn:Em.
  - destruct (copy_node _ _ _ _ _ _) as [[[dn|] T'] err]; [|by intros [= <- <-]].
    destruct (Tree.put rt1 d dn); [|by intros [= <- <-]].
    destruct err; by intros [= <- <-].
  - intros [= <- <-]. by eapply makedirs_raises_oserror.
Qed.

(** Linking a tree of live regular files and directories succeeds where the
    OS permits links: the copy is the tree itself. *)
Lemma copy_node_links_ok (rt : Node) (n : Node) (T : gmap nat FileData) :
  Tree.plain n = true -> Tree.all_live T n = true ->
  forall here, copy_node rt true true here n T = (Some n, T, false).
Proof.
  induction n as [i|es IH|t] using Node_nested_ind; [| |done].
  - intros _ Hl here. simpl in *. unfold copy_file.
    apply bool_decide_eq_true in Hl as [x Hx]. by rewrite Hx.
  - intros Hp Hl here. rewrite copy_node_dir.
    enough (Hes : copy_entries (fun k c => copy_node rt true true (here ++ [k]) c) es T
                  = (es, T, false))
      by (by rewrite Hes).
    simpl in Hp, Hl. induction es as [|e es IHes]; [done|].
    rewrite copy_entries_cons.
    apply Forall_cons in IH as [IHe IH].
    simpl in Hp, Hl. apply andb_true_iff in Hp as [Hpe Hpes].
    apply andb_true_iff in Hl as [Hle Hles].
    rewrite (IHe Hpe Hle), (IHes IH Hpes Hles). by destruct e.
Qed.

Section SyncDirCases.

Context `{Config}.

Variables (src rel : Path) (fs : FileSystem) (es : list (string * Node)).

Hypothesis Hrel : P.relative_to src input_dir = Ok rel.
Hypothesis Hsrc : Tree.get (fs_root fs) (P.parts src) = Some (Dir es).

Let dst := P.join output_dir rel.
Let s := P.parts src.
Let d := P.parts dst.

Lemma stat_src_dir : Tree.stat (fs_root fs) s = Some (s, Dir es).
Proof. apply stat_of_get; [exact Hsrc|by left]. Qed.

Lemma sync_dir_enter :
  sync_static_path src fs =
    (exists_ dst ≫= fun dst_exists : bool =>
     if negb dst_exists then
       try_except_OSError
         (_ ← copytree true s d;
          log_info (P.to_string src +:+ " => " +:+ P.to_string dst))
         (_ ← copytree false s d;
          log_info (P.to_string src +:+ " -> " +:+ P.to_string dst))
     else
       is_symlink dst ≫= fun dst_is_symlink : bool =>
       if dst_is_symlink then mret tt
       else
         _ ← rmtree d;
         _ ← copytree false s d;
         log_info (P.to_string src +:+ " -> " +:+ P.to_string dst)) fs.
Proof.
  assert (Hr : lift_result (P.relative_to src input_dir) fs = (Ok rel, fs))
    by (unfold lift_result; by rewrite Hrel).
  assert (Hf : is_file src fs = (Ok false, fs)).
  { unfold is_file, path_is_file. by rewrite (stat_of_get _ _ _ Hsrc) by (by left). }
  assert (Hi : is_dir src fs = (Ok true, fs)).
  { unfold is_dir, path_is_dir, Tree.is_dir.
    by rewrite (stat_of_get _ _ _ Hsrc) by (by left). }
  unfold sync_static_path.
  rewrite (io_bind_ok _ _ _ _ _ Hr). cbv beta zeta.
  rewrite (io_bind_ok _ _ _ _ _ Hf). cbv beta iota.
  by rewrite (io_bind_ok _ _ _ _ _ Hi).
Qed.

(** X17: first sync of a directory of live regular files and directories,
    where the OS permits links, the destination is missing and its parent
    directory exists.  The call returns, the destination becomes a
    directory with the very entries of the source (every file a second name
    of the source's inode), no file content is copied, and the source is as
    it was. *)
Theorem sync_dir_links_tree (ds : list (string * Node)) :
  Tree.plain (Dir es) = true ->
  Tree.all_live (fs_inodes fs) (Dir es) = true ->
  fs_hardlinks fs = true ->
  Tree.get (fs_root fs) d = None ->
  Tree.get (fs_root fs) (Tree.parent d) = Some (Dir ds) ->
  ~ s `prefix_of` d ->
  exists rt',
    Tree.put (fs_root fs) d (Dir es) = Some rt' /\
    Tree.get rt' s = Some (Dir es) /\
    sync_static_path src fs
      = (Ok tt, mkFileSystem rt' (fs_inodes fs) true
                  (fs_ops fs ++ [OpCopytree true s d;
                                 OpLogInfo (P.to_string src +:+ " => "
                                            +:+ P.to_string dst)])).
Proof.
  intros Hplain Hlive Hhard Hd Hparent Hsd.
  destruct (makedirs_then_put _ _ _ Hd Hparent) as (rt1 & Hmk & Hput1).
  assert (Hne : d <> []) by (by eapply get_none_not_nil).
  destruct (put_under_dir (fs_root fs) d ds (Dir es) Hne Hparent) as [rt' Hput].
  exists rt'. split; [exact Hput|]. split.
  { rewrite (put_get_unrelated _ _ _ _ s Hput); [exact Hsrc| |done].
    eapply not_prefix_of_exists; [exact Hd|]. unfold s. by rewrite Hsrc. }
  assert (Hx : exists_ dst fs = (Ok false, fs)).
  { unfold exists_, path_exists. fold d. by rewrite (stat_none_of_get _ _ Hd). }
  rewrite sync_dir_enter. rewrite (io_bind_ok _ _ _ _ _ Hx). cbv beta iota delta [negb].
  unfold try_except_OSError.
  assert (Hcopy : copytree true s d fs
                  = (Ok tt, with_ops (fs_ops fs ++ [OpCopytree true s d])
                              (set_tree rt' (fs_inodes fs) fs))).
  { unfold copytree. rewrite (io_bind_ok _ _ _ _ _ (record_fs _ fs)).
    rewrite copytree_at_ops.
    rewrite (copytree_at_ok true s d s es rt1 (Dir es) rt' (fs_inodes fs) fs);
      [done|apply stat_src_dir|exact Hmk| |by rewrite Hput1].
    rewrite Hhard. by apply copy_node_links_ok. }
  rewrite (io_bind_ok _ _ _ _ _ Hcopy). rewrite log_info_run.
  f_equal. unfold with_ops, set_tree. simpl. rewrite Hhard. f_equal.
  by rewrite <- app_assoc.
Qed.

(** X18: the copy fallback of the directory branch cannot succeed.  With the
    destination missing, the call returns exactly when the link-based tree
    copy returns; when that copy raises, the plain tree copy is tried and
    raises too, since the first attempt has left the destination directory
    behind, and the call raises. *)
Theorem sync_dir_fallback_fails (r : result unit) (fs1 : FileSystem) :
  path_exists fs dst = false ->
  sync_static_path src fs = (r, fs1) ->
  ((copytree_at true s d fs).1 = Ok tt ->
   r = Ok tt /\
   fs_ops fs1 = fs_ops fs ++ [OpCopytree true s d;
                              OpLogInfo (P.to_string src +:+ " => " +:+ P.to_string dst)]) /\
  (forall e, (copytree_at true s d fs).1 = Raise e ->
   (exists e', r = Raise e') /\
   fs_ops fs1 = fs_ops fs ++ [OpCopytree true s d; OpCopytree false s d]).
Proof.
  intros Hex. rewrite sync_dir_enter.
  assert (Hx : exists_ dst fs = (Ok false, fs)) by (unfold exists_; by rewrite Hex).
  rewrite (io_bind_ok _ _ _ _ _ Hx). cbv beta iota delta [negb].
  unfold try_except_OSError.
  destruct (copytree_at true s d fs) as [[[]|e] fsb] eqn:Hat; simpl.
  - assert (Hcopy : copytree true s d fs
                    = (Ok tt, with_ops (fs_ops fs ++ [OpCopytree true s d]) fsb)).
    { unfold copytree. rewrite (io_bind_ok _ _ _ _ _ (record_fs _ fs)).
      by rewrite copytree_at_ops, Hat. }
    rewrite (io_bind_ok _ _ _ _ _ Hcopy), log_info_run. intros [= <- <-].
    split; [|done]. intros _. split; [done|]. simpl. by rewrite <- app_assoc.
  - assert (Hcopy : copytree true s d fs
                    = (Raise e, with_ops (fs_ops fs ++ [OpCopytree true s d]) fsb)).
    { unfold copytree. rewrite (io_bind_ok _ _ _ _ _ (record_fs _ fs)).
      by rewrite copytree_at_ops, Hat. }
    rewrite (io_bind_raise _ _ _ _ _ Hcopy).
    rewrite (copytree_at_raises_oserror _ _ _ _ _ _ Hat).
    destruct (copytree_fallback_raises _ _ _ _ _
                ((fs_ops fs ++ [OpCopytree true s d]) ++ [OpCopytree false s d]) Hat)
      as (e' & fs'' & Hfb).
    assert (Hcopy2 : copytree false s d (with_ops (fs_ops fs ++ [OpCopytree true s d]) fsb)
                     = (Raise e', fs'')).
    { unfold copytree. rewrite (io_bind_ok _ _ _ _ _ (record_with_ops _ _ fsb)).
      exact Hfb. }
    rewrite (io_bind_raise _ _ _ _ _ Hcopy2). intros [= <- <-].
    split; [done|]. intros e0 [= <-]. split; [by eexists|].
    rewrite copytree_at_ops in Hfb. injection Hfb as _ <-. simpl.
    by rewrite <- app_assoc.
Qed.

(** X19: a regular file in the place of the destination of a directory source
    makes the call fail.  [rmtree] with its errors ignored leaves the file
    where it is, [copytree] then refuses the existing destination, and the
    call raises [FileExistsError]; nothing in the tree has changed. *)
Theorem sync_dir_onto_file (j : nat) :
  Tree.get (fs_root fs) d = Some (File j) ->
  sync_static_path src fs
    = (Raise FileExistsError,
       with_ops (fs_ops fs ++ [OpRmtree d; OpCopytree false s d]) fs).
Proof.
  intros Hd.
  assert (Hx : exists_ dst fs = (Ok true, fs)).
  { unfold exists_, path_exists. fold d. by rewrite (stat_of_get _ _ _ Hd) by eauto. }
  assert (Hy : is_symlink dst fs = (Ok false, fs)).
  { unfold is_symlink, path_is_symlink. fold d. by rewrite Hd. }
  rewrite sync_dir_enter. rewrite (io_bind_ok _ _ _ _ _ Hx). cbv beta iota delta [negb].
  rewrite (io_bind_ok _ _ _ _ _ Hy). cbv beta iota.
  assert (Hrm : rmtree d fs = (Ok tt, with_ops (fs_ops fs ++ [OpRmtree d]) fs)).
  { rewrite rmtree_run. unfold rmtree_at. by rewrite Hd. }
  rewrite (io_bind_ok _ _ _ _ _ Hrm). cbv beta.
  assert (Hcopy : copytree false s d (with_ops (fs_ops fs ++ [OpRmtree d]) fs)
                  = (Raise FileExistsError,
                     with_ops ((fs_ops fs ++ [OpRmtree d]) ++ [OpCopytree false s d]) fs)).
  { unfold copytree. rewrite (io_bind_ok _ _ _ _ _ (record_with_ops _ _ fs)).
    rewrite copytree_at_ops. unfold copytree_at.
    rewrite stat_src_dir, makedirs_exists_error by (by eexists). done. }
  rewrite (io_bind_raise _ _ _ _ _ Hcopy). by rewrite <- app_assoc.
Qed.

End SyncDirCases.

(** ** The resolver's result is one of the candidates *)

Section ResolverRange.

Context `{Util} `{DirView} `{SetOrder}.




End ResolverRange.

(** ** The absolutized description as a whole *)

Lemma urlsplit_raises `{NetlocChecks} (url scheme : string) (e : exn) :
  urlsplit url scheme = Raise e -> e = ValueError.
Proof.
  unfold urlsplit.
  destruct (match Str.find ":" _ with Some (S i) => _ | _ => _ end) as [sch u].
  destruct (Str.startswith u "//").
  - destruct (splitnetloc2 u) as [netloc rest].
    destruct (_ || _); [by intros [= <-]|].
    destruct (_ && _); [by intros [= <-]|].
    cbn [result_bind mbind].
    destruct (if Str.contains "#" rest then _ else _) as [u1 f].
    destruct (if Str.contains "?" u1 then _ else _) as [u2 q].
    destruct (checknetloc netloc); [done|by intros [= <-]].
  - cbn [result_bind mbind].
    destruct (if Str.contains "#" u then _ else _) as [u1 f].
    destruct (if Str.contains "?" u1 then _ else _) as [u2 q].
    destruct (checknetloc ""); [done|by intros [= <-]].
Qed.

Lemma absolutize_url_raises `{NetlocChecks} (r : Resource) (url : string) (e : exn) :
  absolutize_url r url = Raise e -> e = ValueError /\ urlsplit url "file" = Raise ValueError.
Proof.
  unfold absolutize_url, is_relative_url.
  destruct (urlsplit url "file") as [u|e'] eqn:E.
  - cbn [result_bind mbind]. by destruct (negb _).
  - intros [= <-]. apply urlsplit_raises in E as ->. done.
Qed.

Lemma map_result_raise {A B} (f : A -> result B) (l : list A) (e : exn) :
  map_result f l = Raise e -> exists x, x ∈ l /\ f x = Raise e.
Proof.
  induction l as [|x l IH]; [done|]. simpl.
  destruct (f x) as [y|e'] eqn:Ex.
  - cbn [result_bind mbind]. destruct (map_result f l) as [ys|e''] eqn:El; [done|].
    intros [= <-]. destruct (IH eq_refl) as (x' & Hin & Hx').
    exists x'. split; [by right|done].
  - intros [= <-]. exists x. split; [by left|done].
Qed.

Lemma map_result_length {A B} (f : A -> result B) (l : list A) (l' : list B) :
  map_result f l = Ok l' -> length l' = length l.
Proof.
  revert l'. induction l as [|x l IH]; intros l'; [by intros [= <-]|]. simpl.
  destruct (f x) as [y|e']; [|done]. cbn [result_bind mbind].
  destruct (map_result f l) as [ys|e'']; [|done].
  intros [= <-]. simpl. by rewrite (IH ys).
Qed.

Section AbsolutizedContent.

Context `{Util} `{DirView} `{SetOrder} `{NetlocChecks} `{DocumentLib}.

(** X21: the absolutized description on first access.  When every URL of the
    description is accepted by the parser, the result is a document with
    the description's title and body and, in order, each URL absolutized.
    When one URL is rejected, the whole access raises [ValueError]: one
    malformed link in a description is enough to lose its gallery entry. *)
Theorem absolutized_description_content (r : Resource) (st : State) (c : DocContent) :
  state_ok st ->
  description_cache st = None ->
  description_content r = Ok c ->
  match map_result (absolutize_url r) (doc_urls c) with
  | Ok urls' =>
      length urls' = length (doc_urls c) /\
      exists a st', description_with_absolute_urls r st = Ok (a, st') /\
                    get_document a st'
                      = Ok (mkDoc (doc_title c) (doc_body c) urls', st')
  | Raise e =>
      description_with_absolute_urls r st = Raise ValueError /\
      exists url, url ∈ doc_urls c /\ urlsplit url "file" = Raise ValueError
  end.
Proof.
  intros Hok Ec Hc.
  destruct (map_result (absolutize_url r) (doc_urls c)) as [urls'|e] eqn:Hurls.
  - split; [by eapply map_result_length|].
    by eapply description_with_absolute_urls_returns.
  - destruct (map_result_raise _ _ _ Hurls) as (url & Hin & Hurl).
    apply absolutize_url_raises in Hurl as [-> Hsplit].
    split; [|by exists url].
    unfold description_with_absolute_urls.
    rewrite (state_ok_abs_none st Hok Ec).
    pose proof (description_uncached r st Ec) as Hdesc. rewrite Hc in Hdesc.
    simpl in Hdesc. erewrite bind_ok by exact Hdesc.
    match type of Hdesc with _ = Ok (?d, ?st1) =>
      assert (Hdoc : holds_document (heap st1) d (fresh (dom (heap st))) c)
    end.
    { apply holds_document_new. eapply lookup_ne_of_fresh; [|apply fresh_lookup].
      apply lookup_insert_eq. }
    destruct (deepcopy_spec _ _ c _ Hdoc) as (ta & a & Ecopy & Hta & Ha & Hne).
    erewrite bind_ok by exact Ecopy.
    assert (Hcopydoc : forall h, holds_document
              (<[a := ODocument (doc_title c) ta]>
                 (<[ta := OTree (doc_body c) (doc_urls c)]> h)) a ta c)
      by (intros h; by apply holds_document_new).
    apply bind_raise.
    rewrite (rewrite_urls_spec a ta c); [|apply Hcopydoc]. by rewrite Hurls.
Qed.

End AbsolutizedContent.

(** ** The further properties at concrete inputs *)

Section MoreExamples.

#[local] Existing Instance identity_util.
#[local] Existing Instance first_occurrence_order.
#[local] Existing Instance permissive_netloc_checks.
#[local] Existing Instance sample_document_lib.
#[local] Existing Instance site_config.
#[local] Existing Instance site_collections.

(** The generated description of [projects/foo] shows [foo.jpg], the asset
    named after the slug, not the first asset; the document made from it
    holds what the parser gave. *)
Lemma generated_description_text_witness :
  let md := "![foo](foo.jpg){.headline}" +:+ newline +:+ "# foo" in
  asset_paths (H0:=foo_headline_view) project_foo
    = Ok [P.of_string "projects/foo/a.png"; P.of_string "projects/foo/foo.jpg";
          P.of_string "projects/foo/notes.md.bak"] /\
  generate_description_md (H0:=foo_headline_view) project_foo = Ok md /\
  exists d st,
    _generate_description (H0:=foo_headline_view) project_foo initial_state = Ok (d, st) /\
    get_document d st
      = Ok (mkDoc "foo" md ["a.png"; "/abs/v1.svg"; "missing.png"], st).
Proof.
  intros md. split; [reflexivity|].
  pose proof (generated_description_text (H0:=foo_headline_view) project_foo _ eq_refl)
    as (Hmd & Hrun & _ & _).
  split; [exact Hmd|].
  eexists _, _. split; [rewrite Hrun; vm_compute; reflexivity|].
  vm_compute; reflexivity.
Defined.

(** A resource whose directory cannot be listed. *)
Lemma unlistable_resource_raises_witness :
  scandir (DirView:=elsewhere_view) (path project_foo) = Raise FileNotFoundError /\
  description_path (H0:=elsewhere_view) project_foo = Ok None /\
  description (H0:=elsewhere_view) project_foo initial_state = Raise FileNotFoundError.
Proof.
  split; [reflexivity|].
  pose proof (unlistable_resource_raises (H0:=elsewhere_view) project_foo
                FileNotFoundError eq_refl) as (Hp & _ & _ & _ & Hd).
  split; [exact Hp|]. exact (Hd initial_state eq_refl).
Defined.

(** Listing [projects]: the work directory [foo] and the stray
    [readme.md], which gives a resource for [projects] itself. *)
Lemma discover_entries_witness :
  scandir (DirView:=projects_view) (P.of_string "projects")
    = Ok [mkEntry "foo" Directory; mkEntry "readme.md" RegularFile] /\
  discover (H0:=projects_view) Project (P.of_string "projects")
    = Ok [mkResource Project (P.of_string "projects/foo") "foo" DCachedProperty;
          mkResource Project (P.of_string "projects") "projects"
            (DPath (P.of_string "projects/readme.md"))] /\
  exists rs,
    discover (H0:=projects_view) Project (P.of_string "projects") = Ok rs /\
    length rs = 2.
Proof.
  split; [reflexivity|]. split; [reflexivity|].
  destruct (discover_entries (H0:=projects_view) Project (P.of_string "projects")
              [mkEntry "foo" Directory; mkEntry "readme.md" RegularFile] eq_refl)
    as (rs & Hrs & Hlen & _).
  exists rs. split; [exact Hrs|exact Hlen].
Defined.

(** The cached properties on first and second access. *)
Lemma cached_properties_compute_once_witness :
  let run := description_with_absolute_urls (H0:=foo_view) project_foo initial_state in
  exists a st1,
    run = Ok (a, st1) /\
    description_with_absolute_urls_cache initial_state = None /\
    description_with_absolute_urls (H0:=foo_view) project_foo st1 = Ok (a, st1) /\
    exists d, description (H0:=foo_view) project_foo st1 = Ok (d, st1).
Proof.
  intros run. eexists _, _.
  match goal with
  | |- ?lhs = ?rhs /\ _ => assert (Hrun : lhs = rhs) by (vm_compute; reflexivity)
  end.
  split; [exact Hrun|]. split; [reflexivity|].
  exact (proj2 (cached_properties_compute_once (H0:=foo_view) project_foo
                  initial_state _ _) Hrun eq_refl).
Defined.

(** Four targets: one below [projects], one below [pieces], the directory
    [projects] itself and a file elsewhere. *)
Lemma targets_sorted_by_ancestry_witness :
  let targets := [P.of_string "projects/foo/index.md"; P.of_string "pieces/bar";
                  P.of_string "projects"; P.of_string "notes/todo.md"] in
  projects_dir <> pieces_dir /\
  ~ inside projects_dir pieces_dir /\
  ~ inside pieces_dir projects_dir /\
  P.of_string "projects" ∈ target_other targets /\
  length (target_projects targets) + length (target_pieces targets)
  + length (target_other targets) = length targets.
Proof.
  intros targets.
  assert (N0 : projects_dir <> pieces_dir) by discriminate.
  assert (N1 : ~ inside projects_dir pieces_dir).
  { intros (_ & l & _ & Hl). discriminate Hl. }
  assert (N2 : ~ inside pieces_dir projects_dir).
  { intros (_ & l & _ & Hl). discriminate Hl. }
  pose proof (targets_sorted_by_ancestry targets) as (_ & _ & _ & Hself & Hcount).
  split_and!; [exact N0|exact N1|exact N2| |exact (Hcount N0 N1 N2)].
  apply Hself; [|exact N2]. apply (bool_decide_unpack _). vm_compute. reflexivity.
Defined.

(** The gallery link of the project [foo]. *)
Lemma gallery_link_is_page_address_witness :
  P.of_string (slug project_foo) = mkPath NoRoot [slug project_foo] /\
  gallery_link project_foo = "/projects/foo/" /\
  P.relative_to (page_dir_of project_foo) output_dir = Ok (P.of_string "projects/foo").
Proof.
  split; [reflexivity|]. split; [reflexivity|].
  exact (proj1 (proj2 (gallery_link_is_page_address project_foo) eq_refl)).
Defined.

(** [/in/robots.txt] synced into the empty [/out] where links fail: a copy
    under a new inode. *)
Lemma sync_file_absent_destination_witness :
  let src := P.of_string "/in/robots.txt" in
  let fs := site_fs false in
  P.relative_to src input_dir = Ok (P.of_string "robots.txt") /\
  Tree.get (fs_root fs) (P.parts src) = Some (File 2) /\
  fs_inodes fs !! 2 = Some (mkData "User-agent: *" 3) /\
  Tree.get (fs_root fs) ["/"; "out"; "robots.txt"] = None /\
  Tree.get (fs_root fs) ["/"; "out"] = Some (Dir []) /\
  exists rt',
    sync_static_path src fs
      = (Ok tt, mkFileSystem rt' (<[3 := mkData "User-agent: *" 3]> (fs_inodes fs)) false
                  [OpLink ["/"; "in"; "robots.txt"] ["/"; "out"; "robots.txt"];
                   OpCopy2 ["/"; "in"; "robots.txt"] ["/"; "out"; "robots.txt"];
                   OpLogInfo "/in/robots.txt -> /out/robots.txt"]).
Proof.
  intros src fs. split_and!; [reflexivity..|].
  destruct (sync_file_absent_destination (H:=site_config) src (P.of_string "robots.txt") fs 2
              (mkData "User-agent: *" 3) eq_refl eq_refl eq_refl [] eq_refl eq_refl)
    as (rt' & _ & Hrun & _).
  exists rt'. exact Hrun.
Defined.

(** [/in/static/a.css] synced on its own: [/out/static] does not exist in
    the first tree and is a regular file in the second. *)
Lemma sync_file_missing_directory_witness :
  let src := P.of_string "/in/static/a.css" in
  let d := ["/"; "out"; "static"; "a.css"] in
  P.relative_to src input_dir = Ok (P.of_string "static/a.css") /\
  Tree.get (fs_root (site_fs true)) (P.parts src) = Some (File 0) /\
  fs_inodes (site_fs true) !! 0 = Some (mkData "body{}" 1) /\
  Tree.plain (fs_root (site_fs true)) = true /\
  Tree.get (fs_root (site_fs true)) d = None /\
  Tree.is_dir (fs_root (site_fs true)) (Tree.parent d) = false /\
  Tree.plain (fs_root occupied_fs) = true /\
  Tree.get (fs_root occupied_fs) d = None /\
  Tree.is_dir (fs_root occupied_fs) (Tree.parent d) = false /\
  (sync_static_path src (site_fs true)).1 = Raise FileNotFoundError /\
  (sync_static_path src occupied_fs).1 = Raise NotADirectoryError.
Proof.
  intros src d. split_and!; [reflexivity..| |].
  - destruct (sync_file_missing_directory (H:=site_config) src
                (P.of_string "static/a.css") (site_fs true) 0
                (mkData "body{}" 1) eq_refl eq_refl eq_refl eq_refl eq_refl eq_refl)
      as (Hrun & _ & Hmissing).
    rewrite Hrun. exact (f_equal Raise (Hmissing [] eq_refl eq_refl)).
  - destruct (sync_file_missing_directory (H:=site_config) src
                (P.of_string "static/a.css") occupied_fs 0
                (mkData "body{}" 1) eq_refl eq_refl eq_refl eq_refl eq_refl eq_refl)
      as (Hrun & Hfile & _).
    rewrite Hrun. exact (f_equal Raise (Hfile 3 eq_refl)).
Defined.


(** However the sync of [/in/robots.txt] over the outdated copy ends, the
    source is as it was. *)
Lemma sync_file_keeps_source_witness :
  let src := P.of_string "/in/robots.txt" in
  let run := sync_static_path src occupied_fs in
  path_is_file occupied_fs src = true /\
  file_data run.2 src = file_data occupied_fs src /\
  path_is_file run.2 src = true.
Proof.
  intros src run. split; [reflexivity|].
  destruct (sync_file_keeps_source (H:=site_config) src occupied_fs run.1 run.2 eq_refl
              (surjective_pairing run)) as (Hd & Hf & _).
  split; [exact Hd|exact Hf].
Defined.

(** [/in/static] linked into the empty [/out]. *)
Lemma sync_dir_links_tree_witness :
  let src := P.of_string "/in/static" in
  let fs := site_fs true in
  let es := [("a.css", File 0); ("img", Dir [("b.png", File 1)])] in
  P.relative_to src input_dir = Ok (P.of_string "static") /\
  Tree.get (fs_root fs) (P.parts src) = Some (Dir es) /\
  Tree.plain (Dir es) = true /\
  Tree.all_live (fs_inodes fs) (Dir es) = true /\
  fs_hardlinks fs = true /\
  Tree.get (fs_root fs) ["/"; "out"; "static"] = None /\
  Tree.get (fs_root fs) ["/"; "out"] = Some (Dir []) /\
  ~ ["/"; "in"; "static"] `prefix_of` ["/"; "out"; "static"] /\
  exists rt',
    Tree.get rt' ["/"; "out"; "static"] = Some (Dir es) /\
    Tree.get rt' ["/"; "in"; "static"] = Some (Dir es) /\
    (sync_static_path src fs).1 = Ok tt /\
    fs_root (sync_static_path src fs).2 = rt' /\
    fs_inodes (sync_static_path src fs).2 = fs_inodes fs.
Proof.
  intros src fs es.
  assert (Hn : ~ ["/"; "in"; "static"] `prefix_of` ["/"; "out"; "static"]).
  { apply (bool_decide_unpack _). vm_compute. reflexivity. }
  split_and!; [reflexivity|reflexivity|reflexivity|reflexivity|reflexivity|reflexivity|
               reflexivity|exact Hn|].
  destruct (sync_dir_links_tree (H:=site_config) src (P.of_string "static") fs es eq_refl eq_refl []
              eq_refl eq_refl eq_refl eq_refl eq_refl Hn)
    as (rt' & Hput & Hs & Hrun).
  exists rt'. rewrite Hrun. split_and!; try reflexivity; [|exact Hs].
  exact (put_get_self _ _ _ _ Hput).
Defined.

(** [/in/static] where links fail: both tree copies are tried, the call
    raises. *)
Lemma sync_dir_fallback_fails_witness :
  let src := P.of_string "/in/static" in
  let fs := site_fs false in
  let run := sync_static_path src fs in
  P.relative_to src input_dir = Ok (P.of_string "static") /\
  path_exists fs (P.of_string "/out/static") = false /\
  (copytree_at true ["/"; "in"; "static"] ["/"; "out"; "static"] fs).1 = Raise OSError /\
  (exists e', run.1 = Raise e') /\
  fs_ops run.2 = [OpCopytree true ["/"; "in"; "static"] ["/"; "out"; "static"];
                  OpCopytree false ["/"; "in"; "static"] ["/"; "out"; "static"]].
Proof.
  intros src fs run. split_and!; [reflexivity|reflexivity|reflexivity|..].
  - exact (proj1 (proj2 (sync_dir_fallback_fails (H:=site_config) src (P.of_string "static") fs _
                           eq_refl eq_refl run.1 run.2 eq_refl (surjective_pairing run))
                    OSError eq_refl)).
  - exact (proj2 (proj2 (sync_dir_fallback_fails (H:=site_config) src (P.of_string "static") fs _
                           eq_refl eq_refl run.1 run.2 eq_refl (surjective_pairing run))
                    OSError eq_refl)).
Defined.

(** [/in/static] where an earlier build left a regular file [/out/static]. *)
Lemma sync_dir_onto_file_witness :
  let src := P.of_string "/in/static" in
  P.relative_to src input_dir = Ok (P.of_string "static") /\
  Tree.get (fs_root occupied_fs) ["/"; "out"; "static"] = Some (File 3) /\
  (sync_static_path src occupied_fs).1 = Raise FileExistsError /\
  fs_root (sync_static_path src occupied_fs).2 = fs_root occupied_fs.
Proof.
  intros src. split; [reflexivity|]. split; [reflexivity|].
  rewrite (sync_dir_onto_file (H:=site_config) src (P.of_string "static") occupied_fs _ eq_refl eq_refl
             3 eq_refl).
  split; reflexivity.
Defined.

(** The absolutized description of [projects/foo], generated with three
    URLs of which two are relative. *)
Lemma absolutized_description_content_witness :
  let c := mkDoc "foo" ("![a](a.png){.headline}" +:+ newline +:+ "# foo")
             ["a.png"; "/abs/v1.svg"; "missing.png"] in
  state_ok initial_state /\
  description_cache initial_state = None /\
  description_content (H0:=foo_view) project_foo = Ok c /\
  exists a st',
    description_with_absolute_urls (H0:=foo_view) project_foo initial_state = Ok (a, st') /\
    get_document a st'
      = Ok (mkDoc (doc_title c) (doc_body c)
              ["/projects/foo/a.png"; "/abs/v1.svg"; "/projects/foo/missing.png"], st').
Proof.
  intros c.
  assert (Hc : description_content (H0:=foo_view) project_foo = Ok c) by reflexivity.
  split_and!; [exact initial_state_ok|reflexivity|exact Hc|].
  pose proof (absolutized_description_content (H0:=foo_view) project_foo initial_state c
                initial_state_ok eq_refl Hc) as Hthm.
  assert (Hurls : map_result (absolutize_url project_foo) (doc_urls c)
                  = Ok ["/projects/foo/a.png"; "/abs/v1.svg"; "/projects/foo/missing.png"])
    by reflexivity.
  rewrite Hurls in Hthm. exact (proj2 Hthm).
Defined.

End MoreExamples.
